(** * Remote terminal bridge of the Automata Remote Access Portal

    A shallow embedding of the pseudo-terminal bridge of
    [src/DOAS/Element/server.py] (the Flask-SocketIO handlers
    [handle_terminal_connect], [handle_terminal_input],
    [handle_terminal_resize], [handle_disconnect] and the background task
    [read_terminal_output]) and of the Socket.IO terminal handlers that
    [src/DOAS/Element/SetupNexus.py] patches into the portal's [server.js].

    The Python handlers mutate the module-level dictionary [terminals] and
    talk to the operating system (PTY devices, file descriptors, processes).
    Both are made explicit: a [world] holds the dictionary, the part of the
    operating system the handlers touch, and the events sent to clients.
    A handler is a function from a world to a result and a new world; an
    exception leaves the mutations made before it in place, as in Python.

    The handlers run one at a time; the background task of a session runs
    beside them and can be overtaken between any two of its calls, so it
    is cut into steps. *)

From Stdlib Require Import ZArith Lia Strings.Byte Ascii String.
From stdpp Require Import base gmap strings list fin_maps.

Local Open Scope Z_scope.

(** ** Python values *)

(** A Python [str] is a sequence of Unicode code points. *)
Definition pystr := list Z.

(** A Python [bytes] object. *)
Definition pybytes := list byte.

Definition pystr_of_string (s : string) : pystr :=
  (λ a, Z.of_N (N_of_ascii a)) <$> list_ascii_of_string s.

(** The values the fields of a JSON event payload can hold, as far as the
    handlers distinguish them: an integer (a boolean counts as the integer
    it is in Python), a string, or anything else ([null], a float, an array,
    an object), which [struct.pack] and [.encode()] refuse alike. *)
Inductive pyval :=
  | PyInt (z : Z)
  | PyStr (s : pystr)
  | PyNone.

#[global] Instance pyval_eq_dec : EqDecision pyval.
Proof. solve_decision. Defined.

(** The payload of an event is whatever JSON value the client sent: an
    object, which arrives as a dictionary, or something else. Of the other
    kinds the handlers tell apart a string (on which [in] looks for a
    substring), an array (on which [in] compares the elements, and only a
    string element can equal a key) and the rest: [null], numbers,
    booleans. *)
Inductive payload :=
  | PDict (d : gmap string pyval)
  | PText (s : pystr)
  | PList (l : list pyval)
  | PScalar.

(** The exceptions raised by the operations the handlers use. *)
Inductive errno := EBADF | EMFILE | EIO | ENOENT | ENOTTY.

Inductive exn :=
  | OSError (e : errno)
  | KeyError (k : string)
  | StructError
  | AttributeError
  | UnicodeEncodeError
  | TypeError
  | ValueError.

(** ** The operating system, as far as the bridge sees it *)

Inductive side := Master | Slave.

#[global] Instance side_eq_dec : EqDecision side.
Proof. solve_decision. Defined.

Inductive fdesc :=
  | FdPty (k : nat) (s : side)
  | FdOther.

#[global] Instance fdesc_eq_dec : EqDecision fdesc.
Proof. solve_decision. Defined.

Record winsize := Winsize {
  ws_row : Z; ws_col : Z; ws_xpixel : Z; ws_ypixel : Z
}.

(** A PTY pair: its window size, the bytes waiting to be read on the
    control side (output of the shell, and what the line discipline echoes
    of the input), the bytes the server has written into the control side,
    in order, and whether the subordinate side has hung up. What the line
    discipline makes of the bytes written (line editing, signals, the
    translation of line ends) is the business of the kernel and of the
    terminal modes the shell sets; it is not modelled. *)
Record pty_state := PtyState {
  pty_winsize : winsize;
  pty_out : pybytes;
  pty_in : pybytes;
  pty_hup : bool
}.

(** [Terminating]: sent the terminate signal and not exited. *)
Inductive proc_status := Running | Terminating | Exited.

#[global] Instance proc_status_eq_dec : EqDecision proc_status.
Proof. solve_decision. Defined.

(** A child process as [subprocess.Popen] starts it. *)
Record proc := Proc {
  p_argv : list string;
  p_stdin : fdesc;
  p_stdout : fdesc;
  p_stderr : fdesc;
  p_setsid : bool;
  p_env : gmap string string;
  p_status : proc_status
}.

Record os_state := OsState {
  fds : gmap Z fdesc;            (* open descriptors of the server process *)
  ptys : gmap nat pty_state;
  procs : gmap Z proc;
  environ : gmap string string;  (* os.environ of the server process *)
  fd_limit : Z;                  (* RLIMIT_NOFILE *)
  can_exec : bool;               (* fork and exec of /bin/bash succeed *)
  next_pty : nat;
  next_pid : Z
}.

(** ** The state of the server *)

(** An entry of the [terminals] dictionary. *)
Record terminal := Terminal {
  master_fd : Z;
  slave_fd : Z;
  process : Z
}.

(** Where a background task running [read_terminal_output] stands: not
    scheduled yet; past the test at its entry and about to look its
    descriptor up in the dictionary; at the test of its loop, with that
    descriptor; past the test and about to call [select]; told by [select]
    that the descriptor is ready and about to call [os.read]; holding the
    decoded output and about to emit it; or ended. *)
Inductive relay_pc :=
  | RelayNew
  | RelayEntered
  | RelayLoop (master : Z)
  | RelaySelect (master : Z)
  | RelayRead (master : Z)
  | RelayEmit (master : Z) (output : pystr)
  | RelayDone.

Record world := World {
  terminals : gmap string terminal;
  os : os_state;
  emitted : list (string * pystr);   (* terminal_output events: room, data *)
  tasks : list (string * relay_pc);  (* background tasks started, by session id *)
  controller_serial : option pystr;  (* CONFIG['controller_serial'] *)
  clock_ms : Z                       (* time spent waiting in select *)
}.

Definition set_terminals (f : gmap string terminal → gmap string terminal) (w : world) : world :=
  World (f (terminals w)) (os w) (emitted w) (tasks w) (controller_serial w) (clock_ms w).

Definition set_os (f : os_state → os_state) (w : world) : world :=
  World (terminals w) (f (os w)) (emitted w) (tasks w) (controller_serial w) (clock_ms w).

Definition set_emitted (f : list (string * pystr) → list (string * pystr)) (w : world) : world :=
  World (terminals w) (os w) (f (emitted w)) (tasks w) (controller_serial w) (clock_ms w).

Definition set_tasks (f : list (string * relay_pc) → list (string * relay_pc)) (w : world) : world :=
  World (terminals w) (os w) (emitted w) (f (tasks w)) (controller_serial w) (clock_ms w).

Definition set_clock (f : Z → Z) (w : world) : world :=
  World (terminals w) (os w) (emitted w) (tasks w) (controller_serial w) (f (clock_ms w)).

Definition set_fds (f : gmap Z fdesc → gmap Z fdesc) (o : os_state) : os_state :=
  OsState (f (fds o)) (ptys o) (procs o) (environ o) (fd_limit o) (can_exec o) (next_pty o) (next_pid o).

Definition set_ptys (f : gmap nat pty_state → gmap nat pty_state) (o : os_state) : os_state :=
  OsState (fds o) (f (ptys o)) (procs o) (environ o) (fd_limit o) (can_exec o) (next_pty o) (next_pid o).

Definition set_procs (f : gmap Z proc → gmap Z proc) (o : os_state) : os_state :=
  OsState (fds o) (ptys o) (f (procs o)) (environ o) (fd_limit o) (can_exec o) (next_pty o) (next_pid o).

(** ** Results and the handler monad *)

(** A call returns, raises, or blocks forever ([os.read] on a descriptor
    with nothing to read). *)
Inductive res (A : Type) :=
  | Ok (a : A)
  | Raise (e : exn)
  | Blocked.
Arguments Ok {A} a.
Arguments Raise {A} e.
Arguments Blocked {A}.

Definition M (A : Type) : Type := world → res A * world.

Definition ret {A} (a : A) : M A := λ w, (Ok a, w).

Definition raise {A} (e : exn) : M A := λ w, (Raise e, w).

Definition bind {A B} (c : M A) (k : A → M B) : M B := λ w,
  match c w with
  | (Ok a, w') => k a w'
  | (Raise e, w') => (Raise e, w')
  | (Blocked, w') => (Blocked, w')
  end.

Notation "'let*' x ':=' c 'in' k" := (bind c (λ x, k))
  (at level 20, x name, c at level 100, k at level 200, only parsing).
Notation "'let*' ' p ':=' c 'in' k" := (bind c (λ x, match x with p => k end))
  (at level 20, p pattern, c at level 100, k at level 200, only parsing).
Notation "c ';;' k" := (bind c (λ _, k))
  (at level 100, k at level 200, right associativity, only parsing).

Definition get_world : M world := λ w, (Ok w, w).

Definition modify (f : world → world) : M unit := λ w, (Ok tt, f w).

(** [try: c except: h], with Python's bare [except]. *)
Definition try_except {A} (c : M A) (h : M A) : M A := λ w,
  match c w with
  | (Raise _, w') => h w'
  | r => r
  end.

(** ** Bytes, [struct.pack] and UTF-8 *)

Definition byte_val (b : byte) : Z := Z.of_N (Byte.to_N b).

Definition byte_of_Z (z : Z) : byte :=
  default x00 (Byte.of_N (Z.to_N (z mod 256))).

(** One ['H'] field of [struct.pack]: an unsigned 16-bit integer in native
    (little-endian) byte order; [struct.error] for anything else. *)
Definition pack_H (v : pyval) : option pybytes :=
  match v with
  | PyInt z =>
      if bool_decide (0 ≤ z ≤ 65535)
      then Some [byte_of_Z (Z.land z 255); byte_of_Z (Z.shiftr z 8)]
      else None
  | _ => None
  end.

(** [struct.pack('HHHH', a, b, c, d)]. *)
Definition struct_pack_HHHH (a b c d : pyval) : M pybytes :=
  match pack_H a, pack_H b, pack_H c, pack_H d with
  | Some x, Some y, Some z, Some t => ret (x ++ y ++ z ++ t)
  | _, _, _, _ => raise StructError
  end.

Definition unpack_H (lo hi : byte) : Z :=
  Z.lor (byte_val lo) (Z.shiftl (byte_val hi) 8).

(** The kernel's reading of the eight bytes as a [struct winsize]. *)
Definition winsize_of_bytes (bs : pybytes) : option winsize :=
  match bs with
  | [r0; r1; c0; c1; x0; x1; y0; y1] =>
      Some (Winsize (unpack_H r0 r1) (unpack_H c0 c1) (unpack_H x0 x1) (unpack_H y0 y1))
  | _ => None
  end.

Definition REPLACEMENT : Z := 0xFFFD.

Definition is_cont (b : Z) : bool := bool_decide (0x80 ≤ b ≤ 0xBF).

Definition cont_bits (b : Z) : Z := Z.land b 0x3F.

(** [bytes.decode('utf-8', errors='replace')], the codec the relay calls:
    a lead byte says how many continuation bytes follow and which range the
    first of them must lie in (no overlong forms, no surrogates, nothing
    above U+10FFFF); every maximal ill-formed subsequence becomes one
    U+FFFD and decoding resumes right after it. *)
Fixpoint utf8_decode_replace (bs : pybytes) : pystr :=
  match bs with
  | [] => []
  | c0 :: r =>
      let b0 := byte_val c0 in
      if bool_decide (b0 < 0x80) then b0 :: utf8_decode_replace r
      else if bool_decide (b0 < 0xC2) then REPLACEMENT :: utf8_decode_replace r
      else if bool_decide (b0 < 0xE0) then
        match r with
        | [] => [REPLACEMENT]
        | c1 :: r1 =>
            let b1 := byte_val c1 in
            if is_cont b1
            then Z.lor (Z.shiftl (Z.land b0 0x1F) 6) (cont_bits b1) :: utf8_decode_replace r1
            else REPLACEMENT :: utf8_decode_replace r
        end
      else if bool_decide (b0 < 0xF0) then
        let lo := if bool_decide (b0 = 0xE0) then 0xA0 else 0x80 in
        let hi := if bool_decide (b0 = 0xED) then 0x9F else 0xBF in
        match r with
        | [] => [REPLACEMENT]
        | c1 :: r1 =>
            let b1 := byte_val c1 in
            if bool_decide (lo ≤ b1 ≤ hi) then
              match r1 with
              | [] => [REPLACEMENT]
              | c2 :: r2 =>
                  let b2 := byte_val c2 in
                  if is_cont b2
                  then Z.lor (Z.shiftl (Z.land b0 0x0F) 12)
                         (Z.lor (Z.shiftl (cont_bits b1) 6) (cont_bits b2))
                       :: utf8_decode_replace r2
                  else REPLACEMENT :: utf8_decode_replace r1
              end
            else REPLACEMENT :: utf8_decode_replace r
        end
      else if bool_decide (b0 < 0xF5) then
        let lo := if bool_decide (b0 = 0xF0) then 0x90 else 0x80 in
        let hi := if bool_decide (b0 = 0xF4) then 0x8F else 0xBF in
        match r with
        | [] => [REPLACEMENT]
        | c1 :: r1 =>
            let b1 := byte_val c1 in
            if bool_decide (lo ≤ b1 ≤ hi) then
              match r1 with
              | [] => [REPLACEMENT]
              | c2 :: r2 =>
                  let b2 := byte_val c2 in
                  if is_cont b2 then
                    match r2 with
                    | [] => [REPLACEMENT]
                    | c3 :: r3 =>
                        let b3 := byte_val c3 in
                        if is_cont b3
                        then Z.lor (Z.shiftl (Z.land b0 0x07) 18)
                               (Z.lor (Z.shiftl (cont_bits b1) 12)
                                  (Z.lor (Z.shiftl (cont_bits b2) 6) (cont_bits b3)))
                             :: utf8_decode_replace r3
                        else REPLACEMENT :: utf8_decode_replace r2
                    end
                  else REPLACEMENT :: utf8_decode_replace r1
              end
            else REPLACEMENT :: utf8_decode_replace r
        end
      else REPLACEMENT :: utf8_decode_replace r
  end.

(** [str.encode()]: UTF-8, [UnicodeEncodeError] on a surrogate. *)
Definition utf8_encode_cp (c : Z) : option pybytes :=
  if bool_decide (0 ≤ c < 0x80) then Some [byte_of_Z c]
  else if bool_decide (0x80 ≤ c < 0x800) then
    Some [byte_of_Z (Z.lor 0xC0 (Z.shiftr c 6));
          byte_of_Z (Z.lor 0x80 (Z.land c 0x3F))]
  else if bool_decide (0xD800 ≤ c ≤ 0xDFFF) then None
  else if bool_decide (0x800 ≤ c < 0x10000) then
    Some [byte_of_Z (Z.lor 0xE0 (Z.shiftr c 12));
          byte_of_Z (Z.lor 0x80 (Z.land (Z.shiftr c 6) 0x3F));
          byte_of_Z (Z.lor 0x80 (Z.land c 0x3F))]
  else if bool_decide (0x10000 ≤ c < 0x110000) then
    Some [byte_of_Z (Z.lor 0xF0 (Z.shiftr c 18));
          byte_of_Z (Z.lor 0x80 (Z.land (Z.shiftr c 12) 0x3F));
          byte_of_Z (Z.lor 0x80 (Z.land (Z.shiftr c 6) 0x3F));
          byte_of_Z (Z.lor 0x80 (Z.land c 0x3F))]
  else None.

Fixpoint utf8_encode (s : pystr) : option pybytes :=
  match s with
  | [] => Some []
  | c :: s' =>
      match utf8_encode_cp c, utf8_encode s' with
      | Some b, Some bs => Some (b ++ bs)
      | _, _ => None
      end
  end.


(** *** What [errors='replace'] asks of the decoder

    The codec follows the Unicode standard: a well-formed sequence is
    decoded to its code point, and in an ill-formed one every maximal
    subpart is replaced by U+FFFD. Well-formed is what [str.encode()]
    produces. *)










(** ** Operating-system calls *)

(** The lowest descriptor below the limit that is not open. *)
Definition lowest_free (m : gmap Z fdesc) (limit : Z) : option Z :=
  List.find (λ n, bool_decide (m !! n = None)) (seqZ 0 limit).

Definition fresh_pty : pty_state := PtyState (Winsize 0 0 0 0) [] [] false.

(** [pty.openpty()]: a new PTY pair on the two lowest free descriptors. *)
Definition pty_openpty : M (Z * Z) := λ w,
  let o := os w in
  match lowest_free (fds o) (fd_limit o) with
  | None => (Raise (OSError EMFILE), w)
  | Some m =>
      let k := next_pty o in
      let fds1 := <[m := FdPty k Master]> (fds o) in
      match lowest_free fds1 (fd_limit o) with
      | None => (Raise (OSError EMFILE), w)
      | Some s =>
          (Ok (m, s),
           set_os (λ _, OsState (<[s := FdPty k Slave]> fds1)
                          (<[k := fresh_pty]> (ptys o)) (procs o) (environ o)
                          (fd_limit o) (can_exec o) (S k) (next_pid o)) w)
      end
  end.

(** Whether two more descriptors can be opened. *)
Definition two_free (o : os_state) : bool :=
  match lowest_free (fds o) (fd_limit o) with
  | Some r => bool_decide (is_Some (lowest_free (<[r := FdOther]> (fds o)) (fd_limit o)))
  | None => false
  end.

(** [subprocess.Popen(args, stdin=i, stdout=o, stderr=e, preexec_fn=os.setsid)].
    No [env] argument: the child gets the server's environment. Before it
    forks, [Popen] opens the pipe on which the child reports a failure;
    the pipe is closed again before [Popen] returns or raises. *)
Definition subprocess_Popen (args : list string) (i o e : Z) (setsid : bool) : M Z := λ w,
  let st := os w in
  if two_free st then
    match fds st !! i, fds st !! o, fds st !! e with
    | Some di, Some do, Some de =>
        if can_exec st then
          let pid := next_pid st in
          (Ok pid,
           set_os (λ _, OsState (fds st) (ptys st)
                          (<[pid := Proc args di do de setsid (environ st) Running]> (procs st))
                          (environ st) (fd_limit st) (can_exec st) (next_pty st) (pid + 1)) w)
        else (Raise (OSError ENOENT), w)
    | _, _, _ => (Raise (OSError EBADF), w)
    end
  else (Raise (OSError EMFILE), w).

(** [Popen.terminate()]: SIGTERM to a child that has not exited. *)
Definition Popen_terminate (pid : Z) : M unit := λ w,
  match procs (os w) !! pid with
  | Some p =>
      match p_status p with
      | Running =>
          (Ok tt, set_os (set_procs (<[pid := Proc (p_argv p) (p_stdin p) (p_stdout p)
                                              (p_stderr p) (p_setsid p) (p_env p) Terminating]>)) w)
      | _ => (Ok tt, w)
      end
  | None => (Ok tt, w)
  end.

Definition os_close (fd : Z) : M unit := λ w,
  match fds (os w) !! fd with
  | Some _ => (Ok tt, set_os (set_fds (delete fd)) w)
  | None => (Raise (OSError EBADF), w)
  end.

Definition pty_push_in (bs : pybytes) (p : pty_state) : pty_state :=
  PtyState (pty_winsize p) (pty_out p) (pty_in p ++ bs) (pty_hup p).

Definition pty_push_out (bs : pybytes) (p : pty_state) : pty_state :=
  PtyState (pty_winsize p) (pty_out p ++ bs) (pty_in p) (pty_hup p).

Definition pty_set_out (bs : pybytes) (p : pty_state) : pty_state :=
  PtyState (pty_winsize p) bs (pty_in p) (pty_hup p).

Definition pty_set_in (bs : pybytes) (p : pty_state) : pty_state :=
  PtyState (pty_winsize p) (pty_out p) bs (pty_hup p).

Definition pty_set_winsize (ws : winsize) (p : pty_state) : pty_state :=
  PtyState ws (pty_out p) (pty_in p) (pty_hup p).

Definition pty_set_hup (p : pty_state) : pty_state :=
  PtyState (pty_winsize p) (pty_out p) (pty_in p) true.

(** [os.write(fd, bs)]. A write to the control side is accepted also
    when the subordinate side has hung up. The echo of the line
    discipline is not produced here: like the output of the shell it
    arrives by a step of its own ([ShellOutput] below). *)
Definition os_write (fd : Z) (bs : pybytes) : M unit := λ w,
  match fds (os w) !! fd with
  | None => (Raise (OSError EBADF), w)
  | Some FdOther => (Ok tt, w)
  | Some (FdPty k s) =>
      match ptys (os w) !! k with
      | None => (Raise (OSError EIO), w)
      | Some p =>
          match s with
          | Master => (Ok tt, set_os (set_ptys (<[k := pty_push_in bs p]>)) w)
          | Slave => (Ok tt, set_os (set_ptys (<[k := pty_push_out bs p]>)) w)
          end
      end
  end.

(** [fcntl.ioctl(fd, termios.TIOCSWINSZ, arg)]. *)
Definition fcntl_ioctl_TIOCSWINSZ (fd : Z) (arg : pybytes) : M unit := λ w,
  match fds (os w) !! fd with
  | None => (Raise (OSError EBADF), w)
  | Some FdOther => (Raise (OSError ENOTTY), w)
  | Some (FdPty k _) =>
      match ptys (os w) !! k, winsize_of_bytes arg with
      | Some p, Some ws => (Ok tt, set_os (set_ptys (<[k := pty_set_winsize ws p]>)) w)
      | _, _ => (Raise (OSError EIO), w)
      end
  end.

(** What a TIOCGWINSZ query on [fd] reports. *)
Definition tty_winsize (o : os_state) (fd : Z) : option winsize :=
  match fds o !! fd with
  | Some (FdPty k _) => pty_winsize <$> ptys o !! k
  | _ => None
  end.

Definition readable (o : os_state) (d : fdesc) : bool :=
  match d with
  | FdPty k Master =>
      match ptys o !! k with
      | Some p => negb (bool_decide (pty_out p = [])) || pty_hup p
      | None => false
      end
  | FdPty k Slave =>
      match ptys o !! k with
      | Some p => negb (bool_decide (pty_in p = []))
      | None => false
      end
  | FdOther => false
  end.

(** The descriptors [select] can be asked about are those below this. *)
Definition FD_SETSIZE : Z := 1024.

(** [select.select([fd], [], [], timeout)], the timeout in milliseconds:
    whether [fd] came back readable. The whole timeout passes when it
    did not. A descriptor number out of the range of [select] is refused
    with [ValueError] before the system is asked. *)
Definition select_select (fd : Z) (timeout_ms : Z) : M bool := λ w,
  if bool_decide (0 ≤ fd < FD_SETSIZE) then
    match fds (os w) !! fd with
    | None => (Raise (OSError EBADF), w)
    | Some d =>
        if readable (os w) d then (Ok true, w)
        else (Ok false, set_clock (λ t, t + timeout_ms) w)
    end
  else (Raise ValueError, w).

(** [os.read(fd, n)]. *)
Definition os_read (fd : Z) (n : nat) : M pybytes := λ w,
  match fds (os w) !! fd with
  | None => (Raise (OSError EBADF), w)
  | Some FdOther => (Blocked, w)
  | Some (FdPty k s) =>
      match ptys (os w) !! k with
      | None => (Raise (OSError EIO), w)
      | Some p =>
          match s with
          | Master =>
              match pty_out p with
              | [] => if pty_hup p then (Raise (OSError EIO), w) else (Blocked, w)
              | _ => (Ok (take n (pty_out p)),
                      set_os (set_ptys (<[k := pty_set_out (drop n (pty_out p)) p]>)) w)
              end
          | Slave =>
              match pty_in p with
              | [] => (Blocked, w)
              | _ => (Ok (take n (pty_in p)),
                      set_os (set_ptys (<[k := pty_set_in (drop n (pty_in p)) p]>)) w)
              end
          end
      end
  end.

(** ** Flask-SocketIO calls *)

(** A [terminal_output] event for the client of session [sid]: [emit]
    inside a handler of that client, [socketio.emit(..., room=sid)]
    elsewhere. *)
Definition emit_terminal_output (sid : string) (data : pystr) : M unit :=
  modify (set_emitted (λ l, l ++ [(sid, data)])).

(** [socketio.start_background_task(target=read_terminal_output,
    session_id=sid)]. *)
Definition start_background_task (sid : string) : M unit :=
  modify (set_tasks (λ l, l ++ [(sid, RelayNew)])).

(** ** Python dictionary and string operations *)

Definition py_in (k : string) (d : gmap string pyval) : bool :=
  bool_decide (is_Some (d !! k)).

Definition py_getitem (d : gmap string pyval) (k : string) : M pyval :=
  match d !! k with
  | Some v => ret v
  | None => raise (KeyError k)
  end.

(** [s.startswith(prefix)]. *)
Fixpoint py_startswith (s prefix : pystr) {struct prefix} : bool :=
  match prefix with
  | [] => true
  | p :: ps =>
      match s with
      | c :: cs => bool_decide (c = p) && py_startswith cs ps
      | [] => false
      end
  end.

(** [s.find(sub)]: the lowest index at which [sub] occurs in [s], or -1. *)
Fixpoint py_find_from (s sub : pystr) (i : Z) {struct s} : Z :=
  if py_startswith s sub then i
  else match s with
       | [] => -1
       | _ :: r => py_find_from r sub (i + 1)
       end.

Definition py_find (s sub : pystr) : Z := py_find_from s sub 0.

(** [sub in s]. *)
Definition py_contains (sub s : pystr) : bool := negb (bool_decide (py_find s sub = -1)).

(** [k in data] for a string [k]. *)
Definition payload_in (k : string) (data : payload) : M bool :=
  match data with
  | PDict d => ret (py_in k d)
  | PText s => ret (py_contains (pystr_of_string k) s)
  | PList l => ret (bool_decide (PyStr (pystr_of_string k) ∈ l))
  | PScalar => raise TypeError
  end.

(** [data[k]] for a string [k]. *)
Definition payload_getitem (data : payload) (k : string) : M pyval :=
  match data with
  | PDict d => py_getitem d k
  | _ => raise TypeError
  end.

Definition py_encode (v : pyval) : M pybytes :=
  match v with
  | PyStr s =>
      match utf8_encode s with
      | Some bs => ret bs
      | None => raise UnicodeEncodeError
      end
  | _ => raise AttributeError
  end.

(** [f'Connected to {CONFIG["controller_serial"]}\r\n']. *)
Definition connected_notice (serial : option pystr) : pystr :=
  pystr_of_string "Connected to "
  ++ match serial with Some s => s | None => pystr_of_string "None" end
  ++ [13; 10].

(** ** The handlers of server.py

    [sid] is [request.sid], the connection identifier the transport gives
    the handler; [data] is the event's payload. *)

Definition handle_terminal_resize (sid : string) (data : payload) : M unit :=
  let* w := get_world in
  match terminals w !! sid with
  | None => ret tt
  | Some t =>
      let master := master_fd t in
      let* rows := payload_getitem data "rows" in
      let* cols := payload_getitem data "cols" in
      let* winsize := struct_pack_HHHH rows cols (PyInt 0) (PyInt 0) in
      fcntl_ioctl_TIOCSWINSZ master winsize
  end.

(** [if 'cols' in data and 'rows' in data: handle_terminal_resize({...})],
    the second test made only when the first holds. *)
Definition apply_initial_size (sid : string) (data : payload) : M unit :=
  let* has_cols := payload_in "cols" data in
  let* both := (if has_cols : bool then payload_in "rows" data else ret false) in
  if both : bool then
    let* cols := payload_getitem data "cols" in
    let* rows := payload_getitem data "rows" in
    handle_terminal_resize sid
      (PDict (<["cols"%string := cols]> (<["rows"%string := rows]> ∅)))
  else ret tt.

Definition handle_terminal_connect (sid : string) (data : payload) : M unit :=
  let* w := get_world in
  match terminals w !! sid with
  | Some _ => ret tt
  | None =>
      let* '(master, slave) := pty_openpty in
      let* p := subprocess_Popen ["/bin/bash"%string] slave slave slave true in
      modify (set_terminals (<[sid := Terminal master slave p]>)) ;;
      apply_initial_size sid data ;;
      start_background_task sid ;;
      let* w' := get_world in
      emit_terminal_output sid (connected_notice (controller_serial w'))
  end.

Definition handle_terminal_input (sid : string) (data : payload) : M unit :=
  let* w := get_world in
  match terminals w !! sid with
  | None => ret tt
  | Some t =>
      let master := master_fd t in
      let* d := payload_getitem data "data" in
      let* bs := py_encode d in
      os_write master bs
  end.

Definition handle_disconnect (sid : string) : M unit :=
  let* w := get_world in
  match terminals w !! sid with
  | Some term =>
      Popen_terminate (process term) ;;
      os_close (master_fd term) ;;
      os_close (slave_fd term) ;;
      modify (set_terminals (delete sid))
  | None => ret tt
  end.

(** The prefix of [handle_terminal_connect] that creates the session: the
    PTY pair, the shell, the dictionary entry. *)
Definition open_session (sid : string) : M unit :=
  let* '(master, slave) := pty_openpty in
  let* p := subprocess_Popen ["/bin/bash"%string] slave slave slave true in
  modify (set_terminals (<[sid := Terminal master slave p]>)).

(** What [handle_terminal_connect] does after it has stored the entry. *)
Definition after_open (sid : string) (data : payload) : M unit :=
  apply_initial_size sid data ;;
  start_background_task sid ;;
  let* w' := get_world in
  emit_terminal_output sid (connected_notice (controller_serial w')).

(** The failures of session creation: the [OSError] (or a subclass of it)
    that [pty.openpty] or [subprocess.Popen] raises. *)
Definition SessionStartFailure (e : exn) : Prop := ∃ c, e = OSError c.

(** The poll timeout of the relay, [0.1] seconds. *)
Definition SELECT_TIMEOUT_MS : Z := 100.

(** The size argument of the relay's [os.read]. *)
Definition READ_SIZE : nat := 1024.

(** The body of the [try] block of [read_terminal_output]. *)
Definition relay_body (sid : string) (master : Z) : M unit :=
  let* ready := select_select master SELECT_TIMEOUT_MS in
  if ready : bool then
    let* raw := os_read master READ_SIZE in
    emit_terminal_output sid (utf8_decode_replace raw)
  else ret tt.

(** One turn of [while session_id in terminals: try: ... except: break]
    when nothing else runs during the turn; [true] when the loop goes round
    again. *)
Definition relay_iteration (sid : string) (master : Z) : M bool := λ w,
  match terminals w !! sid with
  | None => (Ok false, w)
  | Some _ => try_except (relay_body sid master ;; ret true) (ret false) w
  end.

Inductive task_result := Returned | StillLooping.

Fixpoint relay_loop (fuel : nat) (sid : string) (master : Z) : M task_result :=
  match fuel with
  | O => ret StillLooping
  | S n =>
      let* again := relay_iteration sid master in
      if again : bool then relay_loop n sid master else ret Returned
  end.

(** [read_terminal_output(session_id)] run with nothing else running
    beside it, for at most [fuel] turns of its loop. *)
Definition read_terminal_output (fuel : nat) (sid : string) : M task_result :=
  let* w := get_world in
  match terminals w !! sid with
  | None => ret Returned
  | Some t => relay_loop fuel sid (master_fd t)
  end.


(** ** The server as a transition system

    Events of clients, the steps of the background tasks, and what the
    shells do to their PTYs interleave. A handler runs from its first line
    to its last without a step of anything else in between; a background
    task can be overtaken between any two of its calls: the code holds no
    lock. An exception raised by a handler stops that handler only. *)

(** [ShellOutput k bs]: the bytes [bs] arrive in the output queue of PTY
    [k], written by the shell or echoed by the line discipline.
    [PtyHangup k]: the last holder of the subordinate side of PTY [k] has
    gone; once the pending output is drained, reads on the control side
    fail. *)
Inductive action :=
  | EvConnect (sid : string) (data : payload)
  | EvInput (sid : string) (data : payload)
  | EvResize (sid : string) (data : payload)
  | EvDisconnect (sid : string)
  | RunRelay (i : nat)
  | ShellOutput (k : nat) (bs : pybytes)
  | ShellExit (pid : Z)
  | PtyHangup (k : nat).

Definition set_pc (i : nat) (sid : string) (pc : relay_pc) : world → world :=
  set_tasks (<[i := (sid, pc)]>).

(** The [i]-th background task takes its next step: the test at the
    entry of [read_terminal_output]; the lookup of the descriptor, whose
    [KeyError] when the entry has gone since the test ends the task; the
    test of the loop; the call of [select]; the call of [os.read] with the
    decoding of what it returned; the [socketio.emit]. An exception in
    [select] or [os.read] is caught by the bare [except] and ends the loop.
    An [os.read] with nothing to read stays where it is. *)
Definition run_relay (i : nat) (w : world) : world :=
  match tasks w !! i with
  | Some (sid, RelayNew) =>
      match terminals w !! sid with
      | None => set_pc i sid RelayDone w
      | Some _ => set_pc i sid RelayEntered w
      end
  | Some (sid, RelayEntered) =>
      match terminals w !! sid with
      | None => set_pc i sid RelayDone w
      | Some t => set_pc i sid (RelayLoop (master_fd t)) w
      end
  | Some (sid, RelayLoop master) =>
      match terminals w !! sid with
      | None => set_pc i sid RelayDone w
      | Some _ => set_pc i sid (RelaySelect master) w
      end
  | Some (sid, RelaySelect master) =>
      match select_select master SELECT_TIMEOUT_MS w with
      | (Ok true, w') => set_pc i sid (RelayRead master) w'
      | (Ok false, w') => set_pc i sid (RelayLoop master) w'
      | (Raise _, w') => set_pc i sid RelayDone w'
      | (Blocked, w') => w'
      end
  | Some (sid, RelayRead master) =>
      match os_read master READ_SIZE w with
      | (Ok raw, w') => set_pc i sid (RelayEmit master (utf8_decode_replace raw)) w'
      | (Raise _, w') => set_pc i sid RelayDone w'
      | (Blocked, w') => w'
      end
  | Some (sid, RelayEmit master output) =>
      set_pc i sid (RelayLoop master) (set_emitted (λ l, l ++ [(sid, output)]) w)
  | _ => w
  end.

(** Whether the subordinate side of PTY [k] is held open: by a descriptor
    of the server, or by a child that has it as a standard stream and has
    not exited. *)
Definition slave_held (o : os_state) (k : nat) : bool :=
  existsb (λ x, bool_decide (x.2 = FdPty k Slave)) (map_to_list (fds o))
  || existsb (λ x, negb (bool_decide (p_status x.2 = Exited))
                   && (bool_decide (p_stdin x.2 = FdPty k Slave)
                       || bool_decide (p_stdout x.2 = FdPty k Slave)
                       || bool_decide (p_stderr x.2 = FdPty k Slave)))
       (map_to_list (procs o)).

Definition proc_exit (p : proc) : proc :=
  Proc (p_argv p) (p_stdin p) (p_stdout p) (p_stderr p) (p_setsid p) (p_env p) Exited.

Definition step (a : action) (w : world) : world :=
  match a with
  | EvConnect sid data => (handle_terminal_connect sid data w).2
  | EvInput sid data => (handle_terminal_input sid data w).2
  | EvResize sid data => (handle_terminal_resize sid data w).2
  | EvDisconnect sid => (handle_disconnect sid w).2
  | RunRelay i => run_relay i w
  | ShellOutput k bs => set_os (set_ptys (alter (pty_push_out bs) k)) w
  | ShellExit pid => set_os (set_procs (alter proc_exit pid)) w
  | PtyHangup k =>
      if slave_held (os w) k then w else set_os (set_ptys (alter pty_set_hup k)) w
  end.

Definition run (l : list action) (w : world) : world := foldl (λ w a, step a w) w l.

(** The server right after start: nothing registered, the three standard
    descriptors open. *)
Definition initial_world (env : gmap string string) (limit : Z) (exec : bool)
    (serial : option pystr) : world :=
  World ∅
    (OsState (<[0 := FdOther]> (<[1 := FdOther]> (<[2 := FdOther]> ∅))) ∅ ∅ env limit exec 0%nat 100)
    [] [] serial 0.

Inductive reachable : world → Prop :=
  | reachable_init env limit exec serial :
      reachable (initial_world env limit exec serial)
  | reachable_step a w :
      reachable w → reachable (step a w).

(** ** The terminal handlers patched into server.js

    [terminal_handlers] of SetupNexus.py: per socket a variable
    [ptyProcess]; [terminal-init] spawns a PTY process with node-pty and
    registers its [onData] and [onExit] callbacks; [disconnect] kills it. *)

Module NodeBridge.

Inductive jsval :=
  | JNum (n : Z)
  | JStr (s : string)
  | JUndefined.

Definition truthy (v : jsval) : bool :=
  match v with
  | JNum n => negb (bool_decide (n = 0))
  | JStr s => negb (bool_decide (s = ""%string))
  | JUndefined => false
  end.

(** [a || b]. *)
Definition js_or (a b : jsval) : jsval := if truthy a then a else b.

Definition js_env_get (env : gmap string string) (k : string) : jsval :=
  match env !! k with
  | Some s => JStr s
  | None => JUndefined
  end.

(** The arguments [pty.spawn] is called with. *)
Record spawn_call := SpawnCall {
  sp_file : jsval;
  sp_args : list string;
  sp_name : string;
  sp_cols : jsval;
  sp_rows : jsval;
  sp_cwd : jsval;
  sp_env : gmap string string
}.

Record init_data := InitData { d_cols : jsval; d_rows : jsval }.

Definition PS1 : string :=
  "\[\033[01;32m\]\u@\h\[\033[00m\]:\[\033[01;34m\]\w\[\033[00m\]\$ ".

Definition spawn_args (process_env : gmap string string) (data : init_data) : spawn_call :=
  SpawnCall (js_or (js_env_get process_env "SHELL") (JStr "bash"))
    ["--norc"; "-i"]%string
    "xterm-256color"
    (js_or (d_cols data) (JNum 80))
    (js_or (d_rows data) (JNum 24))
    (js_env_get process_env "HOME")
    (<["PS1"%string := PS1]> (<["TERM"%string := "xterm-256color"%string]> process_env)).

(** A spawned PTY process: how it was spawned, whether it has exited. *)
Record pty_process := PtyProcess {
  pp_call : spawn_call;
  pp_exited : bool;
  pp_killed : bool
}.

(** One socket: the PTY processes spawned for it, the closure variable
    [ptyProcess] (an index into them), the [terminal-output] events sent. *)
Record socket := Socket {
  spawned : list pty_process;
  ptyProcess : option nat;
  sent : list pystr
}.

Definition connection : socket := Socket [] None [].

Definition PROCESS_COMPLETED : pystr :=
  [13; 10] ++ pystr_of_string "[Process completed]" ++ [13; 10].

Definition on_terminal_init (process_env : gmap string string) (data : init_data)
    (s : socket) : socket :=
  Socket (spawned s ++ [PtyProcess (spawn_args process_env data) false false])
    (Some (length (spawned s))) (sent s).

(** The [onData] callback of the [i]-th PTY process. *)
Definition on_data (i : nat) (data : pystr) (s : socket) : socket :=
  match spawned s !! i with
  | Some _ => Socket (spawned s) (ptyProcess s) (sent s ++ [data])
  | None => s
  end.

(** The [i]-th PTY process exits: its [onExit] callback runs, once. *)
Definition on_exit (i : nat) (s : socket) : socket :=
  match spawned s !! i with
  | Some p =>
      if pp_exited p then s
      else Socket (<[i := PtyProcess (pp_call p) true (pp_killed p)]> (spawned s))
             (ptyProcess s) (sent s ++ [PROCESS_COMPLETED])
  | None => s
  end.

Definition on_disconnect (s : socket) : socket :=
  match ptyProcess s with
  | Some i =>
      Socket (alter (λ p, PtyProcess (pp_call p) (pp_exited p) true) i (spawned s))
        None (sent s)
  | None => s
  end.

End NodeBridge.

(** ** The invariant of the registry

    Every entry of [terminals] names the two open descriptors of one PTY
    pair, control side and subordinate side, and a process the system knows;
    different entries name different descriptors. *)

Definition session_ok (o : os_state) (t : terminal) : Prop :=
  ∃ k, fds o !! master_fd t = Some (FdPty k Master)
       ∧ fds o !! slave_fd t = Some (FdPty k Slave)
       ∧ is_Some (ptys o !! k)
       ∧ is_Some (procs o !! process t).

Definition fds_apart (t1 t2 : terminal) : Prop :=
  master_fd t1 ≠ master_fd t2 ∧ master_fd t1 ≠ slave_fd t2
  ∧ slave_fd t1 ≠ master_fd t2 ∧ slave_fd t1 ≠ slave_fd t2.

Record wf (w : world) : Prop := Wf {
  wf_sessions : ∀ sid t, terminals w !! sid = Some t → session_ok (os w) t;
  wf_apart : ∀ sid1 sid2 t1 t2,
      sid1 ≠ sid2 → terminals w !! sid1 = Some t1 → terminals w !! sid2 = Some t2 →
      fds_apart t1 t2
}.

(** The system state only gained: what was open is open, the PTYs and
    processes that existed exist. *)
Record os_le (o o' : os_state) : Prop := OsLe {
  le_fds : ∀ fd d, fds o !! fd = Some d → fds o' !! fd = Some d;
  le_ptys : ∀ k, is_Some (ptys o !! k) → is_Some (ptys o' !! k);
  le_procs : ∀ pid, is_Some (procs o !! pid) → is_Some (procs o' !! pid)
}.

(** A computation that leaves [terminals] alone and closes nothing. *)
Definition preserves {A} (c : M A) : Prop :=
  ∀ w, terminals (c w).2 = terminals w ∧ os_le (os w) (os (c w).2).

(** Two worlds with the same dictionary, descriptor table, processes,
    tasks and sent events. *)
Definition same_registry (w w1 : world) : Prop :=
  terminals w1 = terminals w ∧ fds (os w1) = fds (os w) ∧ procs (os w1) = procs (os w)
  ∧ tasks w1 = tasks w ∧ emitted w1 = emitted w.

(** ** Sample worlds

    A server with room for 1024 descriptors whose environment has no
    [TERM]; client [A] has sent [terminal_connect] with an 80x24 size. *)

Definition size_80x24 : gmap string pyval :=
  <["cols"%string := PyInt 80]> (<["rows"%string := PyInt 24]> ∅).

Definition booted : world :=
  initial_world ∅ 1024 true (Some (pystr_of_string "NX-0001")).

Definition one_session : world := step (EvConnect "A" (PDict size_80x24)) booted.

(** The same once the relay of [A] is in its loop and the shell has exited
    (the user has typed [exit]). *)
Definition one_session_exited : world :=
  run [RunRelay 0%nat; RunRelay 0%nat; ShellExit 100] one_session.

(** A resize payload with a row count that does not fit 16 bits. *)
Definition size_80x70000 : gmap string pyval :=
  <["cols"%string := PyInt 80]> (<["rows"%string := PyInt 70000]> ∅).

(** An init payload with a column count only. *)
Definition cols_only : gmap string pyval := <["cols"%string := PyInt 80]> ∅.

(** The freshly started server after session creation for [A]. *)
Definition opened : world := (open_session "A" booted).2.


(** A server on which [/bin/bash] cannot be started, and one with no free
    descriptor. *)
Definition no_shell : world := initial_world ∅ 1024 false None.

Definition no_descriptors : world := initial_world ∅ 3 true None.

(** ** Frames of the handlers

    What the PTY behind a descriptor looks like, and the two ways in which
    the handlers are local: they leave everything but PTY states alone, and
    they touch the PTY of one descriptor only. *)

(** The state of the PTY behind descriptor [fd]. *)
Definition pty_of (o : os_state) (fd : Z) : option pty_state :=
  match fds o !! fd with
  | Some (FdPty k _) => ptys o !! k
  | _ => None
  end.

(** From [w] to [w1] nothing was registered, opened, closed or spawned,
    and no PTY changed but the one behind [fd]. *)
Record local_step (fd : Z) (w w1 : world) : Prop := LocalStep {
  ls_terminals : terminals w1 = terminals w;
  ls_fds : fds (os w1) = fds (os w);
  ls_procs : procs (os w1) = procs (os w);
  ls_next_pty : next_pty (os w1) = next_pty (os w);
  ls_next_pid : next_pid (os w1) = next_pid (os w);
  ls_serial : controller_serial w1 = controller_serial w;
  ls_ptys : ∀ k, (∀ s, fds (os w) !! fd ≠ Some (FdPty k s)) →
                 ptys (os w1) !! k = ptys (os w) !! k
}.

Definition local {A} (fd : Z) (c : M A) : Prop := ∀ w, local_step fd w (c w).2.

(** A computation that sends no event and starts no task. *)
Definition silent {A} (c : M A) : Prop :=
  ∀ w, emitted (c w).2 = emitted w ∧ tasks (c w).2 = tasks w.


(** An open descriptor that no entry of [terminals] names. *)
Definition orphan (w : world) (fd : Z) : Prop :=
  is_Some (fds (os w) !! fd)
  ∧ ∀ sid t, terminals w !! sid = Some t → master_fd t ≠ fd ∧ slave_fd t ≠ fd.

(** The payload of an input event that carries the text [s]. *)
Definition input_payload (s : pystr) : gmap string pyval :=
  <["data"%string := PyStr s]> ∅.

(** The payload of a resize event. *)
Definition resize_payload (rows cols : Z) : gmap string pyval :=
  <["cols"%string := PyInt cols]> (<["rows"%string := PyInt rows]> ∅).

(** ** More sample inputs *)

(** Two texts typed into session [A] and their UTF-8 encodings: [ls] and
    an e with acute accent followed by a line feed. *)
Definition typed_texts : list pystr := [[108; 115]; [233; 10]].

Definition typed_bytes : list pybytes := [[x6c; x73]; [xc3; xa9; x0a]].

(** The control-side state of the PTY of [A] in [one_session]. *)
Definition pty_80x24 : pty_state := PtyState (Winsize 24 80 0 0) [] [] false.



(** From [w] to [w1] what existed was kept: open descriptors, the PTYs
    and the processes numbered so far. *)
Record kept (w w1 : world) : Prop := Kept {
  kept_fds : ∀ fd d, fds (os w) !! fd = Some d → fds (os w1) !! fd = Some d;
  kept_ptys : ∀ k, (k < next_pty (os w))%nat → ptys (os w1) !! k = ptys (os w) !! k;
  kept_procs : ∀ pid, pid < next_pid (os w) → procs (os w1) !! pid = procs (os w) !! pid;
  kept_next_pty : (next_pty (os w) ≤ next_pty (os w1))%nat;
  kept_next_pid : next_pid (os w) ≤ next_pid (os w1)
}.

(** A computation that only closes and removes: it may delete entries and
    close descriptors, and gives out no PTY or process number. *)
Definition closing {A} (c : M A) : Prop :=
  ∀ w, terminals (c w).2 ⊆ terminals w
       ∧ fds (os (c w).2) ⊆ fds (os w)
       ∧ ptys (os (c w).2) = ptys (os w)
       ∧ next_pty (os (c w).2) = next_pty (os w)
       ∧ next_pid (os (c w).2) = next_pid (os w).


(** ** Two schedules of the relay

    The relay of [A] has read the two bytes its shell wrote and holds
    them decoded; [A] disconnects before the relay gets to emit them. *)
Definition disconnect_before_emit : world :=
  run [EvConnect "A" (PDict size_80x24); RunRelay 0%nat; RunRelay 0%nat;
       ShellOutput 0%nat [x68; x69];
       RunRelay 0%nat; RunRelay 0%nat; RunRelay 0%nat; EvDisconnect "A"] booted.

(** The relay of [A] is past the test of its loop when [A] disconnects;
    [B] connects, its PTY pair gets the descriptor numbers [A] had, and
    the shell of [B] writes two bytes. *)
Definition descriptor_reused : world :=
  run [EvConnect "A" (PDict size_80x24); RunRelay 0%nat; RunRelay 0%nat; RunRelay 0%nat;
       EvDisconnect "A"; EvConnect "B" (PDict size_80x24);
       ShellOutput 1%nat [x68; x69]] booted.

(** The relay of [A] is past the test of its loop when [A] disconnects:
    its next call is a [select] on a descriptor that has been closed. *)
Definition disconnect_before_select : world :=
  run [EvConnect "A" (PDict size_80x24); RunRelay 0%nat; RunRelay 0%nat; RunRelay 0%nat;
       EvDisconnect "A"] booted.

(** ** Hang-up

    The control side of a PTY hangs up when the last holder of its
    subordinate side has gone. The server keeps the subordinate side of
    every session open until the disconnect event. *)

(** A PTY whose subordinate side is open on a descriptor of the server has
    not hung up. *)
Definition hup_ok (o : os_state) : Prop :=
  ∀ fd k p, fds o !! fd = Some (FdPty k Slave) → ptys o !! k = Some p → pty_hup p = false.

(** From [o] to [o1] no PTY hung up, and a subordinate side that was
    opened is that of a PTY that has not hung up. *)
Record hup_le (o o1 : os_state) : Prop := HupLe {
  hl_hup : ∀ k p1, ptys o1 !! k = Some p1 → pty_hup p1 = true →
                   ∃ p, ptys o !! k = Some p ∧ pty_hup p = true;
  hl_fds : ∀ fd k, fds o1 !! fd = Some (FdPty k Slave) →
                   fds o !! fd = Some (FdPty k Slave)
                   ∨ ∀ p1, ptys o1 !! k = Some p1 → pty_hup p1 = false
}.

Definition no_hangup {A} (c : M A) : Prop := ∀ w, hup_le (os w) (os (c w).2).


(** ** Configuration: [load_config] of server.py *)

Definition set_controller_serial (f : option pystr → option pystr) (w : world) : world :=
  World (terminals w) (os w) (emitted w) (tasks w) (f (controller_serial w)) (clock_ms w).

(** [s.split(sep)] for a separator of one character. *)
Fixpoint py_split (sep : Z) (s : pystr) : list pystr :=
  match s with
  | [] => [[]]
  | c :: r =>
      if bool_decide (c = sep) then [] :: py_split sep r
      else match py_split sep r with
           | p :: ps => (c :: p) :: ps
           | [] => [[c]]
           end
  end.

(** The characters [str.strip()] removes: those [str.isspace] accepts. *)
Definition py_isspace (c : Z) : bool :=
  bool_decide (0x09 ≤ c ≤ 0x0D ∨ 0x1C ≤ c ≤ 0x20 ∨ c = 0x85 ∨ c = 0xA0 ∨ c = 0x1680
               ∨ 0x2000 ≤ c ≤ 0x200A ∨ c = 0x2028 ∨ c = 0x2029 ∨ c = 0x202F
               ∨ c = 0x205F ∨ c = 0x3000).

Fixpoint py_lstrip (s : pystr) : pystr :=
  match s with
  | [] => []
  | c :: r => if py_isspace c then py_lstrip r else s
  end.

Definition py_rstrip (s : pystr) : pystr := reverse (py_lstrip (reverse s)).

(** [s.strip()]. *)
Definition py_strip (s : pystr) : pystr := py_rstrip (py_lstrip s).

Definition EQUALS : Z := 61.

Definition CONTROLLER_SERIAL_KEY : pystr := pystr_of_string "CONTROLLER_SERIAL=".

(** The body of [for line in f]; [None] is the [IndexError] of
    [line.split('=')[1]]. *)
Definition load_config_line (line : pystr) (w : world) : option world :=
  if py_startswith line CONTROLLER_SERIAL_KEY then
    match py_split EQUALS line !! 1%nat with
    | Some v => Some (set_controller_serial (λ _, Some (py_strip v)) w)
    | None => None
    end
  else Some w.

Fixpoint load_config_lines (lines : list pystr) (w : world) : option world :=
  match lines with
  | [] => Some w
  | line :: rest =>
      match load_config_line line w with
      | Some w1 => load_config_lines rest w1
      | None => None
      end
  end.

(** [load_config()]. [config_file] is what is found at
    [/home/Automata/tunnel-config.txt]: nothing, or a readable text file
    given as the lines that iterating over it yields, each with its line
    end; [nodename] is [os.uname().nodename]. *)
Definition load_config (config_file : option (list pystr)) (nodename : pystr)
    (w : world) : option world :=
  match config_file with
  | Some lines => load_config_lines lines w
  | None =>
      Some (set_controller_serial (λ _, Some (pystr_of_string "Controller-" ++ nodename)) w)
  end.

(** A server started without a serial number in its configuration. *)
Definition unconfigured : world := initial_world ∅ 1024 true None.

(** A line of a text file: its text and the line feed. *)
Definition text_line (s : string) : pystr := pystr_of_string s ++ [10].

(** A configuration file with two serial lines, the second with blanks
    around the value and a second equals sign. *)
Definition sample_config : list pystr :=
  text_line <$> ["# tunnel"; "CONTROLLER_SERIAL=old"; "CONTROLLER_SERIAL= nx-42 =x";
                 "PORT=8000"]%string.

(** A configuration file without a serial line. *)
Definition config_without_serial : list pystr :=
  text_line <$> ["# tunnel"; "PORT=8000"]%string.

(** ** The installer's patch of server.js (SetupNexus.py, step 5) *)

(** The text the installer inserts. *)
Definition terminal_handlers : pystr := pystr_of_string "
// Terminal Socket.IO handlers
io.on('connection', (socket) => {
  logger.info('Terminal client connected');
  let ptyProcess = null;

  socket.on('terminal-init', (data) => {
    logger.info('Initializing terminal', data);
    
    // Spawn a new PTY process with clean environment
    ptyProcess = pty.spawn(process.env.SHELL || 'bash', ['--norc', '-i'], {
      name: 'xterm-256color',
      cols: data.cols || 80,
      rows: data.rows || 24,
      cwd: process.env.HOME,
      env: {
        ...process.env,
        TERM: 'xterm-256color',
        PS1: '\\[\\033[01;32m\\]\\u@\\h\\[\\033[00m\\]:\\[\\033[01;34m\\]\\w\\[\\033[00m\\]\\$ '
      }
    });

    // Send PTY output to client
    ptyProcess.onData((data) => {
      socket.emit('terminal-output', data);
    });

    // Handle PTY exit
    ptyProcess.onExit(() => {
      logger.info('Terminal process exited');
      socket.emit('terminal-output', '\r\n[Process completed]\r\n');
    });
  });

  socket.on('terminal-input', (data) => {
    if (ptyProcess) {
      ptyProcess.write(data);
    }
  });

  socket.on('terminal-resize', (data) => {
    if (ptyProcess) {
      ptyProcess.resize(data.cols, data.rows);
    }
  });

  socket.on('disconnect', () => {
    logger.info('Terminal client disconnected');
    if (ptyProcess) {
      ptyProcess.kill();
      ptyProcess = null;
    }
  });
});

".

Definition TERMINAL_INIT : pystr := pystr_of_string "terminal-init".

Definition START_SERVER : pystr := pystr_of_string "// Start server".

Definition SERVER_LISTEN : pystr := pystr_of_string "server.listen(".

(** The line the installer prints at the end of the step. *)
Inductive patch_report :=
  | HandlersAdded
  | NoInsertionPoint
  | AlreadyPresent
  | ServerJsNotFound.

(** What [f.read()] returns for a file opened with [open(path, 'r')]:
    the text of the file with every line end, [CR LF], [CR] or [LF],
    turned into [LF]. *)
Fixpoint universal_newlines (s : pystr) : pystr :=
  match s with
  | [] => []
  | c :: r =>
      if bool_decide (c = 13) then
        match r with
        | d :: r' => if bool_decide (d = 10) then 10 :: universal_newlines r'
                     else 10 :: universal_newlines r
        | [] => [10]
        end
      else c :: universal_newlines r
  end.

(** Step 5 of [run_installation]: [server_js] is the text stored in
    [server.js] when the file exists; the result is the text stored in
    the file afterwards and the line printed. The file is read in text
    mode, and written, in text mode again, only when the handlers are
    added; on the controller, a Linux system, writing leaves [LF] as it
    is. *)
Definition patch_server_js (server_js : option pystr) : option pystr * patch_report :=
  match server_js with
  | Some stored =>
      let server_content := universal_newlines stored in
      if negb (py_contains TERMINAL_INIT server_content) then
        let insert_pos := py_find server_content START_SERVER in
        let insert_pos :=
          if bool_decide (insert_pos = -1) then py_find server_content SERVER_LISTEN
          else insert_pos in
        if bool_decide (insert_pos > 0) then
          (Some (take (Z.to_nat insert_pos) server_content ++ terminal_handlers
                 ++ drop (Z.to_nat insert_pos) server_content),
           HandlersAdded)
        else (Some stored, NoInsertionPoint)
      else (Some stored, AlreadyPresent)
  | None => (None, ServerJsNotFound)
  end.

(** A server.js with both markers, and one that begins with the first. *)
Definition sample_server_js : pystr :=
  pystr_of_string "const app = express();
// Start server
server.listen(PORT);
".

Definition server_js_marker_first : pystr :=
  START_SERVER ++ pystr_of_string "
server.listen(PORT);
".


(** * Properties *)

(** ** Monad laws used below *)

Lemma bind_assoc {A B C} (c : M A) (f : A → M B) (g : B → M C) (w : world) :
  bind (bind c f) g w = bind c (λ a, bind (f a) g) w.
Proof.
  unfold bind. destruct (c w) as [[a | e |] w1]; [| done | done].
  by destruct (f a w1) as [[b | e |] w2].
Qed.

Lemma bind_ok {A B} (c : M A) (k : A → M B) (w w1 : world) (a : A) :
  c w = (Ok a, w1) → bind c k w = k a w1.
Proof. intros H. unfold bind. by rewrite H. Qed.

Lemma bind_raise {A B} (c : M A) (k : A → M B) (w w1 : world) (e : exn) :
  c w = (Raise e, w1) → bind c k w = (Raise e, w1).
Proof. intros H. unfold bind. by rewrite H. Qed.

(** [handle_terminal_connect] for an identifier that is not registered is
    [open_session] followed by [after_open]. *)
Lemma handle_terminal_connect_fresh sid data w :
  terminals w !! sid = None →
  handle_terminal_connect sid data w = bind (open_session sid) (λ _, after_open sid data) w.
Proof.
  intros Hnone. unfold handle_terminal_connect, open_session.
  rewrite (bind_ok get_world _ w w w) by done. rewrite Hnone.
  unfold bind.
  destruct (pty_openpty w) as [[[m s] | e |] w1]; [| done | done].
  by destruct (subprocess_Popen _ s s s true w1) as [[p | e |] w2].
Qed.

(** ** Duplicate init *)

(** C1. An init event for a connection identifier that already has an
    entry in [terminals] returns without raising and leaves the whole
    world as it was: the registry still maps the identifier to the same
    session, no PTY pair is allocated, no process is spawned, no task is
    started and nothing is emitted; however many such events arrive. *)
Theorem duplicate_connect_is_noop (w : world) (sid : string) (t : terminal) :
  terminals w !! sid = Some t →
  (∀ data, handle_terminal_connect sid data w = (Ok tt, w))
  ∧ (∀ datas, run (EvConnect sid <$> datas) w = w).
Proof.
  intros Hlive.
  assert (Hone : ∀ data, handle_terminal_connect sid data w = (Ok tt, w)).
  { intros data. unfold handle_terminal_connect.
    rewrite (bind_ok get_world _ w w w) by done. by rewrite Hlive. }
  split; [done |].
  intros datas. induction datas as [| d ds IH]; [done |].
  simpl. unfold run in IH. by rewrite Hone.
Qed.

Lemma duplicate_connect_is_noop_witness :
  (∀ data, handle_terminal_connect "A" data one_session = (Ok tt, one_session))
  ∧ (∀ datas, run (EvConnect "A" <$> datas) one_session = one_session).
Proof.
  apply (duplicate_connect_is_noop one_session "A" (Terminal 3 4 100)).
  vm_compute. reflexivity.
Defined.

(** ** Events for an unknown session *)

(** C5. An input, resize or disconnect event whose connection identifier
    has no entry in [terminals] returns without raising and leaves the
    world as it was; and once a disconnect has returned, a second
    disconnect for the same identifier changes nothing. *)
Theorem unknown_session_is_noop (w : world) (sid : string) :
  terminals w !! sid = None →
  (∀ data, handle_terminal_input sid data w = (Ok tt, w))
  ∧ (∀ data, handle_terminal_resize sid data w = (Ok tt, w))
  ∧ handle_disconnect sid w = (Ok tt, w)
  ∧ (∀ w0 w1, handle_disconnect sid w0 = (Ok tt, w1) → handle_disconnect sid w1 = (Ok tt, w1)).
Proof.
  intros Hnone.
  assert (Hdis : ∀ v, terminals v !! sid = None → handle_disconnect sid v = (Ok tt, v)).
  { intros v Hv. unfold handle_disconnect.
    rewrite (bind_ok get_world _ v v v) by done. by rewrite Hv. }
  split_and!.
  - intros data. unfold handle_terminal_input.
    rewrite (bind_ok get_world _ w w w) by done. by rewrite Hnone.
  - intros data. unfold handle_terminal_resize.
    rewrite (bind_ok get_world _ w w w) by done. by rewrite Hnone.
  - by apply Hdis.
  - intros w0 w1 H01. apply Hdis.
    unfold handle_disconnect in H01.
    rewrite (bind_ok get_world _ w0 w0 w0) in H01 by done.
    destruct (terminals w0 !! sid) as [term |] eqn:Hterm.
    + unfold bind, modify in H01.
      destruct (Popen_terminate (process term) w0) as [[[] | e |] v1]; [| done | done].
      destruct (os_close (master_fd term) v1) as [[[] | e |] v2]; [| done | done].
      destruct (os_close (slave_fd term) v2) as [[[] | e |] v3]; [| done | done].
      injection H01 as <-. simpl. apply lookup_delete_eq.
    + injection H01 as <-. done.
Qed.

Lemma unknown_session_is_noop_witness :
  (∀ data, handle_terminal_input "B" data one_session = (Ok tt, one_session))
  ∧ (∀ data, handle_terminal_resize "B" data one_session = (Ok tt, one_session))
  ∧ handle_disconnect "B" one_session = (Ok tt, one_session)
  ∧ (∀ w0 w1, handle_disconnect "B" w0 = (Ok tt, w1) → handle_disconnect "B" w1 = (Ok tt, w1)).
Proof.
  apply (unknown_session_is_noop one_session "B").
  vm_compute. reflexivity.
Defined.

(** ** Failure of session creation *)

(** C8. When [pty.openpty] or [subprocess.Popen] raises during an init
    event for an unregistered identifier, [handle_terminal_connect] raises
    that same exception to its caller, an [OSError]; [terminals] is as
    before, no background task has been started and nothing has been
    emitted. *)
Theorem connect_failure_leaves_registry (w w1 : world) (sid : string)
    (data : payload) (e : exn) :
  terminals w !! sid = None →
  (let* '(master, slave) := pty_openpty in
   subprocess_Popen ["/bin/bash"%string] slave slave slave true) w = (Raise e, w1) →
  handle_terminal_connect sid data w = (Raise e, w1)
  ∧ SessionStartFailure e
  ∧ terminals w1 = terminals w
  ∧ tasks w1 = tasks w
  ∧ emitted w1 = emitted w.
Proof.
  intros Hnone Hfail. unfold handle_terminal_connect.
  rewrite (bind_ok get_world _ w w w) by done. rewrite Hnone.
  unfold bind in *. unfold pty_openpty in *.
  destruct (lowest_free (fds (os w)) (fd_limit (os w))) as [m |];
    [| injection Hfail as <- <-; split_and!; try done; by eexists].
  destruct (lowest_free _ (fd_limit (os w))) as [s |];
    [| injection Hfail as <- <-; split_and!; try done; by eexists].
  unfold subprocess_Popen in *. cbv zeta in *.
  destruct (two_free _);
    [| injection Hfail as <- <-; split_and!; try done; by eexists].
  simpl in *.
  destruct (_ !! s) as [d |]; simpl in *;
    [| injection Hfail as <- <-; split_and!; try done; by eexists].
  destruct (can_exec (os w)); [done |].
  injection Hfail as <- <-; split_and!; try done; by eexists.
Qed.

Lemma connect_failure_leaves_registry_witness :
  handle_terminal_connect "A" (PDict size_80x24) no_shell
    = (Raise (OSError ENOENT), (pty_openpty no_shell).2)
  ∧ SessionStartFailure (OSError ENOENT)
  ∧ terminals (pty_openpty no_shell).2 = terminals no_shell
  ∧ tasks (pty_openpty no_shell).2 = tasks no_shell
  ∧ emitted (pty_openpty no_shell).2 = emitted no_shell.
Proof.
  apply (connect_failure_leaves_registry no_shell (pty_openpty no_shell).2 "A"
           (PDict size_80x24) (OSError ENOENT)).
  - vm_compute. reflexivity.
  - vm_compute. reflexivity.
Defined.

(** With no descriptor left it is [pty.openpty] that raises, and the world
    is untouched. *)
Lemma connect_without_descriptors :
  handle_terminal_connect "A" (PDict size_80x24) no_descriptors
  = (Raise (OSError EMFILE), no_descriptors).
Proof. by vm_compute. Qed.

(** ** The invariant holds in every reachable world *)

Lemma os_le_refl o : os_le o o.
Proof. by split. Qed.

Lemma os_le_trans o1 o2 o3 : os_le o1 o2 → os_le o2 o3 → os_le o1 o3.
Proof. intros [] []. split; eauto. Qed.

Lemma session_ok_le o o' t : os_le o o' → session_ok o t → session_ok o' t.
Proof.
  intros [Hf Hp Hq] (k & Hm & Hs & Hk & Hpr). exists k. split_and!; eauto.
Qed.

Lemma wf_le w w' :
  wf w → terminals w' = terminals w → os_le (os w) (os w') → wf w'.
Proof.
  intros [Hs Ha] Ht Hle. split.
  - intros sid t. rewrite Ht. intros H. eapply session_ok_le; eauto.
  - intros sid1 sid2 t1 t2. rewrite Ht. eauto.
Qed.

Lemma preserves_wf {A} (c : M A) w : preserves c → wf w → wf (c w).2.
Proof. intros Hc Hw. destruct (Hc w) as [Ht Hle]. by eapply wf_le. Qed.

Lemma preserves_run {A} (c : M A) w r w1 :
  preserves c → c w = (r, w1) → terminals w1 = terminals w ∧ os_le (os w) (os w1).
Proof. intros Hc H. specialize (Hc w). by rewrite H in Hc. Qed.

Lemma preserves_ret {A} (a : A) : preserves (ret a).
Proof. intros w. split; [done | apply os_le_refl]. Qed.

Lemma preserves_raise {A} e : preserves (@raise A e).
Proof. intros w. split; [done | apply os_le_refl]. Qed.

Lemma preserves_bind {A B} (c : M A) (k : A → M B) :
  preserves c → (∀ a, preserves (k a)) → preserves (bind c k).
Proof.
  intros Hc Hk w. unfold bind. specialize (Hc w).
  destruct (c w) as [[a | e |] w1]; [| done | done].
  simpl in Hc. destruct Hc as [Ht Hle]. destruct (Hk a w1) as [Ht' Hle'].
  split; [congruence | by eapply os_le_trans].
Qed.

Lemma preserves_try {A} (c h : M A) :
  preserves c → preserves h → preserves (try_except c h).
Proof.
  intros Hc Hh w. unfold try_except. specialize (Hc w).
  destruct (c w) as [[a | e |] w1]; [done | | done].
  simpl in Hc. destruct Hc as [Ht Hle]. destruct (Hh w1) as [Ht' Hle'].
  split; [congruence | by eapply os_le_trans].
Qed.

Lemma preserves_get_world : preserves get_world.
Proof. intros w. split; [done | apply os_le_refl]. Qed.

Lemma preserves_emit sid data : preserves (emit_terminal_output sid data).
Proof. intros w. split; [done | apply os_le_refl]. Qed.

Lemma preserves_start sid : preserves (start_background_task sid).
Proof. intros w. split; [done | apply os_le_refl]. Qed.

Lemma os_le_ptys_insert o k p :
  os_le o (set_ptys (<[k := p]>) o).
Proof.
  split; simpl; [done | | done].
  intros k'. destruct (decide (k = k')) as [<- | Hne].
  - rewrite lookup_insert_eq. eauto.
  - by rewrite lookup_insert_ne.
Qed.

Lemma os_le_ptys_alter o k f :
  os_le o (set_ptys (alter f k) o).
Proof.
  split; simpl; [done | | done].
  intros k'. rewrite lookup_alter. case_decide; [| done].
  subst. intros [p ->]. by eexists.
Qed.

Lemma os_le_procs_insert o pid p :
  os_le o (set_procs (<[pid := p]>) o).
Proof.
  split; simpl; [done | done |].
  intros k'. destruct (decide (pid = k')) as [<- | Hne].
  - rewrite lookup_insert_eq. eauto.
  - by rewrite lookup_insert_ne.
Qed.

Lemma os_le_procs_alter o pid f :
  os_le o (set_procs (alter f pid) o).
Proof.
  split; simpl; [done | done |].
  intros k'. rewrite lookup_alter. case_decide; [| done].
  subst. intros [p ->]. by eexists.
Qed.

(** Discharge [preserves] for a primitive that branches on lookups. *)
Ltac preserves_cases :=
  intros w; cbv beta delta [os_write os_read select_select fcntl_ioctl_TIOCSWINSZ
                            Popen_terminate];
  repeat match goal with
         | |- context [match ?x with _ => _ end] => destruct x
         end;
  simpl; (split; [done |]);
  first [ apply os_le_refl | apply os_le_ptys_insert | apply os_le_procs_insert ].

Lemma preserves_os_write fd bs : preserves (os_write fd bs).
Proof. preserves_cases. Qed.

Lemma preserves_os_read fd n : preserves (os_read fd n).
Proof. preserves_cases. Qed.

Lemma preserves_select fd t : preserves (select_select fd t).
Proof. preserves_cases. Qed.

Lemma preserves_ioctl fd arg : preserves (fcntl_ioctl_TIOCSWINSZ fd arg).
Proof. preserves_cases. Qed.

Lemma preserves_terminate pid : preserves (Popen_terminate pid).
Proof. preserves_cases. Qed.

Lemma preserves_getitem d k : preserves (py_getitem d k).
Proof. unfold py_getitem. destruct (d !! k); [apply preserves_ret | apply preserves_raise]. Qed.

Lemma preserves_payload_getitem d k : preserves (payload_getitem d k).
Proof. destruct d; first [apply preserves_getitem | apply preserves_raise]. Qed.

Lemma preserves_payload_in k d : preserves (payload_in k d).
Proof. destruct d; first [apply preserves_ret | apply preserves_raise]. Qed.

Lemma preserves_encode v : preserves (py_encode v).
Proof.
  unfold py_encode. destruct v as [z | s |]; try apply preserves_raise.
  destruct (utf8_encode s); [apply preserves_ret | apply preserves_raise].
Qed.

Lemma preserves_pack a b c d : preserves (struct_pack_HHHH a b c d).
Proof.
  unfold struct_pack_HHHH.
  destruct (pack_H a), (pack_H b), (pack_H c), (pack_H d);
    first [apply preserves_ret | apply preserves_raise].
Qed.

Create HintDb preserves_db.
#[local] Hint Resolve preserves_ret preserves_raise preserves_get_world preserves_emit
  preserves_start preserves_os_write preserves_os_read preserves_select preserves_ioctl
  preserves_terminate preserves_getitem preserves_payload_getitem preserves_payload_in
  preserves_encode preserves_pack : preserves_db.

Ltac preserves_step :=
  first [ apply preserves_bind; [| intros ?] | apply preserves_try
        | solve [eauto with preserves_db] ].

Lemma preserves_resize sid data : preserves (handle_terminal_resize sid data).
Proof.
  unfold handle_terminal_resize. apply preserves_bind; [eauto with preserves_db |].
  intros w. destruct (terminals w !! sid); repeat preserves_step.
Qed.

Lemma preserves_input sid data : preserves (handle_terminal_input sid data).
Proof.
  unfold handle_terminal_input. apply preserves_bind; [eauto with preserves_db |].
  intros w. destruct (terminals w !! sid); repeat preserves_step.
Qed.

Lemma preserves_relay_body sid master : preserves (relay_body sid master).
Proof.
  unfold relay_body. apply preserves_bind; [eauto with preserves_db |].
  intros []; repeat preserves_step.
Qed.

Lemma preserves_relay_iteration sid master : preserves (relay_iteration sid master).
Proof.
  intros w. unfold relay_iteration.
  destruct (terminals w !! sid); [| split; [done | apply os_le_refl]].
  apply preserves_try; [| eauto with preserves_db].
  apply preserves_bind; [apply preserves_relay_body | eauto with preserves_db].
Qed.

Lemma preserves_apply_initial_size sid data : preserves (apply_initial_size sid data).
Proof.
  unfold apply_initial_size.
  apply preserves_bind; [eauto with preserves_db | intros has_cols].
  apply preserves_bind; [destruct has_cols; eauto with preserves_db | intros both].
  destruct both; [| eauto with preserves_db].
  apply preserves_bind; [eauto with preserves_db | intros c].
  apply preserves_bind; [eauto with preserves_db | intros r].
  apply preserves_resize.
Qed.

Lemma preserves_after_open sid data : preserves (after_open sid data).
Proof.
  unfold after_open. apply preserves_bind; [apply preserves_apply_initial_size |].
  intros _. repeat preserves_step.
Qed.

Lemma lowest_free_None m limit n : lowest_free m limit = Some n → m !! n = None.
Proof.
  unfold lowest_free. intros H. apply find_some in H as [_ H].
  by apply bool_decide_eq_true in H.
Qed.

Lemma lowest_free_range m limit n : lowest_free m limit = Some n → 0 ≤ n < limit.
Proof.
  unfold lowest_free. intros H. apply find_some in H as [H _].
  apply list_elem_of_In, elem_of_seqZ in H. lia.
Qed.

(** What a successful [pty.openpty] returns and does. *)
Lemma pty_openpty_ok w m s w1 :
  pty_openpty w = (Ok (m, s), w1) →
  fds (os w) !! m = None ∧ fds (os w) !! s = None ∧ m ≠ s
  ∧ terminals w1 = terminals w ∧ emitted w1 = emitted w ∧ tasks w1 = tasks w
  ∧ controller_serial w1 = controller_serial w
  ∧ fds (os w1) = <[s := FdPty (next_pty (os w)) Slave]>
                    (<[m := FdPty (next_pty (os w)) Master]> (fds (os w)))
  ∧ ptys (os w1) = <[next_pty (os w) := fresh_pty]> (ptys (os w))
  ∧ procs (os w1) = procs (os w)
  ∧ environ (os w1) = environ (os w)
  ∧ next_pid (os w1) = next_pid (os w).
Proof.
  unfold pty_openpty. cbv zeta. intros H.
  destruct (lowest_free (fds (os w)) (fd_limit (os w))) as [m' |] eqn:Hm; [| done].
  destruct (lowest_free (<[m' := _]> _) (fd_limit (os w))) as [s' |] eqn:Hs; [| done].
  injection H as <- <- <-. apply lowest_free_None in Hm, Hs.
  assert (m' ≠ s') by (intros ->; by rewrite lookup_insert_eq in Hs).
  rewrite lookup_insert_ne in Hs by done. by split_and!.
Qed.

Lemma pty_openpty_raise w e w1 : pty_openpty w = (Raise e, w1) → w1 = w.
Proof.
  unfold pty_openpty. cbv zeta. intros H.
  destruct (lowest_free (fds (os w)) (fd_limit (os w))) as [m |]; [| by injection H].
  destruct (lowest_free (<[m := _]> _) (fd_limit (os w))); [done | by injection H].
Qed.

Lemma pty_openpty_not_blocked w w1 : pty_openpty w ≠ (Blocked, w1).
Proof.
  unfold pty_openpty. cbv zeta.
  destruct (lowest_free (fds (os w)) (fd_limit (os w))) as [m |]; [| done].
  by destruct (lowest_free (<[m := _]> _) (fd_limit (os w))).
Qed.

Lemma preserves_openpty : preserves pty_openpty.
Proof.
  intros w. destruct (pty_openpty w) as [[[m s] | e |] w1] eqn:H.
  - apply pty_openpty_ok in H as (Hm & Hs & Hms & Ht & _ & _ & _ & Hf & Hp & Hq & _).
    simpl. split; [done |]. split.
    + intros fd d Hfd. rewrite Hf.
      rewrite !lookup_insert_ne; [done | congruence | congruence].
    + intros k. rewrite Hp. destruct (decide (next_pty (os w) = k)) as [<- | Hne].
      * rewrite lookup_insert_eq. eauto.
      * by rewrite lookup_insert_ne.
    + by rewrite Hq.
  - apply pty_openpty_raise in H as ->. split; [done | apply os_le_refl].
  - by apply pty_openpty_not_blocked in H.
Qed.

(** What a successful [subprocess.Popen] returns and does. *)
Lemma subprocess_Popen_ok args i o e b w pid w1 :
  subprocess_Popen args i o e b w = (Ok pid, w1) →
  ∃ di do de,
    fds (os w) !! i = Some di ∧ fds (os w) !! o = Some do ∧ fds (os w) !! e = Some de
    ∧ pid = next_pid (os w)
    ∧ terminals w1 = terminals w ∧ emitted w1 = emitted w ∧ tasks w1 = tasks w
    ∧ controller_serial w1 = controller_serial w
    ∧ fds (os w1) = fds (os w) ∧ ptys (os w1) = ptys (os w)
    ∧ procs (os w1) = <[pid := Proc args di do de b (environ (os w)) Running]> (procs (os w)).
Proof.
  unfold subprocess_Popen. cbv zeta. intros H.
  destruct (two_free (os w)); [| done].
  destruct (fds (os w) !! i) as [di |]; [| done].
  destruct (fds (os w) !! o) as [do |]; [| done].
  destruct (fds (os w) !! e) as [de |]; [| done].
  destruct (can_exec (os w)); [| done].
  injection H as <- <-. exists di, do, de. by split_and!.
Qed.

Lemma preserves_Popen args i o e b : preserves (subprocess_Popen args i o e b).
Proof.
  intros w. unfold subprocess_Popen. cbv zeta.
  destruct (two_free (os w)); [| split; [done | apply os_le_refl]].
  destruct (fds (os w) !! i); [| split; [done | apply os_le_refl]].
  destruct (fds (os w) !! o); [| split; [done | apply os_le_refl]].
  destruct (fds (os w) !! e); [| split; [done | apply os_le_refl]].
  destruct (can_exec (os w)); [| split; [done | apply os_le_refl]].
  simpl. split; [done |]. split; simpl; [done | done |].
  intros k'. destruct (decide (next_pid (os w) = k')) as [<- | Hne].
  - rewrite lookup_insert_eq. eauto.
  - by rewrite lookup_insert_ne.
Qed.

(** What a successful [open_session] leaves behind. *)
Lemma open_session_ok w sid w1 :
  open_session sid w = (Ok tt, w1) →
  ∃ m s, let k := next_pty (os w) in let pid := next_pid (os w) in
    fds (os w) !! m = None ∧ fds (os w) !! s = None ∧ m ≠ s
    ∧ terminals w1 = <[sid := Terminal m s pid]> (terminals w)
    ∧ emitted w1 = emitted w ∧ tasks w1 = tasks w
    ∧ controller_serial w1 = controller_serial w
    ∧ fds (os w1) = <[s := FdPty k Slave]> (<[m := FdPty k Master]> (fds (os w)))
    ∧ ptys (os w1) = <[k := fresh_pty]> (ptys (os w))
    ∧ procs (os w1) = <[pid := Proc ["/bin/bash"%string] (FdPty k Slave) (FdPty k Slave)
                                  (FdPty k Slave) true (environ (os w)) Running]>
                        (procs (os w)).
Proof.
  unfold open_session, bind. intros H.
  destruct (pty_openpty w) as [[[m s] | e |] v1] eqn:Hopen; [| done | done].
  destruct (subprocess_Popen _ s s s true v1) as [[p | e |] v2] eqn:Hspawn; [| done | done].
  injection H as <-.
  apply pty_openpty_ok in Hopen
    as (Hm & Hs & Hms & Ht & He & Hta & Hse & Hf & Hp & Hq & Henv & Hpid).
  apply subprocess_Popen_ok in Hspawn
    as (di & do & de & Hdi & Hdo & Hde & -> & Ht2 & He2 & Hta2 & Hse2 & Hf2 & Hp2 & Hq2).
  rewrite Hf, lookup_insert_eq in Hdi, Hdo, Hde.
  injection Hdi as <-. injection Hdo as <-. injection Hde as <-.
  exists m, s. simpl. rewrite Ht2, He2, Hta2, Hse2, Hf2, Hp2, Hq2.
  rewrite Ht, He, Hta, Hse, Hf, Hp, Hq, Henv.
  rewrite Hpid. by split_and!.
Qed.

Lemma preserves_open_session_os sid w :
  os_le (os w) (os (open_session sid w).2).
Proof.
  unfold open_session.
  assert (Hp : preserves (let* '(master, slave) := pty_openpty in
                          subprocess_Popen ["/bin/bash"%string] slave slave slave true)).
  { apply preserves_bind; [apply preserves_openpty |].
    intros [m s]. apply preserves_Popen. }
  specialize (Hp w). unfold bind in *.
  destruct (pty_openpty w) as [[[m s] | e |] v1]; [| apply Hp | apply Hp].
  destruct (subprocess_Popen _ s s s true v1) as [[p | e |] v2]; apply Hp.
Qed.

Lemma open_session_wf sid w :
  wf w → terminals w !! sid = None → wf (open_session sid w).2.
Proof.
  intros Hw Hnone. pose proof (preserves_open_session_os sid w) as Hle.
  destruct (open_session sid w) as [[[] | e |] w1] eqn:Hopen; simpl in *.
  - apply open_session_ok in Hopen
      as (m & s & Hm & Hs & Hms & Ht & _ & _ & _ & Hf & Hp & Hq).
    destruct Hw as [Hok Hapart]. split.
    + intros sid' t. rewrite Ht. destruct (decide (sid = sid')) as [<- | Hne].
      * rewrite lookup_insert_eq. intros [= <-].
        exists (next_pty (os w)). simpl. rewrite Hf, Hp, Hq. split_and!.
        -- by rewrite lookup_insert_ne, lookup_insert_eq.
        -- by rewrite lookup_insert_eq.
        -- rewrite lookup_insert_eq. eauto.
        -- rewrite lookup_insert_eq. eauto.
      * rewrite lookup_insert_ne by done. intros H.
        eapply session_ok_le; eauto.
    + assert (Hold : ∀ sid' t', terminals w !! sid' = Some t' →
                fds_apart (Terminal m s (next_pid (os w))) t'
                ∧ fds_apart t' (Terminal m s (next_pid (os w)))).
      { intros sid' t' H'. destruct (Hok _ _ H') as (k & Hmk & Hsk & _).
        unfold fds_apart. simpl. split_and!; congruence. }
      intros sid1 sid2 t1 t2 Hne. rewrite Ht.
      destruct (decide (sid = sid1)) as [<- | H1], (decide (sid = sid2)) as [<- | H2];
        [done | | |].
      * rewrite lookup_insert_eq, lookup_insert_ne by done. intros [= <-] H.
        by apply (Hold sid2).
      * rewrite lookup_insert_eq, lookup_insert_ne by done. intros H [= <-].
        by apply (Hold sid1).
      * rewrite !lookup_insert_ne by done. eauto.
  - unfold open_session, bind in Hopen.
    destruct (pty_openpty w) as [[[m s] | e' |] v1] eqn:H1; [| | done].
    + destruct (subprocess_Popen _ s s s true v1) as [[p | e' |] v2] eqn:H2; [done | | done].
      injection Hopen as _ <-.
      eapply wf_le; [done | | done].
      apply (preserves_run _ _ _ _ (preserves_Popen _ _ _ _ _)) in H2 as [-> _].
      by apply (preserves_run _ _ _ _ preserves_openpty) in H1 as [-> _].
    + injection Hopen as _ <-. apply pty_openpty_raise in H1 as ->. done.
  - unfold open_session, bind in Hopen.
    destruct (pty_openpty w) as [[[m s] | e' |] v1] eqn:H1; [| done |].
    + destruct (subprocess_Popen _ s s s true v1) as [[p | e' |] v2] eqn:H2; [done | done |].
      injection Hopen as <-.
      eapply wf_le; [done | | done].
      apply (preserves_run _ _ _ _ (preserves_Popen _ _ _ _ _)) in H2 as [-> _].
      by apply (preserves_run _ _ _ _ preserves_openpty) in H1 as [-> _].
    + by apply pty_openpty_not_blocked in H1.
Qed.

Lemma session_ok_fds_ne o t : session_ok o t → master_fd t ≠ slave_fd t.
Proof. intros (k & Hm & Hs & _) Heq. congruence. Qed.

(** A disconnect for a registered session in a well-formed world runs to
    its end. *)
Lemma handle_disconnect_live w sid t :
  wf w → terminals w !! sid = Some t →
  ∃ w', handle_disconnect sid w = (Ok tt, w')
    ∧ terminals w' = delete sid (terminals w)
    ∧ fds (os w') = delete (slave_fd t) (delete (master_fd t) (fds (os w)))
    ∧ ptys (os w') = ptys (os w)
    ∧ (∃ p, procs (os w') !! process t = Some p ∧ p_status p ≠ Running)
    ∧ (∀ pid, is_Some (procs (os w) !! pid) → is_Some (procs (os w') !! pid))
    ∧ emitted w' = emitted w ∧ tasks w' = tasks w.
Proof.
  intros Hw Hlive. pose proof (wf_sessions w Hw sid t Hlive) as Hok.
  pose proof (session_ok_fds_ne _ _ Hok) as Hne.
  destruct Hok as (k & Hm & Hs & Hk & [p Hp]).
  unfold handle_disconnect. rewrite (bind_ok get_world _ w w w) by done. rewrite Hlive.
  destruct (Popen_terminate (process t) w) as [r v1] eqn:Hterm.
  assert (r = Ok tt ∧ terminals v1 = terminals w ∧ fds (os v1) = fds (os w)
          ∧ ptys (os v1) = ptys (os w) ∧ emitted v1 = emitted w ∧ tasks v1 = tasks w
          ∧ (∃ p', procs (os v1) !! process t = Some p' ∧ p_status p' ≠ Running)
          ∧ (∀ pid, is_Some (procs (os w) !! pid) → is_Some (procs (os v1) !! pid)))
    as (-> & Ht1 & Hf1 & Hp1 & He1 & Hta1 & Hst & Hpr).
  { unfold Popen_terminate in Hterm. rewrite Hp in Hterm.
    destruct (p_status p) eqn:Hstatus; injection Hterm as <- <-; simpl; split_and!;
      try done; try (exists p; split; [done | congruence]).
    - eexists. by rewrite lookup_insert_eq.
    - intros pid. destruct (decide (process t = pid)) as [<- | Hd].
      + rewrite lookup_insert_eq. eauto.
      + by rewrite lookup_insert_ne. }
  rewrite (bind_ok _ _ _ _ _ Hterm).
  assert (Hc1 : os_close (master_fd t) v1 = (Ok tt, set_os (set_fds (delete (master_fd t))) v1)).
  { unfold os_close. by rewrite Hf1, Hm. }
  rewrite (bind_ok _ _ _ _ _ Hc1).
  assert (Hc2 : os_close (slave_fd t) (set_os (set_fds (delete (master_fd t))) v1)
                = (Ok tt, set_os (set_fds (delete (slave_fd t)))
                            (set_os (set_fds (delete (master_fd t))) v1))).
  { unfold os_close. simpl. by rewrite Hf1, lookup_delete_ne, Hs. }
  rewrite (bind_ok _ _ _ _ _ Hc2).
  eexists. split; [reflexivity |]. simpl. rewrite Ht1, Hf1, Hp1, He1, Hta1.
  by split_and!.
Qed.

Lemma handle_disconnect_wf sid w : wf w → wf (handle_disconnect sid w).2.
Proof.
  intros Hw. destruct (terminals w !! sid) as [t |] eqn:Hlive.
  - destruct (handle_disconnect_live w sid t Hw Hlive)
      as (w' & -> & Ht & Hf & Hp & _ & Hq & _).
    simpl. destruct Hw as [Hok Hapart]. split.
    + intros sid' t'. rewrite Ht. destruct (decide (sid = sid')) as [<- | Hne].
      * by rewrite lookup_delete_eq.
      * rewrite lookup_delete_ne by done. intros H'.
        destruct (Hapart sid sid' t t' Hne Hlive H') as (H1 & H2 & H3 & H4).
        destruct (Hok _ _ H') as (k & Hmk & Hsk & Hk & Hpr).
        exists k. rewrite Hf, Hp. split_and!; [| | done | by apply Hq].
        -- by rewrite !lookup_delete_ne.
        -- by rewrite !lookup_delete_ne.
    + intros sid1 sid2 t1 t2 Hne. rewrite Ht.
      intros H1%lookup_delete_Some H2%lookup_delete_Some.
      destruct H1 as [_ H1], H2 as [_ H2]. eauto.
  - unfold handle_disconnect. rewrite (bind_ok get_world _ w w w) by done.
    by rewrite Hlive.
Qed.

(** A step of a relay leaves [terminals] alone and closes nothing. *)
Lemma run_relay_preserves i w :
  terminals (run_relay i w) = terminals w ∧ os_le (os w) (os (run_relay i w)).
Proof.
  unfold run_relay, set_pc.
  destruct (tasks w !! i) as [[sid [| | m | m | m | m out |]] |];
    try (split; [done | apply os_le_refl]).
  - destruct (terminals w !! sid); (split; [done | apply os_le_refl]).
  - destruct (terminals w !! sid); (split; [done | apply os_le_refl]).
  - destruct (terminals w !! sid); (split; [done | apply os_le_refl]).
  - pose proof (preserves_select m SELECT_TIMEOUT_MS w) as H.
    by destruct (select_select m SELECT_TIMEOUT_MS w) as [[[] | e |] w1].
  - pose proof (preserves_os_read m READ_SIZE w) as H.
    by destruct (os_read m READ_SIZE w) as [[raw | e |] w1].
Qed.

Lemma run_relay_wf i w : wf w → wf (run_relay i w).
Proof.
  intros Hw. destruct (run_relay_preserves i w) as [Ht Hle]. by eapply wf_le.
Qed.

Lemma step_wf a w : wf w → wf (step a w).
Proof.
  intros Hw. destruct a as [sid data | sid data | sid data | sid | i | k bs | pid | k]; simpl.
  - destruct (terminals w !! sid) as [t |] eqn:Hlive.
    + unfold handle_terminal_connect.
      rewrite (bind_ok get_world _ w w w) by done. by rewrite Hlive.
    + rewrite handle_terminal_connect_fresh by done.
      pose proof (open_session_wf sid w Hw Hlive) as Hopen. unfold bind.
      destruct (open_session sid w) as [[[] | e |] w1]; [| done | done].
      by apply preserves_wf; [apply preserves_after_open |].
  - by apply preserves_wf; [apply preserves_input |].
  - by apply preserves_wf; [apply preserves_resize |].
  - by apply handle_disconnect_wf.
  - by apply run_relay_wf.
  - eapply wf_le; [done | done | apply os_le_ptys_alter].
  - eapply wf_le; [done | done | apply os_le_procs_alter].
  - destruct (slave_held (os w) k); [done |].
    eapply wf_le; [done | done | apply os_le_ptys_alter].
Qed.

Lemma initial_world_wf env limit exec serial : wf (initial_world env limit exec serial).
Proof. split; intros *; simpl; by rewrite ?lookup_empty. Qed.

(** Every world the server can be in satisfies the invariant. *)
Lemma reachable_wf w : reachable w → wf w.
Proof.
  induction 1 as [env limit exec serial | a w _ IH].
  - apply initial_world_wf.
  - by apply step_wf.
Qed.

Lemma reachable_run l w : reachable w → reachable (run l w).
Proof.
  revert w. induction l as [| a l IH]; intros w Hw; [done |].
  simpl. apply IH. by constructor.
Qed.

(** ** No session's PTY hangs up *)

Lemma hup_le_refl o : hup_le o o.
Proof. split; eauto. Qed.

Lemma hup_le_trans o o1 o2 : hup_le o o1 → hup_le o1 o2 → hup_le o o2.
Proof.
  intros [H1 F1] [H2 F2]. split.
  - intros k p2 Hp2 Hh. destruct (H2 k p2 Hp2 Hh) as (p1 & Hp1 & Hh1). eauto.
  - intros fd k Hfd. destruct (F2 fd k Hfd) as [Hfd1 | Hno]; [| by right].
    destruct (F1 fd k Hfd1) as [Hfd0 | Hno]; [by left | right].
    intros p2 Hp2. destruct (pty_hup p2) eqn:Hh; [| done].
    destruct (H2 k p2 Hp2 Hh) as (p1 & Hp1 & Hh1). rewrite (Hno p1 Hp1) in Hh1. done.
Qed.

Lemma hup_ok_le o o1 : hup_ok o → hup_le o o1 → hup_ok o1.
Proof.
  intros Hok [H F] fd k p1 Hfd Hp1. destruct (pty_hup p1) eqn:Hh; [| done].
  destruct (F fd k Hfd) as [Hfd0 | Hno].
  - destruct (H k p1 Hp1 Hh) as (p & Hp & Hhp). by rewrite (Hok fd k p Hfd0 Hp) in Hhp.
  - by rewrite (Hno p1 Hp1) in Hh.
Qed.

(** Putting a PTY state with the same hang-up flag in the place of one. *)
Lemma hup_le_ptys_insert o k p p' :
  ptys o !! k = Some p → pty_hup p' = pty_hup p → hup_le o (set_ptys (<[k := p']>) o).
Proof.
  intros Hp Hh. split; simpl; [| by left].
  intros k' p1. destruct (decide (k = k')) as [<- | Hne].
  - rewrite lookup_insert_eq. intros [= <-] H1. exists p. split; [done | congruence].
  - rewrite lookup_insert_ne by done. eauto.
Qed.

Lemma no_hangup_ret {A} (a : A) : no_hangup (ret a).
Proof. intros w. apply hup_le_refl. Qed.

Lemma no_hangup_raise {A} e : no_hangup (@raise A e).
Proof. intros w. apply hup_le_refl. Qed.

Lemma no_hangup_bind {A B} (c : M A) (k : A → M B) :
  no_hangup c → (∀ a, no_hangup (k a)) → no_hangup (bind c k).
Proof.
  intros Hc Hk w. unfold bind. specialize (Hc w).
  destruct (c w) as [[a | e |] w1]; [| done | done].
  eapply hup_le_trans; [exact Hc | apply Hk].
Qed.

Lemma no_hangup_get_world : no_hangup get_world.
Proof. intros w. apply hup_le_refl. Qed.

Lemma no_hangup_modify f : (∀ w, os (f w) = os w) → no_hangup (modify f).
Proof. intros Hf w. simpl. rewrite Hf. apply hup_le_refl. Qed.

Lemma no_hangup_emit sid data : no_hangup (emit_terminal_output sid data).
Proof. by apply no_hangup_modify. Qed.

Lemma no_hangup_start sid : no_hangup (start_background_task sid).
Proof. by apply no_hangup_modify. Qed.

Lemma no_hangup_os_write fd bs : no_hangup (os_write fd bs).
Proof.
  intros w. unfold os_write.
  destruct (fds (os w) !! fd) as [[k s |] |]; try apply hup_le_refl.
  destruct (ptys (os w) !! k) as [p |] eqn:Hp; [| apply hup_le_refl].
  destruct s; by eapply hup_le_ptys_insert.
Qed.

Lemma no_hangup_ioctl fd arg : no_hangup (fcntl_ioctl_TIOCSWINSZ fd arg).
Proof.
  intros w. unfold fcntl_ioctl_TIOCSWINSZ.
  destruct (fds (os w) !! fd) as [[k s |] |]; try apply hup_le_refl.
  destruct (ptys (os w) !! k) as [p |] eqn:Hp, (winsize_of_bytes arg) as [ws |];
    try apply hup_le_refl.
  by eapply hup_le_ptys_insert.
Qed.

Lemma no_hangup_os_read fd n : no_hangup (os_read fd n).
Proof.
  intros w. unfold os_read.
  destruct (fds (os w) !! fd) as [[k s |] |]; try apply hup_le_refl.
  destruct (ptys (os w) !! k) as [p |] eqn:Hp; [| apply hup_le_refl].
  destruct s.
  - destruct (pty_out p); [destruct (pty_hup p); apply hup_le_refl |].
    by eapply hup_le_ptys_insert.
  - destruct (pty_in p); [apply hup_le_refl |]. by eapply hup_le_ptys_insert.
Qed.

Lemma no_hangup_select fd t : no_hangup (select_select fd t).
Proof.
  intros w. unfold select_select.
  case_bool_decide; [| apply hup_le_refl].
  destruct (fds (os w) !! fd) as [d |]; [| apply hup_le_refl].
  destruct (readable (os w) d); apply hup_le_refl.
Qed.

Lemma no_hangup_terminate pid : no_hangup (Popen_terminate pid).
Proof.
  intros w. unfold Popen_terminate.
  destruct (procs (os w) !! pid) as [p |]; [| apply hup_le_refl].
  destruct (p_status p); try apply hup_le_refl. split; simpl; eauto.
Qed.

Lemma no_hangup_close fd : no_hangup (os_close fd).
Proof.
  intros w. unfold os_close.
  destruct (fds (os w) !! fd); [| apply hup_le_refl].
  split; simpl; [eauto |].
  intros fd' k H. apply lookup_delete_Some in H as [_ H]. by left.
Qed.

Lemma no_hangup_openpty : no_hangup pty_openpty.
Proof.
  intros w. unfold pty_openpty. cbv zeta.
  destruct (lowest_free (fds (os w)) (fd_limit (os w))) as [m |]; [| apply hup_le_refl].
  destruct (lowest_free (<[m := _]> _) (fd_limit (os w))) as [s |]; [| apply hup_le_refl].
  split; simpl.
  - intros k p1. destruct (decide (next_pty (os w) = k)) as [<- | Hne].
    + rewrite lookup_insert_eq. by intros [= <-].
    + rewrite lookup_insert_ne by done. eauto.
  - intros fd k. destruct (decide (s = fd)) as [<- | Hs].
    + rewrite lookup_insert_eq. intros [= <-]. right.
      rewrite lookup_insert_eq. by intros p1 [= <-].
    + rewrite lookup_insert_ne by done. destruct (decide (m = fd)) as [<- | Hm].
      * by rewrite lookup_insert_eq.
      * rewrite lookup_insert_ne by done. by left.
Qed.

Lemma no_hangup_Popen args i o e b : no_hangup (subprocess_Popen args i o e b).
Proof.
  intros w. unfold subprocess_Popen. cbv zeta.
  destruct (two_free (os w)); [| apply hup_le_refl].
  destruct (fds (os w) !! i); [| apply hup_le_refl].
  destruct (fds (os w) !! o); [| apply hup_le_refl].
  destruct (fds (os w) !! e); [| apply hup_le_refl].
  destruct (can_exec (os w)); [| apply hup_le_refl].
  split; simpl; eauto.
Qed.

Lemma no_hangup_getitem d k : no_hangup (py_getitem d k).
Proof.
  unfold py_getitem. destruct (d !! k); [apply no_hangup_ret | apply no_hangup_raise].
Qed.

Lemma no_hangup_payload_getitem d k : no_hangup (payload_getitem d k).
Proof. destruct d; first [apply no_hangup_getitem | apply no_hangup_raise]. Qed.

Lemma no_hangup_payload_in k d : no_hangup (payload_in k d).
Proof. destruct d; first [apply no_hangup_ret | apply no_hangup_raise]. Qed.

Lemma no_hangup_encode v : no_hangup (py_encode v).
Proof.
  unfold py_encode. destruct v as [z | s |]; try apply no_hangup_raise.
  destruct (utf8_encode s); [apply no_hangup_ret | apply no_hangup_raise].
Qed.

Lemma no_hangup_pack a b c d : no_hangup (struct_pack_HHHH a b c d).
Proof.
  unfold struct_pack_HHHH.
  destruct (pack_H a), (pack_H b), (pack_H c), (pack_H d);
    first [apply no_hangup_ret | apply no_hangup_raise].
Qed.

Create HintDb no_hangup_db.
#[local] Hint Resolve no_hangup_ret no_hangup_raise no_hangup_get_world no_hangup_emit
  no_hangup_start no_hangup_os_write no_hangup_ioctl no_hangup_os_read no_hangup_select
  no_hangup_terminate no_hangup_close no_hangup_openpty no_hangup_Popen no_hangup_getitem
  no_hangup_payload_getitem no_hangup_payload_in no_hangup_encode no_hangup_pack
  : no_hangup_db.

Ltac no_hangup_step :=
  first [ apply no_hangup_bind; [| intros ?] | solve [eauto with no_hangup_db]
        | (apply no_hangup_modify; done) ].

Lemma no_hangup_resize sid data : no_hangup (handle_terminal_resize sid data).
Proof.
  unfold handle_terminal_resize. apply no_hangup_bind; [eauto with no_hangup_db |].
  intros w. destruct (terminals w !! sid); repeat no_hangup_step.
Qed.

Lemma no_hangup_input sid data : no_hangup (handle_terminal_input sid data).
Proof.
  unfold handle_terminal_input. apply no_hangup_bind; [eauto with no_hangup_db |].
  intros w. destruct (terminals w !! sid); repeat no_hangup_step.
Qed.

Lemma no_hangup_disconnect sid : no_hangup (handle_disconnect sid).
Proof.
  unfold handle_disconnect. apply no_hangup_bind; [eauto with no_hangup_db |].
  intros w. destruct (terminals w !! sid); repeat no_hangup_step.
Qed.

Lemma no_hangup_apply_initial_size sid data : no_hangup (apply_initial_size sid data).
Proof.
  unfold apply_initial_size.
  apply no_hangup_bind; [eauto with no_hangup_db | intros has_cols].
  apply no_hangup_bind; [destruct has_cols; eauto with no_hangup_db | intros both].
  destruct both; [| eauto with no_hangup_db].
  apply no_hangup_bind; [eauto with no_hangup_db | intros c].
  apply no_hangup_bind; [eauto with no_hangup_db | intros r].
  apply no_hangup_resize.
Qed.

Lemma no_hangup_connect sid data : no_hangup (handle_terminal_connect sid data).
Proof.
  unfold handle_terminal_connect. apply no_hangup_bind; [eauto with no_hangup_db |].
  intros w. destruct (terminals w !! sid); [eauto with no_hangup_db |].
  apply no_hangup_bind; [eauto with no_hangup_db | intros [m s]].
  apply no_hangup_bind; [eauto with no_hangup_db | intros p].
  apply no_hangup_bind; [by apply no_hangup_modify | intros _].
  apply no_hangup_bind; [apply no_hangup_apply_initial_size | intros _].
  repeat no_hangup_step.
Qed.

Lemma run_relay_no_hangup i w : hup_le (os w) (os (run_relay i w)).
Proof.
  unfold run_relay, set_pc.
  destruct (tasks w !! i) as [[sid [| | m | m | m | m out |]] |]; try apply hup_le_refl.
  - destruct (terminals w !! sid); apply hup_le_refl.
  - destruct (terminals w !! sid); apply hup_le_refl.
  - destruct (terminals w !! sid); apply hup_le_refl.
  - pose proof (no_hangup_select m SELECT_TIMEOUT_MS w) as H.
    by destruct (select_select m SELECT_TIMEOUT_MS w) as [[[] | e |] w1].
  - pose proof (no_hangup_os_read m READ_SIZE w) as H.
    by destruct (os_read m READ_SIZE w) as [[raw | e |] w1].
Qed.

(** A subordinate side that is open on a descriptor is held. *)
Lemma slave_held_fd o k fd :
  fds o !! fd = Some (FdPty k Slave) → slave_held o k = true.
Proof.
  intros H. unfold slave_held. apply orb_true_intro. left.
  apply existsb_exists. exists (fd, FdPty k Slave). split.
  - by apply list_elem_of_In, elem_of_map_to_list.
  - by apply bool_decide_eq_true_2.
Qed.

Lemma step_hup_ok a w : hup_ok (os w) → hup_ok (os (step a w)).
Proof.
  intros Hok.
  destruct a as [sid data | sid data | sid data | sid | i | k bs | pid | k]; simpl.
  - eapply hup_ok_le; [done | apply no_hangup_connect].
  - eapply hup_ok_le; [done | apply no_hangup_input].
  - eapply hup_ok_le; [done | apply no_hangup_resize].
  - eapply hup_ok_le; [done | apply no_hangup_disconnect].
  - eapply hup_ok_le; [done | apply run_relay_no_hangup].
  - intros fd k' p1 Hfd. simpl. rewrite lookup_alter. case_decide as Hk.
    + subst k'. destruct (ptys (os w) !! k) as [p |] eqn:Hp; [| done].
      intros [= <-]. simpl. by eapply Hok.
    + intros Hp. by eapply Hok.
  - intros fd k' p1 Hfd Hp. by eapply Hok.
  - destruct (slave_held (os w) k) eqn:Hheld; [done |].
    intros fd k' p1 Hfd. simpl in *. rewrite lookup_alter. case_decide as Hk.
    + subst k'. by rewrite (slave_held_fd _ _ _ Hfd) in Hheld.
    + intros Hp. by eapply Hok.
Qed.

Lemma reachable_hup_ok w : reachable w → hup_ok (os w).
Proof.
  induction 1 as [env limit exec serial | a w _ IH]; [| by apply step_hup_ok].
  intros fd k p H. simpl in H.
  repeat (rewrite lookup_insert in H; case_decide; [done |]).
  by rewrite lookup_empty in H.
Qed.

(** The PTY of a registered session has not hung up. *)
Lemma session_not_hung_up w sid t k p :
  reachable w → terminals w !! sid = Some t →
  fds (os w) !! master_fd t = Some (FdPty k Master) → ptys (os w) !! k = Some p →
  pty_hup p = false.
Proof.
  intros Hreach Hlive Hm Hp.
  destruct (wf_sessions w (reachable_wf w Hreach) sid t Hlive) as (k' & Hm' & Hs & _).
  assert (k' = k) as -> by congruence.
  by eapply (reachable_hup_ok w Hreach).
Qed.

(** ** The relay after its session is gone *)

Lemma select_select_clock fd r w w1 :
  select_select fd SELECT_TIMEOUT_MS w = (r, w1) →
  0 ≤ clock_ms w1 - clock_ms w ≤ SELECT_TIMEOUT_MS.
Proof.
  unfold select_select, SELECT_TIMEOUT_MS. intros H.
  case_bool_decide; [| injection H as _ <-; lia].
  destruct (fds (os w) !! fd) as [d |]; [| injection H as _ <-; lia].
  destruct (readable (os w) d); injection H as _ <-; simpl; lia.
Qed.

Lemma os_read_clock fd n r w w1 :
  os_read fd n w = (r, w1) → clock_ms w1 = clock_ms w.
Proof.
  unfold os_read. intros H.
  repeat (match type of H with
          | context [match ?x with _ => _ end] => destruct x
          end); by injection H as _ <-.
Qed.

Lemma relay_iteration_clock sid master w :
  0 ≤ clock_ms (relay_iteration sid master w).2 - clock_ms w ≤ SELECT_TIMEOUT_MS.
Proof.
  unfold relay_iteration.
  destruct (terminals w !! sid); [| simpl; unfold SELECT_TIMEOUT_MS; lia].
  unfold try_except, relay_body, bind.
  destruct (select_select master SELECT_TIMEOUT_MS w) as [[ready | e |] w1] eqn:Hsel;
    apply select_select_clock in Hsel; [| done | done].
  destruct ready; [| done].
  destruct (os_read master READ_SIZE w1) as [[raw | e |] w2] eqn:Hrd;
    apply os_read_clock in Hrd; simpl; lia.
Qed.

(** ** Closing a session *)

Lemma reachable_one_session : reachable one_session.
Proof. apply reachable_step, reachable_init. Qed.

Lemma select_select_frame fd t r w w1 :
  select_select fd t w = (r, w1) → same_registry w w1.
Proof.
  unfold select_select. intros H.
  case_bool_decide; [| by injection H as _ <-].
  destruct (fds (os w) !! fd) as [d |]; [| by injection H as _ <-].
  destruct (readable (os w) d); by injection H as _ <-.
Qed.

Lemma os_read_frame fd n r w w1 :
  os_read fd n w = (r, w1) → same_registry w w1.
Proof.
  unfold os_read. intros H.
  destruct (fds (os w) !! fd) as [[k [] |] |].
  - destruct (ptys (os w) !! k) as [p |]; [| by injection H as _ <-].
    destruct (pty_out p); [destruct (pty_hup p) |]; by injection H as _ <-.
  - destruct (ptys (os w) !! k) as [p |]; [| by injection H as _ <-].
    destruct (pty_in p); by injection H as _ <-.
  - by injection H as _ <-.
  - by injection H as _ <-.
Qed.

(** A turn of the relay's loop touches neither the dictionary nor the
    descriptor table nor the processes. *)
Lemma relay_iteration_frame sid master w r w1 :
  relay_iteration sid master w = (r, w1) →
  terminals w1 = terminals w ∧ fds (os w1) = fds (os w) ∧ procs (os w1) = procs (os w)
  ∧ tasks w1 = tasks w.
Proof.
  unfold relay_iteration. intros H.
  destruct (terminals w !! sid); [| by injection H as _ <-].
  unfold try_except, relay_body, bind in H.
  destruct (select_select master SELECT_TIMEOUT_MS w) as [[ready | e |] v1] eqn:Hsel;
    apply select_select_frame in Hsel as (Ht & Hf & Hp & Hta & _).
  - destruct ready.
    + destruct (os_read master READ_SIZE v1) as [[raw | e |] v2] eqn:Hrd;
        apply os_read_frame in Hrd as (Ht2 & Hf2 & Hp2 & Hta2 & _);
        injection H as _ <-; simpl; split_and!; congruence.
    + by injection H as _ <-.
  - by injection H as _ <-.
  - by injection H as _ <-.
Qed.



(** A step of a relay touches neither the dictionary nor the descriptor
    table nor the processes. *)
Lemma run_relay_registry i w :
  terminals (run_relay i w) = terminals w ∧ fds (os (run_relay i w)) = fds (os w)
  ∧ procs (os (run_relay i w)) = procs (os w).
Proof.
  unfold run_relay, set_pc.
  destruct (tasks w !! i) as [[sid [| | m | m | m | m out |]] |]; try done.
  - by destruct (terminals w !! sid).
  - by destruct (terminals w !! sid).
  - by destruct (terminals w !! sid).
  - destruct (select_select m SELECT_TIMEOUT_MS w) as [[[] | e |] w1] eqn:Hsel;
      by apply select_select_frame in Hsel as (? & ? & ? & _).
  - destruct (os_read m READ_SIZE w) as [[raw | e |] w1] eqn:Hrd;
      by apply os_read_frame in Hrd as (? & ? & ? & _).
Qed.






(** ** Resize *)

Lemma byte_val_of_Z z : byte_val (byte_of_Z z) = z mod 256.
Proof.
  unfold byte_val, byte_of_Z.
  assert (Hr : 0 ≤ z mod 256 < 256) by (apply Z.mod_pos_bound; lia).
  destruct (Byte.of_N (Z.to_N (z mod 256))) as [b |] eqn:Hb; simpl.
  - apply Byte.to_of_N in Hb. rewrite Hb. lia.
  - apply Byte.of_N_None_iff in Hb. lia.
Qed.


(** The kernel reads back the 16-bit value that ['H'] packed. *)
Lemma unpack_pack_H z :
  0 ≤ z ≤ 65535 →
  unpack_H (byte_of_Z (Z.land z 255)) (byte_of_Z (Z.shiftr z 8)) = z.
Proof.
  intros Hz. unfold unpack_H. rewrite !byte_val_of_Z.
  change 255 with (Z.ones 8). rewrite Z.land_ones by lia.
  rewrite Z.shiftr_div_pow2, Z.shiftl_mul_pow2 by lia.
  change (2 ^ 8) with 256. rewrite Z.mod_mod by lia.
  assert (Hq : 0 ≤ z / 256 < 256).
  { split; [apply Z.div_pos; lia | apply Z.div_lt_upper_bound; lia]. }
  rewrite (Z.mod_small (z / 256)) by lia.
  rewrite <- Z.lxor_lor.
  - rewrite <- Z.add_nocarry_lxor.
    + pose proof (Z.div_mod z 256). lia.
    + apply Z.bits_inj'. intros n Hn. rewrite Z.land_spec, Z.bits_0.
      destruct (decide (n < 8)) as [Hlt | Hge].
      * change (z / 256 * 256) with (z / 256 * 2 ^ 8).
        rewrite Z.mul_pow2_bits_low by lia. apply andb_false_r.
      * change 256 with (2 ^ 8) at 1. rewrite Z.mod_pow2_bits_high by lia. done.
  - apply Z.bits_inj'. intros n Hn. rewrite Z.land_spec, Z.bits_0.
    destruct (decide (n < 8)) as [Hlt | Hge].
    + change (z / 256 * 256) with (z / 256 * 2 ^ 8).
      rewrite Z.mul_pow2_bits_low by lia. apply andb_false_r.
    + change 256 with (2 ^ 8) at 1. rewrite Z.mod_pow2_bits_high by lia. done.
Qed.

Lemma struct_pack_winsize r c w :
  0 ≤ r ≤ 65535 → 0 ≤ c ≤ 65535 →
  ∃ bs, struct_pack_HHHH (PyInt r) (PyInt c) (PyInt 0) (PyInt 0) w = (Ok bs, w)
        ∧ winsize_of_bytes bs = Some (Winsize r c 0 0).
Proof.
  intros Hr Hc. unfold struct_pack_HHHH. simpl.
  rewrite !bool_decide_eq_true_2 by lia. eexists. split; [reflexivity |].
  simpl. rewrite !unpack_pack_H by lia. reflexivity.
Qed.

(** A resize with packable dimensions on a session whose control-side
    descriptor is open: the one change is the window size of its PTY. *)
Lemma handle_terminal_resize_live w sid t k s p (data : gmap string pyval) r c :
  terminals w !! sid = Some t →
  fds (os w) !! master_fd t = Some (FdPty k s) →
  ptys (os w) !! k = Some p →
  data !! "rows"%string = Some (PyInt r) →
  data !! "cols"%string = Some (PyInt c) →
  0 ≤ r ≤ 65535 → 0 ≤ c ≤ 65535 →
  handle_terminal_resize sid (PDict data) w
  = (Ok tt, set_os (set_ptys (<[k := pty_set_winsize (Winsize r c 0 0) p]>)) w).
Proof.
  intros Hlive Hm Hp Hrows Hcols Hr Hc.
  destruct (struct_pack_winsize r c w Hr Hc) as (bs & Hpack & Hbs).
  unfold handle_terminal_resize. rewrite (bind_ok get_world _ w w w) by done.
  rewrite Hlive. unfold payload_getitem, py_getitem. rewrite Hrows, Hcols.
  rewrite (bind_ok (ret (PyInt r)) _ w w (PyInt r)) by done.
  rewrite (bind_ok (ret (PyInt c)) _ w w (PyInt c)) by done.
  rewrite (bind_ok _ _ _ _ _ Hpack).
  unfold fcntl_ioctl_TIOCSWINSZ. by rewrite Hm, Hp, Hbs.
Qed.

(** C7, as the code has it. For a registered session and a resize event
    whose rows [r] and columns [c] are integers from 0 to 65535 (what the
    ['H'] fields of the packed [winsize] hold), [handle_terminal_resize]
    returns without raising and a window-size query on the session's PTY,
    through either descriptor, reports [r] rows and [c] columns. Nothing is
    asked of the PTY's output: the event may come before any. *)
Theorem resize_sets_window_size (w : world) (sid : string) (t : terminal)
    (data : gmap string pyval) (r c : Z) :
  reachable w →
  terminals w !! sid = Some t →
  data !! "rows"%string = Some (PyInt r) →
  data !! "cols"%string = Some (PyInt c) →
  0 ≤ r ≤ 65535 → 0 ≤ c ≤ 65535 →
  ∃ w', handle_terminal_resize sid (PDict data) w = (Ok tt, w')
    ∧ tty_winsize (os w') (master_fd t) = Some (Winsize r c 0 0)
    ∧ tty_winsize (os w') (slave_fd t) = Some (Winsize r c 0 0)
    ∧ terminals w' = terminals w.
Proof.
  intros Hreach Hlive Hrows Hcols Hr Hc.
  destruct (wf_sessions w (reachable_wf w Hreach) sid t Hlive)
    as (k & Hm & Hs & [p Hp] & _).
  rewrite (handle_terminal_resize_live w sid t k Master p data r c) by done.
  eexists. split; [reflexivity |]. unfold tty_winsize. simpl.
  rewrite Hm, Hs, lookup_insert_eq. done.
Qed.

Lemma resize_sets_window_size_witness :
  ∃ w', handle_terminal_resize "A"
          (PDict (<["rows"%string := PyInt 50]> (<["cols"%string := PyInt 132]> ∅)))
          one_session = (Ok tt, w')
    ∧ tty_winsize (os w') 3 = Some (Winsize 50 132 0 0)
    ∧ tty_winsize (os w') 4 = Some (Winsize 50 132 0 0)
    ∧ terminals w' = terminals one_session.
Proof.
  apply (resize_sets_window_size one_session "A" (Terminal 3 4 100)
           (<["rows"%string := PyInt 50]> (<["cols"%string := PyInt 132]> ∅)) 50 132).
  - apply reachable_step, reachable_init.
  - vm_compute. reflexivity.
  - vm_compute. reflexivity.
  - vm_compute. reflexivity.
  - lia.
  - lia.
Defined.

(** C7 fails as stated: a resize event that carries 70000 rows and 80
    columns for the registered session [A] makes the handler raise
    [struct.error]; no window-size request reaches the PTY, whose size
    stays 24 rows by 80 columns. *)
Lemma resize_out_of_range_raises :
  terminals one_session !! "A"%string = Some (Terminal 3 4 100)
  ∧ size_80x70000 !! "rows"%string = Some (PyInt 70000)
  ∧ size_80x70000 !! "cols"%string = Some (PyInt 80)
  ∧ handle_terminal_resize "A" (PDict size_80x70000) one_session
    = (Raise StructError, one_session)
  ∧ tty_winsize (os one_session) 3 = Some (Winsize 24 80 0 0)
  ∧ tty_winsize (os one_session) 3 ≠ Some (Winsize 70000 80 0 0).
Proof. split_and!; by vm_compute. Qed.

(** ** The initial size of an init event *)

Lemma py_in_lookup k (d : gmap string pyval) v : d !! k = Some v → py_in k d = true.
Proof. intros H. unfold py_in. apply bool_decide_eq_true_2. eauto. Qed.

(** The test of the two keys on a payload that is a dictionary. *)
Lemma apply_initial_size_dict sid (d : gmap string pyval) w :
  apply_initial_size sid (PDict d) w
  = (if py_in "cols" d && py_in "rows" d
     then let* cols := py_getitem d "cols" in
          let* rows := py_getitem d "rows" in
          handle_terminal_resize sid
            (PDict (<["cols"%string := cols]> (<["rows"%string := rows]> ∅)))
     else ret tt) w.
Proof.
  unfold apply_initial_size, payload_in, payload_getitem, bind, ret.
  by destruct (py_in "cols" d), (py_in "rows" d).
Qed.

(** The initial size of an init event whose payload is a dictionary, for
    an unregistered identifier whose session is created. With one of the
    keys [cols] and [rows] or neither the handler completes, the PTY keeps
    the size [pty.openpty] gave it (no request is made: the system state is
    the one session creation left), the relay is started and the connected
    notice is emitted. With both keys holding integers from 0 to 65535 the
    handler completes, the PTY reports that size, the relay is started and
    the connected notice is emitted. *)
Lemma connect_initial_size (w w1 : world) (sid : string) (data : gmap string pyval) :
  terminals w !! sid = None →
  open_session sid w = (Ok tt, w1) →
  (py_in "cols" data && py_in "rows" data = false →
     handle_terminal_connect sid (PDict data) w
     = (Ok tt, set_emitted (λ l, l ++ [(sid, connected_notice (controller_serial w))])
                 (set_tasks (λ l, l ++ [(sid, RelayNew)]) w1))
     ∧ ∃ t, terminals w1 !! sid = Some t
            ∧ tty_winsize (os w1) (master_fd t) = Some (Winsize 0 0 0 0))
  ∧ (∀ r c, data !! "rows"%string = Some (PyInt r) →
            data !! "cols"%string = Some (PyInt c) →
            0 ≤ r ≤ 65535 → 0 ≤ c ≤ 65535 →
       ∃ w2 t, handle_terminal_connect sid (PDict data) w = (Ok tt, w2)
         ∧ terminals w2 !! sid = Some t
         ∧ tty_winsize (os w2) (master_fd t) = Some (Winsize r c 0 0)
         ∧ tasks w2 = tasks w ++ [(sid, RelayNew)]
         ∧ emitted w2 = emitted w ++ [(sid, connected_notice (controller_serial w))]).
Proof.
  intros Hnone Hopen. pose proof Hopen as Hfacts.
  apply open_session_ok in Hfacts
    as (m & s & Hm & Hs & Hms & Ht & He & Hta & Hse & Hf & Hp & Hq).
  cbv zeta in *. split.
  - intros Hkeys. split.
    + rewrite handle_terminal_connect_fresh by done.
      rewrite (bind_ok _ _ _ _ _ Hopen). unfold after_open. unfold bind at 1.
      rewrite apply_initial_size_dict, Hkeys.
      unfold bind, ret, start_background_task, get_world, emit_terminal_output, modify.
      simpl. by rewrite Hse.
    + exists (Terminal m s (next_pid (os w))). rewrite Ht, lookup_insert_eq.
      split; [done |]. unfold tty_winsize. simpl.
      rewrite Hf, Hp, lookup_insert_ne, !lookup_insert_eq by done. done.
  - intros r c Hrows Hcols Hr Hc.
    rewrite handle_terminal_connect_fresh by done.
    rewrite (bind_ok _ _ _ _ _ Hopen). unfold after_open. unfold bind at 1.
    rewrite apply_initial_size_dict.
    rewrite (py_in_lookup _ _ _ Hrows), (py_in_lookup _ _ _ Hcols). simpl.
    unfold py_getitem at 1 2. rewrite Hrows, Hcols.
    assert (Hresize :
      handle_terminal_resize sid
        (PDict (<["cols"%string := PyInt c]> (<["rows"%string := PyInt r]> ∅))) w1
      = (Ok tt, set_os (set_ptys (<[next_pty (os w)
                                   := pty_set_winsize (Winsize r c 0 0) fresh_pty]>)) w1)).
    { apply (handle_terminal_resize_live w1 sid (Terminal m s (next_pid (os w)))
               (next_pty (os w)) Master fresh_pty); try done.
      - rewrite Ht. apply lookup_insert_eq.
      - simpl. rewrite Hf. by rewrite lookup_insert_ne, lookup_insert_eq.
      - rewrite Hp. apply lookup_insert_eq. }
    unfold bind at 1. unfold bind at 1. unfold ret at 1 2.
    rewrite Hresize.
    unfold bind, ret, start_background_task, get_world, emit_terminal_output, modify.
    simpl. eexists _, (Terminal m s (next_pid (os w))). split; [reflexivity |].
    simpl. rewrite Ht, Hta, He, Hse, lookup_insert_eq. split_and!; try done.
    unfold tty_winsize. simpl.
    rewrite Hf, lookup_insert_ne, !lookup_insert_eq by done. done.
Qed.

(** C9, on the failing input. An init event for the unregistered
    identifier [A] with 80 columns and 70000 rows creates the session (PTY
    pair, shell and dictionary entry) and then raises [struct.error] from
    the resize: the window size is not set, no connected notice is emitted
    and no relay is started. A later init event of [A] finds the entry and
    does nothing, so the session stays without relay. An init event whose
    payload is [null] ends the same way, with the [TypeError] of the test
    for the keys. *)
Theorem connect_unpackable_size_sends_no_notice :
  terminals booted !! "A"%string = None
  ∧ open_session "A" booted = (Ok tt, opened)
  ∧ terminals opened !! "A"%string = Some (Terminal 3 4 100)
  ∧ tty_winsize (os opened) 3 = Some (Winsize 0 0 0 0)
  ∧ emitted opened = []
  ∧ tasks opened = []
  ∧ handle_terminal_connect "A" (PDict size_80x70000) booted = (Raise StructError, opened)
  ∧ handle_terminal_connect "A" PScalar booted = (Raise TypeError, opened)
  ∧ (∀ data, handle_terminal_connect "A" data opened = (Ok tt, opened)).
Proof.
  split_and!; by vm_compute.
Qed.

(** ** What the relay forwards *)







(** *** The UTF-8 codec *)

Lemma lor_add k b m n :
  m = 2 ^ n → 0 ≤ n → 0 ≤ b < m → k mod m = 0 → Z.lor k b = k + b.
Proof.
  intros -> Hn Hb Hk.
  assert (Hland : Z.land k b = 0).
  { apply Z.bits_inj'. intros i Hi. rewrite Z.land_spec, Z.bits_0.
    destruct (decide (i < n)) as [Hlt | Hge].
    - rewrite (Z_div_exact_full_2 k (2 ^ n)) by lia.
      rewrite Z.mul_comm, Z.mul_pow2_bits_low by lia. done.
    - rewrite <- (Z.mod_small b (2 ^ n)) by lia.
      rewrite Z.mod_pow2_bits_high by lia. apply andb_false_r. }
  rewrite <- Z.lxor_lor by done. symmetry. by apply Z.add_nocarry_lxor.
Qed.

Lemma land_low c m n : m = 2 ^ n → 0 ≤ n → Z.land c (m - 1) = c mod m.
Proof.
  intros -> Hn. replace (2 ^ n - 1) with (Z.ones n) by (rewrite Z.ones_equiv; lia).
  by apply Z.land_ones.
Qed.

Lemma is_cont_true b : 0x80 ≤ b ≤ 0xBF → is_cont b = true.
Proof. intros. unfold is_cont. by apply bool_decide_eq_true_2. Qed.

Ltac decide_lead :=
  repeat first [ rewrite bool_decide_eq_true_2 by lia
               | rewrite bool_decide_eq_false_2 by lia ].

Lemma decode_ascii b r :
  byte_val b < 0x80 →
  utf8_decode_replace (b :: r) = byte_val b :: utf8_decode_replace r.
Proof. intros Hb. cbn [utf8_decode_replace]. by decide_lead. Qed.

Lemma decode_two b0 b1 r :
  0xC2 ≤ byte_val b0 < 0xE0 → 0x80 ≤ byte_val b1 ≤ 0xBF →
  utf8_decode_replace (b0 :: b1 :: r)
  = Z.lor (Z.shiftl (Z.land (byte_val b0) 0x1F) 6) (cont_bits (byte_val b1))
    :: utf8_decode_replace r.
Proof.
  intros H0 H1. remember (b1 :: r) as tl eqn:Htl.
  cbn [utf8_decode_replace]. decide_lead. subst tl. cbv beta match.
  by rewrite is_cont_true.
Qed.

Lemma decode_three b0 b1 b2 r :
  0xE0 ≤ byte_val b0 < 0xF0 →
  (if bool_decide (byte_val b0 = 0xE0) then 0xA0 else 0x80) ≤ byte_val b1
    ≤ (if bool_decide (byte_val b0 = 0xED) then 0x9F else 0xBF) →
  0x80 ≤ byte_val b2 ≤ 0xBF →
  utf8_decode_replace (b0 :: b1 :: b2 :: r)
  = Z.lor (Z.shiftl (Z.land (byte_val b0) 0x0F) 12)
      (Z.lor (Z.shiftl (cont_bits (byte_val b1)) 6) (cont_bits (byte_val b2)))
    :: utf8_decode_replace r.
Proof.
  intros H0 H1 H2. remember (b1 :: b2 :: r) as tl eqn:Htl.
  cbn [utf8_decode_replace]. decide_lead. subst tl. cbv beta match zeta.
  rewrite (bool_decide_eq_true_2 (_ ≤ byte_val b1 ≤ _)) by done.
  by rewrite is_cont_true.
Qed.

Lemma decode_four b0 b1 b2 b3 r :
  0xF0 ≤ byte_val b0 < 0xF5 →
  (if bool_decide (byte_val b0 = 0xF0) then 0x90 else 0x80) ≤ byte_val b1
    ≤ (if bool_decide (byte_val b0 = 0xF4) then 0x8F else 0xBF) →
  0x80 ≤ byte_val b2 ≤ 0xBF →
  0x80 ≤ byte_val b3 ≤ 0xBF →
  utf8_decode_replace (b0 :: b1 :: b2 :: b3 :: r)
  = Z.lor (Z.shiftl (Z.land (byte_val b0) 0x07) 18)
      (Z.lor (Z.shiftl (cont_bits (byte_val b1)) 12)
         (Z.lor (Z.shiftl (cont_bits (byte_val b2)) 6) (cont_bits (byte_val b3))))
    :: utf8_decode_replace r.
Proof.
  intros H0 H1 H2 H3. remember (b1 :: b2 :: b3 :: r) as tl eqn:Htl.
  cbn [utf8_decode_replace]. decide_lead. subst tl. cbv beta match zeta.
  rewrite (bool_decide_eq_true_2 (_ ≤ byte_val b1 ≤ _)) by done.
  by rewrite !is_cont_true.
Qed.

Ltac arith := first [done | lia | (Z.div_mod_to_equations; lia)].

Ltac lor_side := first [by apply Z.mod_mul | arith].

(** Decoding undoes encoding, one code point at a time. *)
Lemma utf8_decode_encode_cp c bs rest :
  utf8_encode_cp c = Some bs →
  utf8_decode_replace (bs ++ rest) = c :: utf8_decode_replace rest.
Proof.
  unfold utf8_encode_cp.
  assert (H6 : ∀ x, Z.land x 0x3F = x mod 64) by (intros x; by apply (land_low x 64 6)).
  case_bool_decide as H1.
  { intros [= <-]. cbn [app].
    rewrite decode_ascii; rewrite byte_val_of_Z, Z.mod_small; arith. }
  case_bool_decide as H2.
  { intros [= <-]. cbn [app].
    assert (E0 : byte_val (byte_of_Z (Z.lor 192 (Z.shiftr c 6))) = 192 + c / 64).
    { rewrite byte_val_of_Z, Z.shiftr_div_pow2 by lia. change (2 ^ 6) with 64.
      rewrite (lor_add 192 _ 64 6) by arith. apply Z.mod_small. arith. }
    assert (E1 : byte_val (byte_of_Z (Z.lor 128 (Z.land c 63))) = 128 + c mod 64).
    { rewrite byte_val_of_Z, H6. rewrite (lor_add 128 _ 64 6) by arith.
      apply Z.mod_small. arith. }
    rewrite decode_two by (rewrite ?E0, ?E1; arith). f_equal. rewrite E0, E1.
    unfold cont_bits. rewrite H6, (land_low _ 32 5), Z.shiftl_mul_pow2 by arith.
    change (2 ^ 6) with 64.
    rewrite (lor_add _ _ 64 6) by lor_side. arith. }
  case_bool_decide as H3; [done |].
  case_bool_decide as H4.
  { intros [= <-]. cbn [app].
    assert (E0 : byte_val (byte_of_Z (Z.lor 224 (Z.shiftr c 12))) = 224 + c / 4096).
    { rewrite byte_val_of_Z, Z.shiftr_div_pow2 by lia. change (2 ^ 12) with 4096.
      rewrite (lor_add 224 _ 16 4) by arith. apply Z.mod_small. arith. }
    assert (E1 : byte_val (byte_of_Z (Z.lor 128 (Z.land (Z.shiftr c 6) 63)))
                 = 128 + (c / 64) mod 64).
    { rewrite byte_val_of_Z, H6, Z.shiftr_div_pow2 by lia. change (2 ^ 6) with 64.
      rewrite (lor_add 128 _ 64 6) by arith. apply Z.mod_small. arith. }
    assert (E2 : byte_val (byte_of_Z (Z.lor 128 (Z.land c 63))) = 128 + c mod 64).
    { rewrite byte_val_of_Z, H6. rewrite (lor_add 128 _ 64 6) by arith.
      apply Z.mod_small. arith. }
    rewrite decode_three; rewrite ?E0, ?E1, ?E2; [| arith | | arith].
    - f_equal. unfold cont_bits.
      rewrite !H6, (land_low _ 16 4), !Z.shiftl_mul_pow2 by arith.
      change (2 ^ 6) with 64. change (2 ^ 12) with 4096.
      rewrite (lor_add (_ * 64) _ 64 6) by lor_side.
      rewrite (lor_add _ _ 4096 12) by lor_side. arith.
    - repeat case_bool_decide; arith. }
  case_bool_decide as H5; [| done].
  intros [= <-]. cbn [app].
  assert (E0 : byte_val (byte_of_Z (Z.lor 240 (Z.shiftr c 18))) = 240 + c / 262144).
  { rewrite byte_val_of_Z, Z.shiftr_div_pow2 by lia. change (2 ^ 18) with 262144.
    rewrite (lor_add 240 _ 8 3) by arith. apply Z.mod_small. arith. }
  assert (E1 : byte_val (byte_of_Z (Z.lor 128 (Z.land (Z.shiftr c 12) 63)))
               = 128 + (c / 4096) mod 64).
  { rewrite byte_val_of_Z, H6, Z.shiftr_div_pow2 by lia. change (2 ^ 12) with 4096.
    rewrite (lor_add 128 _ 64 6) by arith. apply Z.mod_small. arith. }
  assert (E2 : byte_val (byte_of_Z (Z.lor 128 (Z.land (Z.shiftr c 6) 63)))
               = 128 + (c / 64) mod 64).
  { rewrite byte_val_of_Z, H6, Z.shiftr_div_pow2 by lia. change (2 ^ 6) with 64.
    rewrite (lor_add 128 _ 64 6) by arith. apply Z.mod_small. arith. }
  assert (E3 : byte_val (byte_of_Z (Z.lor 128 (Z.land c 63))) = 128 + c mod 64).
  { rewrite byte_val_of_Z, H6. rewrite (lor_add 128 _ 64 6) by arith.
    apply Z.mod_small. arith. }
  rewrite decode_four; rewrite ?E0, ?E1, ?E2, ?E3; [| arith | | arith | arith].
  - f_equal. unfold cont_bits.
    rewrite !H6, (land_low _ 8 3), !Z.shiftl_mul_pow2 by arith.
    change (2 ^ 6) with 64. change (2 ^ 12) with 4096. change (2 ^ 18) with 262144.
    rewrite (lor_add (_ * 64) _ 64 6) by lor_side.
    rewrite (lor_add (_ * 4096) _ 4096 12) by lor_side.
    rewrite (lor_add _ _ 262144 18) by lor_side. arith.
  - repeat case_bool_decide; arith.
Qed.

(** Text that was encoded as UTF-8 is decoded to itself: the decoder
    replaces nothing in well-formed input. *)
Lemma utf8_decode_encode s : ∀ bs,
  utf8_encode s = Some bs → utf8_decode_replace bs = s.
Proof.
  induction s as [| c s IH]; intros bs; simpl.
  - by intros [= <-].
  - destruct (utf8_encode_cp c) as [b |] eqn:Hc; [| done].
    destruct (utf8_encode s) as [bs' |]; [| done].
    intros [= <-]. rewrite (utf8_decode_encode_cp _ _ _ Hc). f_equal. by apply IH.
Qed.








(** *** The decoder replaces maximal subparts *)

Lemma byte_of_Z_val b : byte_of_Z (byte_val b) = b.
Proof.
  unfold byte_of_Z, byte_val.
  pose proof (Byte.to_N_bounded b) as Hb.
  rewrite Z.mod_small by lia. rewrite N2Z.id, Byte.of_to_N. done.
Qed.

#[local] Instance byte_val_inj : Inj (=) (=) byte_val.
Proof. intros a b H. rewrite <- (byte_of_Z_val a), <- (byte_of_Z_val b). by rewrite H. Qed.

















(** *** The decoder on an ill-formed head *)



















(** ** The completion notice *)

(** The turn that ends the relay's loop emits nothing. *)
Lemma relay_last_turn_is_silent sid master w w' :
  relay_iteration sid master w = (Ok false, w') → emitted w' = emitted w.
Proof.
  unfold relay_iteration. intros H.
  destruct (terminals w !! sid); [| by injection H as <-].
  unfold try_except, relay_body, bind in H.
  destruct (select_select master SELECT_TIMEOUT_MS w) as [[ready | e |] v1] eqn:Hsel;
    apply select_select_frame in Hsel as (_ & _ & _ & _ & He).
  - destruct ready; [| done].
    destruct (os_read master READ_SIZE v1) as [[raw | e |] v2] eqn:Hrd;
      apply os_read_frame in Hrd as (_ & _ & _ & _ & He2); [done | | done].
    injection H as <-. congruence.
  - by injection H as <-.
  - done.
Qed.

(** In the bridge of server.js the exit of the PTY process sends the
    notice, and sends it once. *)
Lemma NodeBridge_exit_sends_notice env data :
  NodeBridge.sent (NodeBridge.on_exit 0
                     (NodeBridge.on_terminal_init env data NodeBridge.connection))
  = [NodeBridge.PROCESS_COMPLETED]
  ∧ NodeBridge.on_exit 0 (NodeBridge.on_exit 0
        (NodeBridge.on_terminal_init env data NodeBridge.connection))
    = NodeBridge.on_exit 0 (NodeBridge.on_terminal_init env data NodeBridge.connection).
Proof. done. Qed.

(** ** How the shell is spawned *)

(** The bridge of server.js sets the terminal type itself. *)
Lemma NodeBridge_spawn_sets_TERM env data :
  NodeBridge.sp_env (NodeBridge.spawn_args env data) !! "TERM"%string
  = Some "xterm-256color"%string
  ∧ NodeBridge.sp_name (NodeBridge.spawn_args env data) = "xterm-256color"%string.
Proof.
  split; [| done]. unfold NodeBridge.spawn_args. simpl.
  by rewrite lookup_insert_ne, lookup_insert_eq.
Qed.

(** C4, on the failing input. On a server started with environment [env],
    the init event of client [A] spawns [/bin/bash] with standard input,
    output and error on the subordinate side of the new PTY and in a new
    session, and with exactly [env] as its environment: the handler sets no
    variable. On a server whose environment has no [TERM] the shell has
    none, where the bridge of server.js passes [TERM=xterm-256color]. *)
Theorem spawned_shell_inherits_environment :
  (∀ env, ∃ p,
      procs (os (step (EvConnect "A" (PDict size_80x24)) (initial_world env 1024 true None))) !! 100
      = Some p
      ∧ terminals (step (EvConnect "A" (PDict size_80x24)) (initial_world env 1024 true None))
          !! "A"%string = Some (Terminal 3 4 100)
      ∧ fds (os (step (EvConnect "A" (PDict size_80x24)) (initial_world env 1024 true None))) !! 4
        = Some (FdPty 0 Slave)
      ∧ p_argv p = ["/bin/bash"%string]
      ∧ p_stdin p = FdPty 0 Slave ∧ p_stdout p = FdPty 0 Slave ∧ p_stderr p = FdPty 0 Slave
      ∧ p_setsid p = true
      ∧ p_env p = env)
  ∧ (p_env <$> procs (os one_session) !! 100) ≫= (.!! "TERM"%string) = None
  ∧ NodeBridge.sp_env (NodeBridge.spawn_args ∅ (NodeBridge.InitData (NodeBridge.JNum 80)
                                                  (NodeBridge.JNum 24))) !! "TERM"%string
    = Some "xterm-256color"%string.
Proof.
  split_and!.
  - intros env. eexists. vm_compute. split_and!; reflexivity.
  - by vm_compute.
  - by vm_compute.
Qed.

(** * Further properties of the handlers *)

(** ** Locality *)

Lemma local_step_refl fd w : local_step fd w w.
Proof. by split. Qed.

Lemma local_step_trans fd w1 w2 w3 :
  local_step fd w1 w2 → local_step fd w2 w3 → local_step fd w1 w3.
Proof.
  intros [] []. split; try congruence.
  intros k Hk. rewrite ls_ptys1; [by apply ls_ptys0 |].
  intros s. rewrite ls_fds0. apply Hk.
Qed.

Lemma local_ret {A} fd (a : A) : local fd (ret a).
Proof. intros w. apply local_step_refl. Qed.

Lemma local_raise {A} fd e : local fd (@raise A e).
Proof. intros w. apply local_step_refl. Qed.

Lemma local_bind {A B} fd (c : M A) (k : A → M B) :
  local fd c → (∀ a, local fd (k a)) → local fd (bind c k).
Proof.
  intros Hc Hk w. unfold bind. specialize (Hc w).
  destruct (c w) as [[a | e |] w1]; [| done | done].
  eapply local_step_trans; [exact Hc | apply Hk].
Qed.

Lemma local_try {A} fd (c h : M A) : local fd c → local fd h → local fd (try_except c h).
Proof.
  intros Hc Hh w. unfold try_except. specialize (Hc w).
  destruct (c w) as [[a | e |] w1]; [done | | done].
  eapply local_step_trans; [exact Hc | apply Hh].
Qed.

Lemma local_get_world fd : local fd get_world.
Proof. intros w. apply local_step_refl. Qed.

Lemma local_emit fd sid data : local fd (emit_terminal_output sid data).
Proof. intros w. by split. Qed.

Lemma local_start fd sid : local fd (start_background_task sid).
Proof. intros w. by split. Qed.

Lemma local_getitem fd d k : local fd (py_getitem d k).
Proof. unfold py_getitem. destruct (d !! k); [apply local_ret | apply local_raise]. Qed.

Lemma local_payload_getitem fd d k : local fd (payload_getitem d k).
Proof. destruct d; first [apply local_getitem | apply local_raise]. Qed.

Lemma local_payload_in fd k d : local fd (payload_in k d).
Proof. destruct d; first [apply local_ret | apply local_raise]. Qed.

Lemma local_encode fd v : local fd (py_encode v).
Proof.
  unfold py_encode. destruct v as [z | s |]; try apply local_raise.
  destruct (utf8_encode s); [apply local_ret | apply local_raise].
Qed.

Lemma local_pack fd a b c d : local fd (struct_pack_HHHH a b c d).
Proof.
  unfold struct_pack_HHHH.
  destruct (pack_H a), (pack_H b), (pack_H c), (pack_H d);
    first [apply local_ret | apply local_raise].
Qed.

Lemma local_step_pty fd w k s p :
  fds (os w) !! fd = Some (FdPty k s) →
  local_step fd w (set_os (set_ptys (<[k := p]>)) w).
Proof.
  intros Hfd. split; try done. simpl. intros k' Hk'.
  apply lookup_insert_ne. intros ->. by apply (Hk' s).
Qed.

Lemma local_os_write fd bs : local fd (os_write fd bs).
Proof.
  intros w. unfold os_write.
  destruct (fds (os w) !! fd) as [[k s |] |] eqn:Hfd; try apply local_step_refl.
  destruct (ptys (os w) !! k) as [p |]; [| apply local_step_refl].
  destruct s; by eapply local_step_pty.
Qed.

Lemma local_ioctl fd arg : local fd (fcntl_ioctl_TIOCSWINSZ fd arg).
Proof.
  intros w. unfold fcntl_ioctl_TIOCSWINSZ.
  destruct (fds (os w) !! fd) as [[k s |] |] eqn:Hfd; try apply local_step_refl.
  destruct (ptys (os w) !! k) as [p |], (winsize_of_bytes arg) as [ws |];
    try apply local_step_refl.
  by eapply local_step_pty.
Qed.

Lemma local_select fd t : local fd (select_select fd t).
Proof.
  intros w. unfold select_select.
  case_bool_decide; [| apply local_step_refl].
  destruct (fds (os w) !! fd) as [d |]; [| apply local_step_refl].
  destruct (readable (os w) d); [apply local_step_refl | by split].
Qed.

Lemma local_os_read fd n : local fd (os_read fd n).
Proof.
  intros w. unfold os_read.
  destruct (fds (os w) !! fd) as [[k s |] |] eqn:Hfd; try apply local_step_refl.
  destruct (ptys (os w) !! k) as [p |]; [| apply local_step_refl].
  destruct s.
  - destruct (pty_out p); [destruct (pty_hup p); apply local_step_refl |].
    by eapply local_step_pty.
  - destruct (pty_in p); [apply local_step_refl |]. by eapply local_step_pty.
Qed.

Create HintDb local_db.
#[local] Hint Resolve local_ret local_raise local_get_world local_emit local_start
  local_getitem local_payload_getitem local_payload_in local_encode local_pack
  local_os_write local_ioctl local_select local_os_read : local_db.

Ltac local_step_tac :=
  first [ apply local_bind; [| intros ?] | apply local_try
        | solve [eauto with local_db] ].

(** An input event touches the PTY of the session's control-side descriptor
    and nothing else; without a session it touches nothing. *)
Lemma input_local w sid t data :
  terminals w !! sid = Some t →
  local_step (master_fd t) w (handle_terminal_input sid data w).2.
Proof.
  intros Hlive. unfold handle_terminal_input.
  rewrite (bind_ok get_world _ w w w) by done. rewrite Hlive.
  assert (H : local (master_fd t)
                (let* d := payload_getitem data "data" in
                 let* bs := py_encode d in os_write (master_fd t) bs))
    by repeat local_step_tac.
  apply H.
Qed.

Lemma resize_local w sid t data :
  terminals w !! sid = Some t →
  local_step (master_fd t) w (handle_terminal_resize sid data w).2.
Proof.
  intros Hlive. unfold handle_terminal_resize.
  rewrite (bind_ok get_world _ w w w) by done. rewrite Hlive.
  assert (H : local (master_fd t)
                (let* rows := payload_getitem data "rows" in
                 let* cols := payload_getitem data "cols" in
                 let* winsize := struct_pack_HHHH rows cols (PyInt 0) (PyInt 0) in
                 fcntl_ioctl_TIOCSWINSZ (master_fd t) winsize))
    by repeat local_step_tac.
  apply H.
Qed.



(** ** Input events *)

(** An input event with a text for a registered session: the one change
    is that the encoded text is written into the control side of its PTY,
    behind what was written before. *)
Lemma handle_terminal_input_live w sid t k p (data : gmap string pyval) s bs :
  terminals w !! sid = Some t →
  fds (os w) !! master_fd t = Some (FdPty k Master) →
  ptys (os w) !! k = Some p →
  data !! "data"%string = Some (PyStr s) →
  utf8_encode s = Some bs →
  handle_terminal_input sid (PDict data) w
  = (Ok tt, set_os (set_ptys (<[k := pty_push_in bs p]>)) w).
Proof.
  intros Hlive Hfd Hp Hdata Henc. unfold handle_terminal_input.
  rewrite (bind_ok get_world _ w w w) by done. rewrite Hlive.
  unfold payload_getitem, py_getitem. rewrite Hdata.
  rewrite (bind_ok (ret (PyStr s)) _ w w (PyStr s)) by done.
  unfold py_encode. rewrite Henc.
  rewrite (bind_ok (ret bs) _ w w bs) by done.
  unfold os_write. by rewrite Hfd, Hp.
Qed.

Lemma utf8_encode_app s1 s2 b1 b2 :
  utf8_encode s1 = Some b1 → utf8_encode s2 = Some b2 →
  utf8_encode (s1 ++ s2) = Some (b1 ++ b2).
Proof.
  revert b1. induction s1 as [| c s1 IH]; intros b1; simpl.
  - by intros [= <-].
  - destruct (utf8_encode_cp c) as [b |]; [| done].
    destruct (utf8_encode s1) as [bs |]; [| done].
    intros [= <-] H2. rewrite (IH bs eq_refl H2). by rewrite app_assoc.
Qed.

Lemma utf8_encode_concat texts bss :
  Forall2 (λ s bs, utf8_encode s = Some bs) texts bss →
  utf8_encode (concat texts) = Some (concat bss).
Proof.
  induction 1 as [| s bs texts bss Hs _ IH]; [done |].
  simpl. by apply utf8_encode_app.
Qed.

Lemma pty_push_in_app a b p : pty_push_in b (pty_push_in a p) = pty_push_in (a ++ b) p.
Proof. unfold pty_push_in. simpl. by rewrite app_assoc. Qed.

Lemma pty_push_in_nil p : pty_push_in [] p = p.
Proof. destruct p. unfold pty_push_in. simpl. by rewrite app_nil_r. Qed.

(** X1. The texts of a run of input events for a registered session are
    written into the control side of the session's PTY in the order of the
    events, each as its UTF-8 encoding and with nothing in between, behind
    what was written there before; the bytes written are the encoding of
    the texts put together, and decode to them. The registry, the
    descriptors and the events sent to clients stay as they were. *)
Theorem input_reaches_shell_in_order (w : world) (sid : string) (t : terminal) (k : nat)
    (p : pty_state) (datas : list (gmap string pyval)) (texts : list pystr)
    (bss : list pybytes) :
  terminals w !! sid = Some t →
  fds (os w) !! master_fd t = Some (FdPty k Master) →
  ptys (os w) !! k = Some p →
  Forall2 (λ d s, d !! "data"%string = Some (PyStr s)) datas texts →
  Forall2 (λ s bs, utf8_encode s = Some bs) texts bss →
  pty_in <$> ptys (os (run (EvInput sid <$> (PDict <$> datas)) w)) !! k
  = Some (pty_in p ++ concat bss)
  ∧ utf8_encode (concat texts) = Some (concat bss)
  ∧ utf8_decode_replace (concat bss) = concat texts
  ∧ terminals (run (EvInput sid <$> (PDict <$> datas)) w) = terminals w
  ∧ fds (os (run (EvInput sid <$> (PDict <$> datas)) w)) = fds (os w)
  ∧ emitted (run (EvInput sid <$> (PDict <$> datas)) w) = emitted w.
Proof.
  intros Hlive Hfd Hp Hdatas Henc.
  split_and!; [| by apply utf8_encode_concat
               | by apply utf8_decode_encode, utf8_encode_concat | | |].
  all: revert w p bss Hlive Hfd Hp Henc;
    induction Hdatas as [| d s datas texts Hd _ IH]; intros w p bss Hlive Hfd Hp Henc;
    inversion Henc as [| ? bs ? bss' Hs Hrest]; subst; simpl.
  - by rewrite Hp, app_nil_r.
  - rewrite (handle_terminal_input_live w sid t k p d s bs) by done. simpl.
    rewrite (IH _ (pty_push_in bs p) bss'); try done.
    + simpl. by rewrite app_assoc.
    + simpl. apply lookup_insert_eq.
  - done.
  - rewrite (handle_terminal_input_live w sid t k p d s bs) by done. simpl.
    by rewrite (IH _ (pty_push_in bs p) bss'); try done; simpl; try apply lookup_insert_eq.
  - done.
  - rewrite (handle_terminal_input_live w sid t k p d s bs) by done. simpl.
    by rewrite (IH _ (pty_push_in bs p) bss'); try done; simpl; try apply lookup_insert_eq.
  - done.
  - rewrite (handle_terminal_input_live w sid t k p d s bs) by done. simpl.
    by rewrite (IH _ (pty_push_in bs p) bss'); try done; simpl; try apply lookup_insert_eq.
Qed.

Lemma input_reaches_shell_in_order_witness :
  pty_in <$> ptys (os (run (EvInput "A" <$> (PDict <$> (input_payload <$> typed_texts)))
                         one_session)) !! 0%nat
  = Some (pty_in pty_80x24 ++ concat typed_bytes)
  ∧ utf8_encode (concat typed_texts) = Some (concat typed_bytes)
  ∧ utf8_decode_replace (concat typed_bytes) = concat typed_texts
  ∧ terminals (run (EvInput "A" <$> (PDict <$> (input_payload <$> typed_texts))) one_session)
    = terminals one_session
  ∧ fds (os (run (EvInput "A" <$> (PDict <$> (input_payload <$> typed_texts))) one_session))
    = fds (os one_session)
  ∧ emitted (run (EvInput "A" <$> (PDict <$> (input_payload <$> typed_texts))) one_session)
    = emitted one_session.
Proof.
  apply (input_reaches_shell_in_order one_session "A" (Terminal 3 4 100) 0%nat pty_80x24
           (input_payload <$> typed_texts) typed_texts typed_bytes).
  - vm_compute. reflexivity.
  - vm_compute. reflexivity.
  - vm_compute. reflexivity.
  - repeat constructor.
  - repeat constructor.
Defined.

(** ** Events that fail *)

Lemma os_write_raise fd bs e w w1 : os_write fd bs w = (Raise e, w1) → w1 = w.
Proof.
  unfold os_write. intros H.
  destruct (fds (os w) !! fd) as [[k s |] |]; [| done | by injection H].
  destruct (ptys (os w) !! k) as [p |]; [| by injection H].
  by destruct s.
Qed.

Lemma ioctl_raise fd arg e w w1 :
  fcntl_ioctl_TIOCSWINSZ fd arg w = (Raise e, w1) → w1 = w.
Proof.
  unfold fcntl_ioctl_TIOCSWINSZ. intros H.
  destruct (fds (os w) !! fd) as [[k s |] |]; [| by injection H | by injection H].
  destruct (ptys (os w) !! k) as [p |], (winsize_of_bytes arg) as [ws |];
    done || by injection H.
Qed.

Lemma handle_terminal_input_raise sid data e w w1 :
  handle_terminal_input sid data w = (Raise e, w1) → w1 = w.
Proof.
  unfold handle_terminal_input. rewrite (bind_ok get_world _ w w w) by done.
  destruct (terminals w !! sid) as [t |]; [| done].
  unfold bind. destruct data as [data | | |]; try by intros [= _ <-].
  unfold payload_getitem, py_getitem.
  destruct (data !! "data"%string) as [v |]; [| by intros [= _ <-]].
  simpl. unfold py_encode.
  destruct v as [z | s |]; [by intros [= _ <-] | | by intros [= _ <-]].
  destruct (utf8_encode s) as [bs |]; [| by intros [= _ <-]]. simpl.
  destruct (os_write (master_fd t) bs w) as [[[] | e' |] v1] eqn:Hw; [done | | done].
  intros [= _ <-]. by apply os_write_raise in Hw.
Qed.

Lemma handle_terminal_resize_raise sid data e w w1 :
  handle_terminal_resize sid data w = (Raise e, w1) → w1 = w.
Proof.
  unfold handle_terminal_resize. rewrite (bind_ok get_world _ w w w) by done.
  destruct (terminals w !! sid) as [t |]; [| done].
  unfold bind. destruct data as [data | | |]; try by intros [= _ <-].
  unfold payload_getitem, py_getitem.
  destruct (data !! "rows"%string) as [r |]; [| by intros [= _ <-]]. simpl.
  destruct (data !! "cols"%string) as [c |]; [| by intros [= _ <-]]. simpl.
  unfold struct_pack_HHHH.
  destruct (pack_H r) as [a |]; [| by intros [= _ <-]].
  destruct (pack_H c) as [b |]; [| by intros [= _ <-]].
  destruct (pack_H (PyInt 0)) as [z |]; [| by intros [= _ <-]]. simpl.
  destruct (fcntl_ioctl_TIOCSWINSZ _ _ w) as [[[] | e' |] v1] eqn:Hio; [done | | done].
  intros [= _ <-]. by apply ioctl_raise in Hio.
Qed.

(** X2. An input or resize event that raises has changed nothing, whatever
    the world and the payload. For a registered session: an input payload
    without [data] raises [KeyError], one whose [data] is not a string
    raises [AttributeError], one whose text holds a surrogate raises
    [UnicodeEncodeError]; a resize payload without [rows] raises
    [KeyError] for [rows] (also when [cols] is missing too), one with
    [rows] but without [cols] raises [KeyError] for [cols], and one whose
    sizes are not integers raises [struct.error]. *)
Theorem failed_event_changes_nothing (w : world) (sid : string) (t : terminal)
    (data : gmap string pyval) :
  terminals w !! sid = Some t →
  (∀ v sid' d e v1, handle_terminal_input sid' d v = (Raise e, v1) → v1 = v)
  ∧ (∀ v sid' d e v1, handle_terminal_resize sid' d v = (Raise e, v1) → v1 = v)
  ∧ (data !! "data"%string = None →
       handle_terminal_input sid (PDict data) w = (Raise (KeyError "data"), w))
  ∧ (∀ z, data !! "data"%string = Some (PyInt z) →
       handle_terminal_input sid (PDict data) w = (Raise AttributeError, w))
  ∧ (data !! "data"%string = Some PyNone →
       handle_terminal_input sid (PDict data) w = (Raise AttributeError, w))
  ∧ (∀ s, data !! "data"%string = Some (PyStr s) → utf8_encode s = None →
       handle_terminal_input sid (PDict data) w = (Raise UnicodeEncodeError, w))
  ∧ (data !! "rows"%string = None →
       handle_terminal_resize sid (PDict data) w = (Raise (KeyError "rows"), w))
  ∧ (is_Some (data !! "rows"%string) → data !! "cols"%string = None →
       handle_terminal_resize sid (PDict data) w = (Raise (KeyError "cols"), w))
  ∧ (∀ r c, data !! "rows"%string = Some r → data !! "cols"%string = Some c →
       (∀ z, r ≠ PyInt z) ∨ (∀ z, c ≠ PyInt z) →
       handle_terminal_resize sid (PDict data) w = (Raise StructError, w)).
Proof.
  intros Hlive. split_and!.
  - intros v sid' d e v1. apply handle_terminal_input_raise.
  - intros v sid' d e v1. apply handle_terminal_resize_raise.
  - intros Hd. unfold handle_terminal_input.
    rewrite (bind_ok get_world _ w w w) by done. rewrite Hlive.
    unfold payload_getitem, py_getitem, bind. by rewrite Hd.
  - intros z Hd. unfold handle_terminal_input.
    rewrite (bind_ok get_world _ w w w) by done. rewrite Hlive.
    unfold payload_getitem, py_getitem, bind. by rewrite Hd.
  - intros Hd. unfold handle_terminal_input.
    rewrite (bind_ok get_world _ w w w) by done. rewrite Hlive.
    unfold payload_getitem, py_getitem, bind. by rewrite Hd.
  - intros s Hd Henc. unfold handle_terminal_input.
    rewrite (bind_ok get_world _ w w w) by done. rewrite Hlive.
    unfold payload_getitem, py_getitem, bind. rewrite Hd. simpl. by rewrite Henc.
  - intros Hr. unfold handle_terminal_resize.
    rewrite (bind_ok get_world _ w w w) by done. rewrite Hlive.
    unfold payload_getitem, py_getitem, bind. by rewrite Hr.
  - intros [r Hr] Hc. unfold handle_terminal_resize.
    rewrite (bind_ok get_world _ w w w) by done. rewrite Hlive.
    unfold payload_getitem, py_getitem, bind. rewrite Hr. simpl. by rewrite Hc.
  - intros r c Hr Hc Hbad. unfold handle_terminal_resize.
    rewrite (bind_ok get_world _ w w w) by done. rewrite Hlive.
    unfold payload_getitem, py_getitem, bind. rewrite Hr. simpl. rewrite Hc. simpl.
    unfold struct_pack_HHHH.
    destruct Hbad as [Hbad | Hbad].
    + destruct r as [z | s |]; [by destruct (Hbad z) | done | done].
    + destruct (pack_H r); [| done].
      destruct c as [z | s |]; [by destruct (Hbad z) | done | done].
Qed.

Lemma failed_event_changes_nothing_witness :
  (∀ v sid' d e v1, handle_terminal_input sid' d v = (Raise e, v1) → v1 = v)
  ∧ (∀ v sid' d e v1, handle_terminal_resize sid' d v = (Raise e, v1) → v1 = v)
  ∧ (cols_only !! "data"%string = None →
       handle_terminal_input "A" (PDict cols_only) one_session = (Raise (KeyError "data"), one_session))
  ∧ (∀ z, cols_only !! "data"%string = Some (PyInt z) →
       handle_terminal_input "A" (PDict cols_only) one_session = (Raise AttributeError, one_session))
  ∧ (cols_only !! "data"%string = Some PyNone →
       handle_terminal_input "A" (PDict cols_only) one_session = (Raise AttributeError, one_session))
  ∧ (∀ s, cols_only !! "data"%string = Some (PyStr s) → utf8_encode s = None →
       handle_terminal_input "A" (PDict cols_only) one_session = (Raise UnicodeEncodeError, one_session))
  ∧ (cols_only !! "rows"%string = None →
       handle_terminal_resize "A" (PDict cols_only) one_session = (Raise (KeyError "rows"), one_session))
  ∧ (is_Some (cols_only !! "rows"%string) → cols_only !! "cols"%string = None →
       handle_terminal_resize "A" (PDict cols_only) one_session = (Raise (KeyError "cols"), one_session))
  ∧ (∀ r c, cols_only !! "rows"%string = Some r → cols_only !! "cols"%string = Some c →
       (∀ z, r ≠ PyInt z) ∨ (∀ z, c ≠ PyInt z) →
       handle_terminal_resize "A" (PDict cols_only) one_session = (Raise StructError, one_session)).
Proof.
  apply (failed_event_changes_nothing one_session "A" (Terminal 3 4 100) cols_only).
  vm_compute. reflexivity.
Defined.

(** ** Resize events *)

(** X3. A resize event with rows and columns from 0 to 65535 for a
    registered session changes the window size of the session's PTY and
    nothing else: the bytes queued in either direction, the registry, the
    descriptors, the processes, the tasks and the events sent are as
    before. A second resize overrides the first: the world after both is
    the world after the second alone. *)
Theorem resize_changes_only_window_size (w : world) (sid : string) (t : terminal)
    (d1 d2 : gmap string pyval) (r1 c1 r2 c2 : Z) :
  reachable w →
  terminals w !! sid = Some t →
  d1 !! "rows"%string = Some (PyInt r1) → d1 !! "cols"%string = Some (PyInt c1) →
  d2 !! "rows"%string = Some (PyInt r2) → d2 !! "cols"%string = Some (PyInt c2) →
  0 ≤ r1 ≤ 65535 → 0 ≤ c1 ≤ 65535 → 0 ≤ r2 ≤ 65535 → 0 ≤ c2 ≤ 65535 →
  ∃ k p, fds (os w) !! master_fd t = Some (FdPty k Master)
    ∧ ptys (os w) !! k = Some p
    ∧ step (EvResize sid (PDict d1)) w
      = set_os (set_ptys (<[k := PtyState (Winsize r1 c1 0 0) (pty_out p) (pty_in p) (pty_hup p)]>)) w
    ∧ step (EvResize sid (PDict d2)) (step (EvResize sid (PDict d1)) w) = step (EvResize sid (PDict d2)) w.
Proof.
  intros Hreach Hlive Hr1 Hc1 Hr2 Hc2 ? ? ? ?.
  destruct (wf_sessions w (reachable_wf w Hreach) sid t Hlive)
    as (k & Hm & Hs & [p Hp] & _).
  exists k, p. split_and!; [done | done | |].
  - simpl. by rewrite (handle_terminal_resize_live w sid t k Master p d1 r1 c1).
  - simpl. rewrite (handle_terminal_resize_live w sid t k Master p d1 r1 c1) by done.
    rewrite (handle_terminal_resize_live w sid t k Master p d2 r2 c2) by done. simpl.
    rewrite (handle_terminal_resize_live _ sid t k Master
               (pty_set_winsize (Winsize r1 c1 0 0) p) d2 r2 c2); try done.
    + simpl. unfold set_os, set_ptys. simpl. by rewrite insert_insert_eq.
    + simpl. apply lookup_insert_eq.
Qed.

Lemma resize_changes_only_window_size_witness :
  ∃ k p, fds (os one_session) !! 3 = Some (FdPty k Master)
    ∧ ptys (os one_session) !! k = Some p
    ∧ step (EvResize "A" (PDict (resize_payload 50 132))) one_session
      = set_os (set_ptys (<[k := PtyState (Winsize 50 132 0 0) (pty_out p) (pty_in p)
                                     (pty_hup p)]>)) one_session
    ∧ step (EvResize "A" (PDict (resize_payload 30 100)))
        (step (EvResize "A" (PDict (resize_payload 50 132))) one_session)
      = step (EvResize "A" (PDict (resize_payload 30 100))) one_session.
Proof.
  apply (resize_changes_only_window_size one_session "A" (Terminal 3 4 100)
           (resize_payload 50 132) (resize_payload 30 100) 50 132 30 100).
  - apply reachable_step, reachable_init.
  - vm_compute. reflexivity.
  - vm_compute. reflexivity.
  - vm_compute. reflexivity.
  - vm_compute. reflexivity.
  - vm_compute. reflexivity.
  - lia.
  - lia.
  - lia.
  - lia.
Defined.

(** ** Who is sent events *)

Lemma silent_run {A} (c : M A) w r w1 :
  silent c → c w = (r, w1) → emitted w1 = emitted w ∧ tasks w1 = tasks w.
Proof. intros Hc H. specialize (Hc w). by rewrite H in Hc. Qed.

Lemma silent_ret {A} (a : A) : silent (ret a).
Proof. by intros w. Qed.

Lemma silent_raise {A} e : silent (@raise A e).
Proof. by intros w. Qed.

Lemma silent_bind {A B} (c : M A) (k : A → M B) :
  silent c → (∀ a, silent (k a)) → silent (bind c k).
Proof.
  intros Hc Hk w. unfold bind. specialize (Hc w).
  destruct (c w) as [[a | e |] w1]; [| done | done].
  simpl in Hc. destruct Hc as [He Ht], (Hk a w1) as [He' Ht']. split; congruence.
Qed.

Lemma silent_get_world : silent get_world.
Proof. by intros w. Qed.

Lemma silent_set_terminals f : silent (modify (set_terminals f)).
Proof. by intros w. Qed.

Lemma silent_getitem d k : silent (py_getitem d k).
Proof. unfold py_getitem. destruct (d !! k); [apply silent_ret | apply silent_raise]. Qed.

Lemma silent_payload_getitem d k : silent (payload_getitem d k).
Proof. destruct d; first [apply silent_getitem | apply silent_raise]. Qed.

Lemma silent_payload_in k d : silent (payload_in k d).
Proof. destruct d; first [apply silent_ret | apply silent_raise]. Qed.

Lemma silent_encode v : silent (py_encode v).
Proof.
  unfold py_encode. destruct v as [z | s |]; try apply silent_raise.
  destruct (utf8_encode s); [apply silent_ret | apply silent_raise].
Qed.

Lemma silent_pack a b c d : silent (struct_pack_HHHH a b c d).
Proof.
  unfold struct_pack_HHHH.
  destruct (pack_H a), (pack_H b), (pack_H c), (pack_H d);
    first [apply silent_ret | apply silent_raise].
Qed.

(** Discharge [silent] for an operating-system call. *)
Ltac silent_cases :=
  intros w; cbv beta delta [os_write os_read select_select fcntl_ioctl_TIOCSWINSZ
                            Popen_terminate os_close pty_openpty subprocess_Popen];
  cbv zeta;
  repeat match goal with
         | |- context [match ?x with _ => _ end] => destruct x
         end;
  done.

Lemma silent_os_write fd bs : silent (os_write fd bs).
Proof. silent_cases. Qed.

Lemma silent_os_read fd n : silent (os_read fd n).
Proof. silent_cases. Qed.

Lemma silent_select fd t : silent (select_select fd t).
Proof. silent_cases. Qed.

Lemma silent_ioctl fd arg : silent (fcntl_ioctl_TIOCSWINSZ fd arg).
Proof. silent_cases. Qed.

Lemma silent_terminate pid : silent (Popen_terminate pid).
Proof. silent_cases. Qed.

Lemma silent_close fd : silent (os_close fd).
Proof. silent_cases. Qed.

Lemma silent_openpty : silent pty_openpty.
Proof. silent_cases. Qed.

Lemma silent_Popen args i o e b : silent (subprocess_Popen args i o e b).
Proof. silent_cases. Qed.

Create HintDb silent_db.
#[local] Hint Resolve silent_ret silent_raise silent_get_world silent_set_terminals
  silent_getitem silent_payload_getitem silent_payload_in silent_encode silent_pack
  silent_os_write silent_os_read silent_select silent_ioctl silent_terminate silent_close
  silent_openpty silent_Popen : silent_db.

Ltac silent_step :=
  first [ apply silent_bind; [| intros ?] | solve [eauto with silent_db] ].

Lemma silent_input sid data : silent (handle_terminal_input sid data).
Proof.
  unfold handle_terminal_input. apply silent_bind; [eauto with silent_db |].
  intros w. destruct (terminals w !! sid); repeat silent_step.
Qed.

Lemma silent_resize sid data : silent (handle_terminal_resize sid data).
Proof.
  unfold handle_terminal_resize. apply silent_bind; [eauto with silent_db |].
  intros w. destruct (terminals w !! sid); repeat silent_step.
Qed.

Lemma silent_disconnect sid : silent (handle_disconnect sid).
Proof.
  unfold handle_disconnect. apply silent_bind; [eauto with silent_db |].
  intros w. destruct (terminals w !! sid); repeat silent_step.
Qed.

Lemma silent_open_session sid : silent (open_session sid).
Proof.
  unfold open_session. apply silent_bind; [eauto with silent_db |].
  intros [m s]. repeat silent_step.
Qed.

Lemma silent_apply_initial_size sid data : silent (apply_initial_size sid data).
Proof.
  unfold apply_initial_size.
  apply silent_bind; [eauto with silent_db | intros has_cols].
  apply silent_bind; [destruct has_cols; eauto with silent_db | intros both].
  destruct both; [| eauto with silent_db].
  apply silent_bind; [eauto with silent_db | intros c].
  apply silent_bind; [eauto with silent_db | intros r].
  apply silent_resize.
Qed.

(** After the entry is stored the handler sends one event to its client
    or, when the initial size raises, none. *)
Lemma after_open_emitted sid data w :
  emitted (after_open sid data w).2 = emitted w
  ∨ ∃ d, emitted (after_open sid data w).2 = emitted w ++ [(sid, d)].
Proof.
  unfold after_open. unfold bind.
  destruct (apply_initial_size sid data w) as [[[] | e |] w1] eqn:Hrun;
    apply (silent_run _ _ _ _ (silent_apply_initial_size sid data)) in Hrun as [He _];
    simpl; [| by left | by left].
  right. eexists. by rewrite He.
Qed.

(** A step of a relay sends nothing, or it is the [socketio.emit] and sends
    the output the task holds to the client the task was started for. *)
Lemma run_relay_emitted i w :
  emitted (run_relay i w) = emitted w
  ∨ ∃ sid master output, tasks w !! i = Some (sid, RelayEmit master output)
      ∧ emitted (run_relay i w) = emitted w ++ [(sid, output)].
Proof.
  unfold run_relay, set_pc.
  destruct (tasks w !! i) as [[sid [| | m | m | m | m out |]] |]; try by left.
  - left. by destruct (terminals w !! sid).
  - left. by destruct (terminals w !! sid).
  - left. by destruct (terminals w !! sid).
  - left. destruct (select_select m SELECT_TIMEOUT_MS w) as [[[] | e |] w1] eqn:Hsel;
      by apply (silent_run _ _ _ _ (silent_select _ _)) in Hsel as [He _].
  - left. destruct (os_read m READ_SIZE w) as [[raw | e |] w1] eqn:Hrd;
      by apply (silent_run _ _ _ _ (silent_os_read _ _)) in Hrd as [He _].
  - right. by exists sid, m, out.
Qed.

(** X4. Whatever the world, a step of the server adds at most one event to
    those sent, and only an init event or a turn of a relay adds one: the
    init event to the client that sent it, the relay to the client whose
    session it was started for. Input, resize and disconnect events and
    what the shells do send nothing, and no step takes an event back. *)
Theorem events_go_to_their_client (w : world) (a : action) :
  ∃ evs, emitted (step a w) = emitted w ++ evs
    ∧ (length evs ≤ 1)%nat
    ∧ match a with
      | EvConnect sid _ => ∀ ev, ev ∈ evs → ev.1 = sid
      | RunRelay i => ∀ ev, ev ∈ evs → ∃ pc, tasks w !! i = Some (ev.1, pc)
      | _ => evs = []
      end.
Proof.
  destruct a as [sid data | sid data | sid data | sid | i | k bs | pid | k]; simpl.
  - destruct (terminals w !! sid) as [t |] eqn:Hlive.
    + exists []. unfold handle_terminal_connect.
      rewrite (bind_ok get_world _ w w w) by done. rewrite Hlive. simpl.
      rewrite app_nil_r. split_and!; [done | lia | by intros ev H%elem_of_nil].
    + rewrite handle_terminal_connect_fresh by done. unfold bind.
      destruct (open_session sid w) as [[[] | e |] w1] eqn:Hopen;
        apply (silent_run _ _ _ _ (silent_open_session sid)) in Hopen as [He _]; simpl.
      * destruct (after_open_emitted sid data w1) as [H | [d H]]; rewrite H, He.
        -- exists []. rewrite app_nil_r.
           split_and!; [done | simpl; lia | by intros ev H'%elem_of_nil].
        -- exists [(sid, d)]. split_and!; [done | simpl; lia |].
           intros ev Hev%list_elem_of_singleton. by subst.
      * exists []. rewrite app_nil_r, He.
        split_and!; [done | simpl; lia | by intros ev H'%elem_of_nil].
      * exists []. rewrite app_nil_r, He.
        split_and!; [done | simpl; lia | by intros ev H'%elem_of_nil].
  - exists []. rewrite app_nil_r. destruct (silent_input sid data w) as [-> _].
    split_and!; [done | simpl; lia | done].
  - exists []. rewrite app_nil_r. destruct (silent_resize sid data w) as [-> _].
    split_and!; [done | simpl; lia | done].
  - exists []. rewrite app_nil_r. destruct (silent_disconnect sid w) as [-> _].
    split_and!; [done | simpl; lia | done].
  - destruct (run_relay_emitted i w) as [H | (sid & master & output & Hi & H)]; rewrite H.
    + exists []. rewrite app_nil_r.
      split_and!; [done | simpl; lia | by intros ev H'%elem_of_nil].
    + exists [(sid, output)]. split_and!; [done | simpl; lia |].
      intros ev ->%list_elem_of_singleton. by eexists.
  - exists []. rewrite app_nil_r. split_and!; [done | simpl; lia | done].
  - exists []. rewrite app_nil_r. split_and!; [done | simpl; lia | done].
  - exists []. rewrite app_nil_r.
    destruct (slave_held (os w) k); (split_and!; [done | simpl; lia | done]).
Qed.

(** ** The relay when its session ends

    The relay tests the dictionary at the head of its loop only; between
    that test and its [select], [os.read] and [socketio.emit] the
    disconnect event of its client can run, and after it the init event of
    another client. *)

Lemma reachable_disconnect_before_emit : reachable disconnect_before_emit.
Proof. apply reachable_run, reachable_init. Qed.

(** After the shell of [A] has exited, the relay of [A] goes round its
    loop: it sends nothing and does not end. *)
Lemma exited_shell_goes_unnoticed n :
  emitted (run (replicate n (RunRelay 0%nat)) one_session_exited)
  = emitted one_session_exited
  ∧ tasks (run (replicate n (RunRelay 0%nat)) one_session_exited) !! 0%nat
    ≠ Some ("A"%string, RelayDone).
Proof.
  set (polling := λ w : world,
         terminals w = terminals one_session_exited ∧ os w = os one_session_exited
         ∧ emitted w = emitted one_session_exited
         ∧ (tasks w = [("A"%string, RelayLoop 3)] ∨ tasks w = [("A"%string, RelaySelect 3)])).
  assert (Hstep : ∀ w, polling w → polling (run_relay 0 w)).
  { intros [te o em ta cs cl]. unfold polling. simpl.
    intros (-> & -> & -> & [-> | ->]); vm_compute; split_and!; auto. }
  assert (Hrun : ∀ w, polling w → polling (run (replicate n (RunRelay 0%nat)) w)).
  { induction n as [| n IH]; intros w Hw; [done |]. simpl. by apply IH, Hstep. }
  destruct (Hrun one_session_exited) as (_ & _ & He & Hta).
  { unfold polling. split_and!; try done. by left. }
  split; [done |]. by destruct Hta as [-> | ->].
Qed.

(** C3, on the failing inputs. The relay has no completion notice to
    send. When the shell of [A] exits, the relay of [A] does not notice:
    it goes on polling, sends nothing and does not end. When [A]
    disconnects between the test of the relay's loop and its [select], the
    [select] on the closed descriptor raises and the relay ends having sent
    nothing; no step that ends a relay sends anything. When [A] disconnects
    between the relay's [os.read] and its [socketio.emit], the relay emits
    the output after the entry of [A] has been removed. The bridge of
    server.js sends the notice when its PTY process exits. *)
Theorem relay_read_error_sends_no_notice :
  reachable one_session_exited
  ∧ (∀ n, emitted (run (replicate n (RunRelay 0%nat)) one_session_exited)
          = [("A"%string, connected_notice (Some (pystr_of_string "NX-0001")))]
          ∧ tasks (run (replicate n (RunRelay 0%nat)) one_session_exited) !! 0%nat
            ≠ Some ("A"%string, RelayDone))
  ∧ reachable disconnect_before_select
  ∧ tasks disconnect_before_select = [("A"%string, RelaySelect 3)]
  ∧ select_select 3 SELECT_TIMEOUT_MS disconnect_before_select
    = (Raise (OSError EBADF), disconnect_before_select)
  ∧ tasks (run_relay 0 disconnect_before_select) = [("A"%string, RelayDone)]
  ∧ emitted (run_relay 0 disconnect_before_select)
    = [("A"%string, connected_notice (Some (pystr_of_string "NX-0001")))]
  ∧ (∀ w i sid, tasks (run_relay i w) !! i = Some (sid, RelayDone) →
       emitted (run_relay i w) = emitted w)
  ∧ reachable disconnect_before_emit
  ∧ terminals disconnect_before_emit !! "A"%string = None
  ∧ emitted (run_relay 0 disconnect_before_emit)
    = emitted disconnect_before_emit ++ [("A"%string, [104; 105])]
  ∧ NodeBridge.sent (NodeBridge.on_exit 0
        (NodeBridge.on_terminal_init ∅ (NodeBridge.InitData (NodeBridge.JNum 80)
                                          (NodeBridge.JNum 24)) NodeBridge.connection))
    = [NodeBridge.PROCESS_COMPLETED].
Proof.
  split_and!.
  - apply reachable_run, reachable_one_session.
  - intros n. destruct (exited_shell_goes_unnoticed n) as [-> H]. split; [by vm_compute | done].
  - apply reachable_run, reachable_init.
  - by vm_compute.
  - by vm_compute.
  - by vm_compute.
  - by vm_compute.
  - intros w i sid Hdone.
    destruct (run_relay_emitted i w) as [H | (sid' & master & output & Hi & _)]; [done |].
    unfold run_relay, set_pc in Hdone. rewrite Hi in Hdone. simpl in Hdone.
    rewrite list_lookup_insert_eq in Hdone by (by eapply lookup_lt_Some). done.
  - apply reachable_disconnect_before_emit.
  - by vm_compute.
  - by vm_compute.
  - by vm_compute.
Qed.

(** C6, on the failing inputs. The relay of [A] is past the test of its
    loop when [A] disconnects; [B] connects and its PTY pair gets the
    descriptor numbers [A] had. The relay of [A], whose entry is gone,
    finds the descriptor ready, reads the output of the shell of [B] and
    emits it to [A]. And a relay that holds output it has read when its
    client disconnects emits it after the removal. What holds is this: a
    relay that comes to the test of its loop, or is started, with the
    entry absent ends at that step without [select], read or emit, and a
    [select] waits for the timeout of 100 ms at most. *)
Theorem relay_acts_after_removal :
  reachable descriptor_reused
  ∧ terminals descriptor_reused !! "A"%string = None
  ∧ terminals descriptor_reused !! "B"%string = Some (Terminal 3 4 101)
  ∧ tasks descriptor_reused !! 0%nat = Some ("A"%string, RelaySelect 3)
  ∧ pty_out <$> pty_of (os descriptor_reused) 3 = Some [x68; x69]
  ∧ tasks (run [RunRelay 0%nat; RunRelay 0%nat] descriptor_reused) !! 0%nat
    = Some ("A"%string, RelayEmit 3 [104; 105])
  ∧ pty_out <$> pty_of (os (run [RunRelay 0%nat; RunRelay 0%nat] descriptor_reused)) 3
    = Some []
  ∧ emitted (run [RunRelay 0%nat; RunRelay 0%nat; RunRelay 0%nat] descriptor_reused)
    = emitted descriptor_reused ++ [("A"%string, [104; 105])]
  ∧ reachable disconnect_before_emit
  ∧ terminals disconnect_before_emit !! "A"%string = None
  ∧ tasks disconnect_before_emit !! 0%nat = Some ("A"%string, RelayEmit 3 [104; 105])
  ∧ emitted (run_relay 0 disconnect_before_emit)
    = emitted disconnect_before_emit ++ [("A"%string, [104; 105])]
  ∧ (∀ w i sid master, terminals w !! sid = None →
       tasks w !! i = Some (sid, RelayLoop master) →
       run_relay i w = set_pc i sid RelayDone w)
  ∧ (∀ w i sid, terminals w !! sid = None →
       tasks w !! i = Some (sid, RelayNew) →
       run_relay i w = set_pc i sid RelayDone w)
  ∧ (∀ w sid fuel, terminals w !! sid = None →
       read_terminal_output fuel sid w = (Ok Returned, w))
  ∧ (∀ fd r w w1, select_select fd SELECT_TIMEOUT_MS w = (r, w1) →
       0 ≤ clock_ms w1 - clock_ms w ≤ SELECT_TIMEOUT_MS).
Proof.
  split_and!.
  - apply reachable_run, reachable_init.
  - by vm_compute.
  - by vm_compute.
  - by vm_compute.
  - by vm_compute.
  - by vm_compute.
  - by vm_compute.
  - by vm_compute.
  - apply reachable_disconnect_before_emit.
  - by vm_compute.
  - by vm_compute.
  - by vm_compute.
  - intros w i sid master Hnone Hi. unfold run_relay. by rewrite Hi, Hnone.
  - intros w i sid Hnone Hi. unfold run_relay. by rewrite Hi, Hnone.
  - intros w sid fuel Hnone. unfold read_terminal_output.
    rewrite (bind_ok get_world _ w w w) by done. by rewrite Hnone.
  - intros fd r w w1. apply select_select_clock.
Qed.

(** ** What a relay emits *)






(** *** A turn of the loop, step by step *)




Lemma run_relay_set_pc i sid pc w :
  (i < length (tasks w))%nat →
  tasks (set_pc i sid pc w) !! i = Some (sid, pc).
Proof. intros Hi. simpl. by apply list_lookup_insert_eq. Qed.




(** ** Sessions do not disturb each other *)

Lemma kept_refl w : kept w w.
Proof. split; (done || lia). Qed.

Lemma pty_openpty_kept w : kept w (pty_openpty w).2 ∧ terminals (pty_openpty w).2 = terminals w.
Proof.
  unfold pty_openpty. cbv zeta.
  destruct (lowest_free (fds (os w)) (fd_limit (os w))) as [m |] eqn:Hm;
    [| split; [apply kept_refl | done]].
  destruct (lowest_free (<[m := _]> _) (fd_limit (os w))) as [s |] eqn:Hs;
    [| split; [apply kept_refl | done]].
  apply lowest_free_None in Hm, Hs.
  assert (m ≠ s) by (intros ->; by rewrite lookup_insert_eq in Hs).
  rewrite lookup_insert_ne in Hs by done.
  split; [| done]. split; simpl; try (done || lia).
  - intros fd d Hfd. rewrite !lookup_insert_ne; [done | congruence | congruence].
  - intros k Hk. apply lookup_insert_ne. lia.
Qed.

Lemma subprocess_Popen_kept args i o e b w :
  kept w (subprocess_Popen args i o e b w).2
  ∧ terminals (subprocess_Popen args i o e b w).2 = terminals w
  ∧ fds (os (subprocess_Popen args i o e b w).2) = fds (os w)
  ∧ next_pty (os (subprocess_Popen args i o e b w).2) = next_pty (os w).
Proof.
  unfold subprocess_Popen. cbv zeta.
  destruct (two_free (os w)); [| split; [apply kept_refl | done]].
  destruct (fds (os w) !! i); [| split; [apply kept_refl | done]].
  destruct (fds (os w) !! o); [| split; [apply kept_refl | done]].
  destruct (fds (os w) !! e); [| split; [apply kept_refl | done]].
  destruct (can_exec (os w)); [| split; [apply kept_refl | done]].
  split; [| done]. split; simpl; try (done || lia).
  intros pid Hpid. apply lookup_insert_ne. lia.
Qed.

Lemma kept_trans w1 w2 w3 : kept w1 w2 → kept w2 w3 → kept w1 w3.
Proof.
  intros [] []. split; eauto; try lia.
  - intros k Hk. rewrite kept_ptys1 by lia. by apply kept_ptys0.
  - intros pid Hpid. rewrite kept_procs1 by lia. by apply kept_procs0.
Qed.

(** Session creation, however it ends, keeps what existed. *)
Lemma open_session_kept sid w : kept w (open_session sid w).2.
Proof.
  unfold open_session, bind.
  pose proof (pty_openpty_kept w) as [Ho _].
  destruct (pty_openpty w) as [[[m s] | e |] v1]; [| done | done].
  pose proof (subprocess_Popen_kept ["/bin/bash"%string] s s s true v1) as [Hp _].
  destruct (subprocess_Popen _ s s s true v1) as [[p | e |] v2]; simpl in *;
    destruct (kept_trans _ _ _ Ho Hp); by split.
Qed.

Lemma apply_initial_size_local sid data w t :
  terminals w !! sid = Some t →
  local_step (master_fd t) w (apply_initial_size sid data w).2.
Proof.
  intros Hlive. unfold apply_initial_size, payload_in, payload_getitem, bind, ret, raise.
  destruct data as [d | s | l |]; try apply local_step_refl.
  - destruct (py_in "cols" d); [| apply local_step_refl].
    destruct (py_in "rows" d); [| apply local_step_refl].
    unfold py_getitem, ret, raise.
    destruct (d !! "cols"%string) as [cols |]; [| apply local_step_refl].
    destruct (d !! "rows"%string) as [rows |]; [| apply local_step_refl].
    by apply resize_local.
  - destruct (py_contains _ s); [| apply local_step_refl].
    destruct (py_contains _ s); apply local_step_refl.
  - destruct (bool_decide _); [| apply local_step_refl].
    destruct (bool_decide _); apply local_step_refl.
Qed.

Lemma after_open_local sid data w t :
  terminals w !! sid = Some t →
  local_step (master_fd t) w (after_open sid data w).2.
Proof.
  intros Hlive. unfold after_open.
  pose proof (apply_initial_size_local sid data w t Hlive) as Hc.
  unfold bind. destruct (apply_initial_size sid data w) as [[[] | e |] w1];
    simpl in *; [| done | done].
  eapply local_step_trans; [exact Hc |]. by split.
Qed.

Lemma closing_ret {A} (a : A) : closing (ret a).
Proof. by intros w. Qed.

Lemma closing_bind {A B} (c : M A) (k : A → M B) :
  closing c → (∀ a, closing (k a)) → closing (bind c k).
Proof.
  intros Hc Hk w. unfold bind. specialize (Hc w).
  destruct (c w) as [[a | e |] w1]; [| done | done].
  simpl in Hc. destruct Hc as (H1 & H2 & H3 & H4 & H5).
  destruct (Hk a w1) as (G1 & G2 & G3 & G4 & G5).
  split_and!; try congruence; by etrans.
Qed.

Lemma closing_terminate pid : closing (Popen_terminate pid).
Proof.
  intros w. unfold Popen_terminate.
  destruct (procs (os w) !! pid) as [p |]; [| done]. by destruct (p_status p).
Qed.

Lemma closing_close fd : closing (os_close fd).
Proof.
  intros w. unfold os_close.
  destruct (fds (os w) !! fd); [| done]. simpl.
  split_and!; try done. apply delete_subseteq.
Qed.

Lemma closing_disconnect sid : closing (handle_disconnect sid).
Proof.
  unfold handle_disconnect. intros w.
  rewrite (bind_ok get_world _ w w w) by done.
  destruct (terminals w !! sid) as [t |]; [| done].
  assert (H : closing (Popen_terminate (process t) ;; os_close (master_fd t) ;;
                       os_close (slave_fd t) ;; modify (set_terminals (delete sid)))).
  { apply closing_bind; [apply closing_terminate | intros _].
    apply closing_bind; [apply closing_close | intros _].
    apply closing_bind; [apply closing_close | intros _].
    intros v. simpl. split_and!; try done. apply delete_subseteq. }
  apply H.
Qed.






(** A step of a relay registers, opens, closes and spawns nothing, and
    touches the PTY behind one descriptor at most. *)
Lemma run_relay_local i w : ∃ fd, local_step fd w (run_relay i w).
Proof.
  unfold run_relay, set_pc.
  destruct (tasks w !! i) as [[sid [| | m | m | m | m out |]] |];
    try (exists 0; by split).
  - exists 0. by destruct (terminals w !! sid).
  - exists 0. by destruct (terminals w !! sid).
  - exists 0. by destruct (terminals w !! sid).
  - exists m. destruct (local_select m SELECT_TIMEOUT_MS w).
    by destruct (select_select m SELECT_TIMEOUT_MS w) as [[[] | e |] w1].
  - exists m. destruct (local_os_read m READ_SIZE w).
    by destruct (os_read m READ_SIZE w) as [[raw | e |] w1].
Qed.

Lemma open_session_terminals_raise sid w :
  (open_session sid w).1 ≠ Ok tt → terminals (open_session sid w).2 = terminals w.
Proof.
  unfold open_session, bind.
  pose proof (pty_openpty_kept w) as [_ Ho].
  destruct (pty_openpty w) as [[[m s] | e |] v1]; [| done | done].
  pose proof (subprocess_Popen_kept ["/bin/bash"%string] s s s true v1) as (_ & Hp & _).
  destruct (subprocess_Popen _ s s s true v1) as [[p | e |] v2]; simpl in *;
    [done | congruence | congruence].
Qed.














(** ** A session's life: connect, then disconnect *)




(** ** Descriptors no entry names *)

Lemma orphan_step a w fd : orphan w fd → orphan (step a w) fd.
Proof.
  intros [[d Hopen] Hnamed].
  assert (Hsame : ∀ w1, terminals w1 = terminals w → fds (os w1) = fds (os w) →
                        orphan w1 fd).
  { intros w1 Ht Hf. split; [rewrite Hf; eauto | by rewrite Ht]. }
  destruct a as [sid data | sid data | sid data | sid | i | k bs | pid | k]; simpl;
    try by apply Hsame.
  all: try by (destruct (slave_held (os w) k); apply Hsame).
  - (* init *)
    destruct (terminals w !! sid) as [t |] eqn:Hlive.
    { unfold handle_terminal_connect.
      rewrite (bind_ok get_world _ w w w) by done. rewrite Hlive.
      by apply Hsame. }
    rewrite handle_terminal_connect_fresh by done. unfold bind.
    pose proof (open_session_kept sid w) as [Hkf _ _ _ _].
    pose proof (open_session_terminals_raise sid w) as Hraise.
    destruct (open_session sid w) as [[[] | e |] w1] eqn:Hrun; simpl in *;
      [| split; [eauto | by rewrite Hraise] | split; [eauto | by rewrite Hraise]].
    clear Hraise.
    apply open_session_ok in Hrun as (m & s & Hm & Hs & _ & Ht & _).
    assert (Hnew : terminals w1 !! sid = Some (Terminal m s (next_pid (os w))))
      by (rewrite Ht; apply lookup_insert_eq).
    destruct (after_open_local sid data w1 _ Hnew) as [L1 L2 _ _ _ _ _].
    split; [rewrite L2; eauto |].
    intros sid' t'. rewrite L1, Ht.
    destruct (decide (sid = sid')) as [<- | Hne].
    + rewrite lookup_insert_eq. intros [= <-]. simpl. split; congruence.
    + rewrite lookup_insert_ne by done. apply Hnamed.
  - (* input *)
    destruct (terminals w !! sid) as [t |] eqn:Hlive.
    + destruct (input_local w sid t data Hlive) as [L1 L2 _ _ _ _ _]. by apply Hsame.
    + unfold handle_terminal_input.
      rewrite (bind_ok get_world _ w w w) by done. rewrite Hlive. by apply Hsame.
  - (* resize *)
    destruct (terminals w !! sid) as [t |] eqn:Hlive.
    + destruct (resize_local w sid t data Hlive) as [L1 L2 _ _ _ _ _]. by apply Hsame.
    + unfold handle_terminal_resize.
      rewrite (bind_ok get_world _ w w w) by done. rewrite Hlive. by apply Hsame.
  - (* disconnect *)
    destruct (closing_disconnect sid w) as (Hsub & _).
    split.
    + unfold handle_disconnect.
      rewrite (bind_ok get_world _ w w w) by done.
      destruct (terminals w !! sid) as [t |] eqn:Hlive; [| simpl; eauto].
      destruct (Hnamed sid t Hlive) as [N1 N2].
      unfold bind at 1.
      destruct (Popen_terminate (process t) w) as [r v1] eqn:Hterm.
      assert (Hv1 : fds (os v1) = fds (os w)).
      { unfold Popen_terminate in Hterm.
        destruct (procs (os w) !! process t) as [p |]; [| by injection Hterm as _ <-].
        by destruct (p_status p); injection Hterm as _ <-. }
      destruct r as [[] | e |]; simpl; [| rewrite Hv1; eauto | rewrite Hv1; eauto].
      unfold bind, os_close.
      destruct (fds (os v1) !! master_fd t) eqn:E1; simpl; [| rewrite Hv1; eauto].
      destruct (delete (master_fd t) (fds (os v1)) !! slave_fd t) eqn:E2; simpl.
      * rewrite !lookup_delete_ne, Hv1 by done. eauto.
      * rewrite lookup_delete_ne, Hv1 by done. eauto.
    + intros sid' t' Ht'. eapply Hnamed, lookup_weaken; done.
  - (* relay *)
    destruct (run_relay_local i w) as [fd' [L1 L2 _ _ _ _ _]]. by apply Hsame.
Qed.

Lemma orphan_run acts : ∀ w fd, orphan w fd → orphan (run acts w) fd.
Proof.
  induction acts as [| a acts IH]; intros w fd H; [done |].
  apply IH. by apply orphan_step.
Qed.

Lemma pty_openpty_can_exec w r w1 :
  pty_openpty w = (r, w1) → can_exec (os w1) = can_exec (os w).
Proof.
  unfold pty_openpty. cbv zeta. intros H.
  destruct (lowest_free (fds (os w)) (fd_limit (os w))) as [m |]; [| by injection H as _ <-].
  destruct (lowest_free (<[m := _]> (fds (os w))) (fd_limit (os w))) as [s |];
    by injection H as _ <-.
Qed.

(** X7. When the PTY pair can be opened and the shell cannot be started
    (no descriptors left for [subprocess.Popen], or no [/bin/bash] to
    execute), [handle_terminal_connect] raises the error of
    [subprocess.Popen] with the two descriptors of the pair open and named
    by no entry. No later event closes them: whatever happens afterwards,
    both stay open and outside the dictionary. *)
Theorem failed_spawn_leaks_descriptors (w : world) (sid : string)
    (data : payload) (m s : Z) (e : exn) :
  reachable w →
  terminals w !! sid = None →
  (pty_openpty w).1 = Ok (m, s) →
  (subprocess_Popen ["/bin/bash"%string] s s s true (pty_openpty w).2).1 = Raise e →
  (handle_terminal_connect sid data w).1 = Raise e
  ∧ (e = OSError EMFILE ∨ e = OSError ENOENT ∧ can_exec (os w) = false)
  ∧ fds (os w) !! m = None ∧ fds (os w) !! s = None
  ∧ terminals (step (EvConnect sid data) w) = terminals w
  ∧ ∀ acts, orphan (run acts (step (EvConnect sid data) w)) m
            ∧ orphan (run acts (step (EvConnect sid data) w)) s.
Proof.
  intros Hreach Hnone Hpair Hspawn. pose proof (reachable_wf w Hreach) as Hw.
  destruct (pty_openpty w) as [r v1] eqn:Hopen. simpl in Hpair, Hspawn. subst r.
  pose proof Hopen as Hpty.
  apply pty_openpty_ok in Hpty as (Hm & Hs & Hms & Ht & _ & _ & _ & Hf & _).
  destruct (subprocess_Popen ["/bin/bash"%string] s s s true v1) as [r v2] eqn:Hpopen.
  simpl in Hspawn. subst r.
  pose proof (subprocess_Popen_kept ["/bin/bash"%string] s s s true v1) as (_ & Ht2 & Hf2 & _).
  rewrite Hpopen in Ht2, Hf2. simpl in Ht2, Hf2.
  assert (Hconn : handle_terminal_connect sid data w = (Raise e, v2)).
  { rewrite handle_terminal_connect_fresh by done.
    unfold open_session. rewrite !bind_assoc. rewrite (bind_ok _ _ _ _ _ Hopen).
    cbv beta iota. rewrite !bind_assoc. by rewrite (bind_raise _ _ _ _ _ Hpopen). }
  assert (Hwhich : e = OSError EMFILE ∨ e = OSError ENOENT ∧ can_exec (os w) = false).
  { pose proof (pty_openpty_can_exec _ _ _ Hopen) as Hexec.
    unfold subprocess_Popen in Hpopen. cbv zeta in Hpopen.
    destruct (two_free (os v1)); [| injection Hpopen as <- _; by left].
    rewrite Hf, lookup_insert_eq in Hpopen.
    destruct (can_exec (os v1)); [done |]. injection Hpopen as <- _. by right. }
  simpl. rewrite Hconn. simpl. split_and!; try done; [congruence |].
  assert (Hfree : ∀ fd, fds (os w) !! fd = None →
            ∀ sid' t', terminals v2 !! sid' = Some t' → master_fd t' ≠ fd ∧ slave_fd t' ≠ fd).
  { intros fd Hfd sid' t'. rewrite Ht2, Ht. intros Hlive.
    destruct (wf_sessions w Hw sid' t' Hlive) as (k & Hmt & Hst & _).
    split; congruence. }
  intros acts. split; apply orphan_run; (split; [| by apply Hfree]); rewrite Hf2, Hf.
  - rewrite lookup_insert_ne, lookup_insert_eq by done. eauto.
  - rewrite lookup_insert_eq. eauto.
Qed.

Lemma failed_spawn_leaks_descriptors_witness :
  (handle_terminal_connect "A" (PDict size_80x24) no_shell).1 = Raise (OSError ENOENT)
  ∧ (OSError ENOENT = OSError EMFILE
     ∨ OSError ENOENT = OSError ENOENT ∧ can_exec (os no_shell) = false)
  ∧ fds (os no_shell) !! 3 = None ∧ fds (os no_shell) !! 4 = None
  ∧ terminals (step (EvConnect "A" (PDict size_80x24)) no_shell) = terminals no_shell
  ∧ ∀ acts, orphan (run acts (step (EvConnect "A" (PDict size_80x24)) no_shell)) 3
            ∧ orphan (run acts (step (EvConnect "A" (PDict size_80x24)) no_shell)) 4.
Proof.
  apply (failed_spawn_leaks_descriptors no_shell "A" (PDict size_80x24) 3 4
           (OSError ENOENT)).
  - apply reachable_init.
  - reflexivity.
  - vm_compute. reflexivity.
  - vm_compute. reflexivity.
Defined.

(** ** The relay of a registered session *)

(** X8. While its session is registered, on a descriptor that [select]
    accepts, the relay of the session does not end: whichever of its steps
    comes next, the task is afterwards at a point of its loop again, on the
    same descriptor, and the entry is still there. A read on the control
    side then returns output or waits; it does not fail, because the
    server holds the subordinate side open. So the relay ends only after
    the disconnect event. *)
Theorem relay_of_registered_session_goes_on (w : world) (sid : string) (t : terminal)
    (i : nat) (pc : relay_pc) :
  reachable w →
  terminals w !! sid = Some t →
  0 ≤ master_fd t < FD_SETSIZE →
  tasks w !! i = Some (sid, pc) →
  pc = RelayNew ∨ pc = RelayEntered ∨ pc = RelayLoop (master_fd t)
  ∨ pc = RelaySelect (master_fd t) ∨ pc = RelayRead (master_fd t)
  ∨ (∃ output, pc = RelayEmit (master_fd t) output) →
  ∃ pc', tasks (run_relay i w) !! i = Some (sid, pc')
    ∧ (pc' = RelayEntered ∨ pc' = RelayLoop (master_fd t)
       ∨ pc' = RelaySelect (master_fd t) ∨ pc' = RelayRead (master_fd t)
       ∨ (∃ output, pc' = RelayEmit (master_fd t) output))
    ∧ terminals (run_relay i w) !! sid = Some t
    ∧ reachable (run_relay i w).
Proof.
  intros Hreach Hlive Hrange Hi Hpc. pose proof (lookup_lt_Some _ _ _ Hi) as Hlt.
  destruct (wf_sessions w (reachable_wf w Hreach) sid t Hlive) as (k & Hm & Hs & [p Hp] & _).
  pose proof (session_not_hung_up w sid t k p Hreach Hlive Hm Hp) as Hhup.
  assert (Hterm : terminals (run_relay i w) !! sid = Some t)
    by (destruct (run_relay_registry i w) as (-> & _); done).
  assert (Hre : reachable (run_relay i w)) by apply (reachable_step (RunRelay i) w Hreach).
  assert (Hgo : ∃ pc', tasks (run_relay i w) !! i = Some (sid, pc')
            ∧ (pc' = RelayEntered ∨ pc' = RelayLoop (master_fd t)
               ∨ pc' = RelaySelect (master_fd t) ∨ pc' = RelayRead (master_fd t)
               ∨ (∃ output, pc' = RelayEmit (master_fd t) output)));
    [| destruct Hgo as (pc' & H1 & H2); by exists pc'].
  clear Hterm Hre. unfold run_relay. rewrite Hi.
  destruct Hpc as [-> | [-> | [-> | [-> | [-> | [output ->]]]]]].
  - rewrite Hlive. eexists. split; [by apply run_relay_set_pc | tauto].
  - rewrite Hlive. eexists. split; [by apply run_relay_set_pc | tauto].
  - rewrite Hlive. eexists. split; [by apply run_relay_set_pc | tauto].
  - unfold select_select. rewrite (bool_decide_eq_true_2 _ Hrange), Hm.
    destruct (readable (os w) (FdPty k Master));
      (eexists; split; [by apply run_relay_set_pc | tauto]).
  - unfold os_read. rewrite Hm, Hp, Hhup. destruct (pty_out p) as [| b bs].
    + eexists. split; [done | tauto].
    + eexists. split; [by apply run_relay_set_pc | eauto 10].
  - eexists. split; [by apply run_relay_set_pc | tauto].
Qed.

Lemma relay_of_registered_session_goes_on_witness :
  ∃ pc', tasks (run_relay 0 one_session) !! 0%nat = Some ("A"%string, pc')
    ∧ (pc' = RelayEntered ∨ pc' = RelayLoop 3 ∨ pc' = RelaySelect 3 ∨ pc' = RelayRead 3
       ∨ (∃ output, pc' = RelayEmit 3 output))
    ∧ terminals (run_relay 0 one_session) !! "A"%string = Some (Terminal 3 4 100)
    ∧ reachable (run_relay 0 one_session).
Proof.
  apply (relay_of_registered_session_goes_on one_session "A" (Terminal 3 4 100) 0%nat RelayNew).
  - apply reachable_step, reachable_init.
  - vm_compute. reflexivity.
  - simpl. unfold FD_SETSIZE. lia.
  - vm_compute. reflexivity.
  - by left.
Defined.

(** ** [load_config] *)

Lemma py_startswith_app p r : py_startswith (p ++ r) p = true.
Proof.
  induction p as [| c p IH]; [done |]. simpl. by rewrite bool_decide_eq_true_2.
Qed.

Lemma py_startswith_inv s p : py_startswith s p = true → ∃ r, s = p ++ r.
Proof.
  revert s. induction p as [| c p IH]; intros s H; [by exists s |].
  destruct s as [| d s]; [done |]. simpl in H.
  apply andb_prop in H as [Hd Hs]. apply bool_decide_eq_true_1 in Hd as ->.
  destruct (IH s Hs) as [r ->]. by exists r.
Qed.

Lemma py_split_cons sep s : ∃ h t, py_split sep s = h :: t.
Proof.
  induction s as [| c s (h & t & IH)]; [by eexists _, _ |]. simpl.
  case_bool_decide; [by eexists _, _ |]. rewrite IH. by eexists _, _.
Qed.

(** Up to the first separator. *)
Lemma py_split_first sep a b :
  sep ∉ a → py_split sep (a ++ sep :: b) = a :: py_split sep b.
Proof.
  induction a as [| c a IH]; intros Ha; simpl.
  - by rewrite bool_decide_eq_true_2.
  - apply not_elem_of_cons in Ha as [Hc Ha].
    rewrite bool_decide_eq_false_2 by done. by rewrite IH.
Qed.

Lemma py_split_none sep a : sep ∉ a → py_split sep a = [a].
Proof.
  induction a as [| c a IH]; intros Ha; simpl; [done |].
  apply not_elem_of_cons in Ha as [Hc Ha].
  rewrite bool_decide_eq_false_2 by done. by rewrite IH.
Qed.

(** No piece of a split contains the separator. *)
Lemma py_split_pieces sep s : Forall (λ p, sep ∉ p) (py_split sep s).
Proof.
  induction s as [| c s IH]; simpl.
  - repeat constructor. apply not_elem_of_nil.
  - case_bool_decide as Hc.
    + constructor; [apply not_elem_of_nil | done].
    + destruct (py_split sep s) as [| p ps].
      * repeat constructor. apply not_elem_of_cons. split; [done | apply not_elem_of_nil].
      * inversion IH as [| ? ? Hp Hps]; subst. constructor; [| done].
        apply not_elem_of_cons. by split.
Qed.

Lemma py_lstrip_suffix s : py_lstrip s `suffix_of` s.
Proof.
  induction s as [| c s IH]; simpl; [done |].
  destruct (py_isspace c); [by apply suffix_cons_r | done].
Qed.

Lemma py_lstrip_head s c : head (py_lstrip s) = Some c → py_isspace c = false.
Proof.
  induction s as [| d s IH]; simpl; [done |].
  destruct (py_isspace d) eqn:Hd; [done |]. simpl. by intros [= <-].
Qed.

Lemma py_lstrip_id s : (∀ c, head s = Some c → py_isspace c = false) → py_lstrip s = s.
Proof. destruct s as [| c s]; simpl; [done |]. intros H. by rewrite (H c). Qed.

Lemma last_suffix (l1 l2 : pystr) c : l1 `suffix_of` l2 → last l1 = Some c → last l2 = Some c.
Proof. intros [k ->] H. by rewrite last_app, H. Qed.

Lemma py_strip_head s c : head (py_strip s) = Some c → py_isspace c = false.
Proof.
  unfold py_strip, py_rstrip. rewrite head_reverse. intros H.
  apply (last_suffix _ _ _ (py_lstrip_suffix _)) in H.
  rewrite last_reverse in H. by apply py_lstrip_head in H.
Qed.

Lemma py_strip_last s c : last (py_strip s) = Some c → py_isspace c = false.
Proof.
  unfold py_strip, py_rstrip. rewrite last_reverse. apply py_lstrip_head.
Qed.

Lemma py_strip_id s :
  (∀ c, head s = Some c → py_isspace c = false) →
  (∀ c, last s = Some c → py_isspace c = false) →
  py_strip s = s.
Proof.
  intros Hh Hl. unfold py_strip, py_rstrip. rewrite (py_lstrip_id s Hh).
  rewrite py_lstrip_id; [apply reverse_involutive |].
  intros c. rewrite head_reverse. apply Hl.
Qed.

Lemma py_strip_elem s c : c ∈ py_strip s → c ∈ s.
Proof.
  unfold py_strip, py_rstrip. rewrite elem_of_reverse. intros H.
  apply (λ H, elem_of_suffix _ _ _ H (py_lstrip_suffix _)) in H.
  rewrite elem_of_reverse in H.
  by apply (λ H, elem_of_suffix _ _ _ H (py_lstrip_suffix _)) in H.
Qed.

Lemma key_name_no_equals : EQUALS ∉ pystr_of_string "CONTROLLER_SERIAL".
Proof. apply (bool_decide_unpack _). vm_compute. exact I. Qed.

Lemma set_controller_serial_twice f g w :
  set_controller_serial f (set_controller_serial g w) = set_controller_serial (f ∘ g) w.
Proof. done. Qed.

(** A line with the key has a second piece: the subscript never fails. *)
Lemma load_config_line_key line w :
  py_startswith line CONTROLLER_SERIAL_KEY = true →
  ∃ v, py_split EQUALS line !! 1%nat = Some v
       ∧ load_config_line line w
         = Some (set_controller_serial (λ _, Some (py_strip v)) w).
Proof.
  intros Hkey. unfold load_config_line. rewrite Hkey.
  apply py_startswith_inv in Hkey as [r ->].
  change CONTROLLER_SERIAL_KEY
    with (pystr_of_string "CONTROLLER_SERIAL" ++ EQUALS :: []).
  rewrite <- app_assoc. simpl ((EQUALS :: []) ++ r).
  rewrite py_split_first by apply key_name_no_equals.
  destruct (py_split_cons EQUALS r) as (h & t & ->). simpl. by exists h.
Qed.

Lemma load_config_lines_total lines : ∀ w,
  ∃ serial, load_config_lines lines w = Some (set_controller_serial (λ _, serial) w).
Proof.
  induction lines as [| line lines IH]; intros w; simpl.
  - exists (controller_serial w). by destruct w.
  - destruct (py_startswith line CONTROLLER_SERIAL_KEY) eqn:Hkey.
    + destruct (load_config_line_key line w Hkey) as (v & _ & ->).
      destruct (IH (set_controller_serial (λ _, Some (py_strip v)) w)) as [serial ->].
      by exists serial.
    + unfold load_config_line. rewrite Hkey. apply IH.
Qed.

Lemma load_config_lines_app l1 : ∀ l2 w,
  load_config_lines (l1 ++ l2) w
  = match load_config_lines l1 w with
    | Some w1 => load_config_lines l2 w1
    | None => None
    end.
Proof.
  induction l1 as [| line l1 IH]; intros l2 w; simpl; [done |].
  destruct (load_config_line line w); [apply IH | done].
Qed.

Lemma load_config_lines_cons line rest w :
  load_config_lines (line :: rest) w
  = match load_config_line line w with
    | Some w1 => load_config_lines rest w1
    | None => None
    end.
Proof. done. Qed.

Lemma load_config_lines_no_key lines w :
  Forall (λ l, py_startswith l CONTROLLER_SERIAL_KEY = false) lines →
  load_config_lines lines w = Some w.
Proof.
  induction 1 as [| line lines Hline _ IH]; simpl; [done |].
  unfold load_config_line. by rewrite Hline.
Qed.

(** X9. When the configuration file has lines with the key
    [CONTROLLER_SERIAL=], the last of them decides: the serial becomes the
    text between the first equals sign of that line and its second one (or
    the end of the line), without the white space around it. What follows
    a second equals sign is dropped, and so is what earlier lines set. *)
Theorem load_config_last_serial_line (before after : list pystr) (v rest nodename : pystr)
    (w : world) :
  EQUALS ∉ v →
  rest = [] ∨ (∃ r, rest = EQUALS :: r) →
  Forall (λ l, py_startswith l CONTROLLER_SERIAL_KEY = false) after →
  load_config (Some (before ++ (CONTROLLER_SERIAL_KEY ++ v ++ rest) :: after)) nodename w
  = Some (set_controller_serial (λ _, Some (py_strip v)) w).
Proof.
  intros Hv Hrest Hafter. unfold load_config. rewrite load_config_lines_app.
  destruct (load_config_lines_total before w) as [serial ->].
  rewrite load_config_lines_cons.
  destruct (load_config_line_key (CONTROLLER_SERIAL_KEY ++ v ++ rest)
              (set_controller_serial (λ _, serial) w)
              (py_startswith_app _ _)) as (v' & Hsplit & ->).
  rewrite load_config_lines_no_key by done.
  rewrite set_controller_serial_twice. do 3 f_equal.
  revert Hsplit.
  change CONTROLLER_SERIAL_KEY
    with (pystr_of_string "CONTROLLER_SERIAL" ++ EQUALS :: []).
  rewrite <- app_assoc. simpl ((EQUALS :: []) ++ v ++ rest).
  rewrite py_split_first by apply key_name_no_equals. simpl.
  destruct Hrest as [-> | [r ->]].
  - rewrite app_nil_r, py_split_none by done. by intros [= <-].
  - rewrite py_split_first by done. by intros [= <-].
Qed.

Lemma load_config_last_serial_line_witness :
  load_config (Some sample_config) (pystr_of_string "pi4") unconfigured
  = Some (set_controller_serial (λ _, Some (pystr_of_string "nx-42")) unconfigured).
Proof.
  change (load_config
            (Some ((text_line <$> ["# tunnel"; "CONTROLLER_SERIAL=old"]%string)
                   ++ (CONTROLLER_SERIAL_KEY ++ pystr_of_string " nx-42 " ++ text_line "=x")
                   :: (text_line <$> ["PORT=8000"]%string)))
            (pystr_of_string "pi4") unconfigured
          = Some (set_controller_serial
                    (λ _, Some (py_strip (pystr_of_string " nx-42 "))) unconfigured)).
  apply (load_config_last_serial_line
           (text_line <$> ["# tunnel"; "CONTROLLER_SERIAL=old"]%string)
           (text_line <$> ["PORT=8000"]%string)
           (pystr_of_string " nx-42 ") (text_line "=x")
           (pystr_of_string "pi4") unconfigured).
  - apply (bool_decide_unpack _). vm_compute. exact I.
  - right. by eexists.
  - by repeat constructor.
Defined.

Lemma key_lines_dec lines :
  Forall (λ l, py_startswith l CONTROLLER_SERIAL_KEY = false) lines
  ∨ Exists (λ l, py_startswith l CONTROLLER_SERIAL_KEY = true) lines.
Proof.
  induction lines as [| line lines [IH | IH]]; [by left | | by right; right].
  destruct (py_startswith line CONTROLLER_SERIAL_KEY) eqn:Hkey.
  - right. by left.
  - left. by constructor.
Qed.

(** X10. A serial that [load_config] reads from the file holds no equals
    sign and neither starts nor ends with white space, whatever the file
    holds; reading an existing file never fails on the subscript of the
    split. *)
Theorem load_config_serial_shape (lines : list pystr) (nodename : pystr) (w : world) :
  ∃ serial,
    load_config (Some lines) nodename w = Some (set_controller_serial (λ _, serial) w)
    ∧ (Forall (λ l, py_startswith l CONTROLLER_SERIAL_KEY = false) lines
       → serial = controller_serial w)
    ∧ (Exists (λ l, py_startswith l CONTROLLER_SERIAL_KEY = true) lines
       → ∃ s, serial = Some s
              ∧ (EQUALS ∉ s)
              ∧ (∀ c, head s = Some c → py_isspace c = false)
              ∧ (∀ c, last s = Some c → py_isspace c = false)).
Proof.
  unfold load_config. revert w. induction lines as [| line lines IH]; intros w.
  - exists (controller_serial w). split_and!; [by destruct w | done |].
    intros H. by apply Exists_nil in H.
  - rewrite load_config_lines_cons.
    destruct (py_startswith line CONTROLLER_SERIAL_KEY) eqn:Hkey.
    + destruct (load_config_line_key line w Hkey) as (v & Hsplit & ->).
      destruct (IH (set_controller_serial (λ _, Some (py_strip v)) w))
        as (serial & -> & Hnone & Hsome).
      exists serial. split_and!; [done | |].
      * intros H. apply Forall_cons in H as [H _]. congruence.
      * intros _. destruct (key_lines_dec lines) as [Hlater | Hlater]; [| by apply Hsome].
        rewrite Hnone by done.
        simpl. exists (py_strip v). split_and!; [done | | apply py_strip_head | apply py_strip_last].
        intros Hin. apply py_strip_elem in Hin.
        pose proof (py_split_pieces EQUALS line) as Hpieces.
        rewrite Forall_lookup in Hpieces. by apply (Hpieces _ _ Hsplit).
    + unfold load_config_line. rewrite Hkey.
      destruct (IH w) as (serial & -> & Hnone & Hsome).
      exists serial. split_and!; [done | |].
      * intros H. apply Forall_cons in H as [_ H]. by apply Hnone.
      * intros H. apply Exists_cons in H as [H | H]; [congruence | by apply Hsome].
Qed.

(** The notice of a connect that returned names the serial of [CONFIG]. *)
Lemma connect_ok_notice sid data w w' :
  terminals w !! sid = None →
  handle_terminal_connect sid data w = (Ok tt, w') →
  emitted w' = emitted w ++ [(sid, connected_notice (controller_serial w))].
Proof.
  intros Hnone. rewrite handle_terminal_connect_fresh by done. unfold bind at 1.
  destruct (open_session sid w) as [[[] | e |] w1] eqn:Hopen; [| done | done].
  apply open_session_ok in Hopen as (m & s & _ & _ & _ & Ht & He & _ & Hser & _).
  assert (Hnew : terminals w1 !! sid = Some (Terminal m s (next_pid (os w))))
    by (rewrite Ht; apply lookup_insert_eq).
  unfold after_open.
  destruct (silent_apply_initial_size sid data w1) as [He2 _].
  destruct (apply_initial_size_local sid data w1 _ Hnew) as [_ _ _ _ _ Hser2 _].
  unfold bind at 1.
  destruct (apply_initial_size sid data w1) as [[[] | e |] w2]; [| done | done].
  simpl in *. intros [= <-]. simpl. by rewrite He2, He, Hser2, Hser.
Qed.

(** X11. The hostname fallback of [load_config] is taken only when the
    configuration file is absent. A file that is there and has no line
    with the key leaves [CONFIG] as it was: with the serial still unset,
    the notice of a connect that returns reads [Connected to None]. *)
Theorem serial_fallback_only_without_file (lines : list pystr) (nodename : pystr)
    (w : world) (sid : string) (data : payload) :
  Forall (λ l, py_startswith l CONTROLLER_SERIAL_KEY = false) lines →
  controller_serial w = None →
  terminals w !! sid = None →
  (handle_terminal_connect sid data w).1 = Ok tt →
  load_config (Some lines) nodename w = Some w
  ∧ emitted (step (EvConnect sid data) w)
    = emitted w ++ [(sid, pystr_of_string "Connected to None" ++ [13; 10])]
  ∧ ∃ w1, load_config None nodename w = Some w1
          ∧ controller_serial w1 = Some (pystr_of_string "Controller-" ++ nodename).
Proof.
  intros Hlines Hser Hnone Hok. split_and!.
  - by apply load_config_lines_no_key.
  - unfold step. destruct (handle_terminal_connect sid data w) as [r w'] eqn:Hrun.
    simpl in Hok. subst r. cbn [snd].
    rewrite (connect_ok_notice _ _ _ _ Hnone Hrun), Hser. reflexivity.
  - by eexists.
Qed.

Lemma serial_fallback_only_without_file_witness :
  load_config (Some config_without_serial) (pystr_of_string "pi4") unconfigured
  = Some unconfigured
  ∧ emitted (step (EvConnect "A" (PDict size_80x24)) unconfigured)
    = emitted unconfigured ++ [("A"%string, pystr_of_string "Connected to None" ++ [13; 10])]
  ∧ ∃ w1, load_config None (pystr_of_string "pi4") unconfigured = Some w1
          ∧ controller_serial w1
            = Some (pystr_of_string "Controller-" ++ pystr_of_string "pi4").
Proof.
  apply (serial_fallback_only_without_file config_without_serial (pystr_of_string "pi4")
           unconfigured "A" (PDict size_80x24)).
  - by repeat constructor.
  - reflexivity.
  - reflexivity.
  - vm_compute. reflexivity.
Defined.

(** ** The patch of server.js *)

Lemma py_startswith_app_l x y sub :
  py_startswith x sub = true → py_startswith (x ++ y) sub = true.
Proof. intros H. apply py_startswith_inv in H as [r ->]. by rewrite <- app_assoc, py_startswith_app. Qed.

Lemma py_find_from_ge s sub : ∀ i, py_find_from s sub i = -1 ∨ i ≤ py_find_from s sub i.
Proof.
  induction s as [| c s IH]; intros i; simpl.
  - destruct (py_startswith [] sub); [right; lia | by left].
  - destruct (py_startswith (c :: s) sub); [right; lia |].
    destruct (IH (i + 1)) as [-> | H]; [by left | right; lia].
Qed.

(** Where [find] points, the text occurs, and nowhere before. *)
Lemma py_find_from_spec s sub : ∀ i j,
  py_find_from s sub i = j → j ≠ -1 → 0 ≤ i →
  let n := Z.to_nat (j - i) in
  (n ≤ length s)%nat
  ∧ py_startswith (drop n s) sub = true
  ∧ ∀ m, (m < n)%nat → py_startswith (drop m s) sub = false.
Proof.
  induction s as [| c s IH]; intros i j Hj Hne Hi; simpl in Hj.
  - destruct (py_startswith [] sub) eqn:Hs; [| congruence]. subst j.
    rewrite Z.sub_diag. simpl. split_and!; [done | done | lia].
  - destruct (py_startswith (c :: s) sub) eqn:Hs.
    + subst j. rewrite Z.sub_diag. simpl. split_and!; [lia | done | lia].
    + destruct (py_find_from_ge s sub (i + 1)) as [Heq | Hge]; [congruence |].
      destruct (IH (i + 1) j Hj Hne ltac:(lia)) as (Hlen & Hat & Hbefore).
      replace (Z.to_nat (j - i)) with (S (Z.to_nat (j - (i + 1)))) by lia.
      simpl. split_and!; [lia | done |].
      intros [| m] Hm; [done |]. simpl. apply Hbefore. lia.
Qed.

Lemma py_find_from_occurs s sub : ∀ i m,
  0 ≤ i → py_startswith (drop m s) sub = true → py_find_from s sub i ≠ -1.
Proof.
  induction s as [| c s IH]; intros i m Hi Hm; simpl.
  - rewrite drop_nil in Hm. rewrite Hm. lia.
  - destruct (py_startswith (c :: s) sub) eqn:Hs; [lia |].
    destruct m as [| m]; [simpl in Hm; congruence |].
    apply (IH (i + 1) m); [lia | done].
Qed.

Lemma py_contains_occurs sub s m :
  py_startswith (drop m s) sub = true → py_contains sub s = true.
Proof.
  intros H. unfold py_contains, py_find.
  rewrite bool_decide_eq_false_2; [done |]. by apply (py_find_from_occurs s sub 0 m).
Qed.

Lemma py_contains_inv sub s :
  py_contains sub s = true →
  ∃ m, (m ≤ length s)%nat ∧ py_startswith (drop m s) sub = true.
Proof.
  unfold py_contains, py_find. intros H. apply negb_true_iff, bool_decide_eq_false_1 in H.
  destruct (py_find_from_spec s sub 0 _ eq_refl H ltac:(done)) as (Hlen & Hat & _).
  eauto.
Qed.

(** A text that contains [sub] still does with text put around it. *)
Lemma py_contains_middle sub a h b :
  py_contains sub h = true → py_contains sub (a ++ h ++ b) = true.
Proof.
  intros H. apply py_contains_inv in H as (m & Hm & Hat).
  apply (py_contains_occurs sub _ (length a + m)).
  rewrite drop_app_add, drop_app_le by done. by apply py_startswith_app_l.
Qed.

Lemma handlers_mention_init : py_contains TERMINAL_INIT terminal_handlers = true.
Proof. vm_compute. reflexivity. Qed.

Lemma handlers_no_CR : 13 ∉ terminal_handlers.
Proof. apply (bool_decide_unpack _). vm_compute. exact I. Qed.

(** *** Reading in text mode *)

Lemma universal_newlines_id s : 13 ∉ s → universal_newlines s = s.
Proof.
  induction s as [| c r IH]; intros H; [done |].
  apply not_elem_of_cons in H as [Hc Hr]. simpl.
  rewrite bool_decide_eq_false_2 by done. by rewrite IH.
Qed.

Lemma universal_newlines_app a b :
  13 ∉ a → universal_newlines (a ++ b) = a ++ universal_newlines b.
Proof.
  induction a as [| c r IH]; intros H; [done |].
  apply not_elem_of_cons in H as [Hc Hr]. cbn [app universal_newlines].
  rewrite bool_decide_eq_false_2 by done. by rewrite IH.
Qed.

(** What is read holds no carriage return. *)
Lemma universal_newlines_no_CR s : 13 ∉ universal_newlines s.
Proof.
  assert (H : ∀ n s, (length s ≤ n)%nat → 13 ∉ universal_newlines s);
    [| by apply (H (length s))].
  clear s. induction n as [| n IH]; intros s Hlen.
  { destruct s; [apply not_elem_of_nil | simpl in Hlen; lia]. }
  destruct s as [| c r]; [apply not_elem_of_nil |]. simpl in Hlen.
  cbn [universal_newlines]. case_bool_decide as Hc.
  - destruct r as [| d r'].
    + apply not_elem_of_cons. split; [done | apply not_elem_of_nil].
    + simpl in Hlen. case_bool_decide; apply not_elem_of_cons;
        (split; [done | apply IH; simpl; lia]).
  - apply not_elem_of_cons. split; [congruence | apply IH; lia].
Qed.

(** A text without line feed that is found in what was read is in the
    file. *)
Lemma universal_newlines_startswith sub : ∀ s,
  10 ∉ sub → py_startswith (universal_newlines s) sub = true → py_startswith s sub = true.
Proof.
  induction sub as [| p ps IH]; intros s Hsub H; [done |].
  apply not_elem_of_cons in Hsub as [Hp Hps].
  destruct s as [| c r]; [done |]. cbn [universal_newlines] in H.
  case_bool_decide as Hc.
  - destruct r as [| d r']; [| case_bool_decide]; simpl in H;
      apply andb_prop in H as [H _]; apply bool_decide_eq_true_1 in H; congruence.
  - simpl in H. apply andb_prop in H as [H1 H2]. simpl. rewrite H1. simpl. by apply IH.
Qed.

Lemma universal_newlines_occurs sub s m :
  10 ∉ sub → py_startswith (drop m (universal_newlines s)) sub = true →
  ∃ m', py_startswith (drop m' s) sub = true.
Proof.
  intros Hsub.
  assert (H : ∀ n s m, (length s ≤ n)%nat →
            py_startswith (drop m (universal_newlines s)) sub = true →
            ∃ m', py_startswith (drop m' s) sub = true);
    [| by apply (H (length s))].
  clear s m. induction n as [| n IH]; intros s m Hlen Hm.
  { destruct s; [| simpl in Hlen; lia]. exists 0%nat.
    cbn [universal_newlines] in Hm. by rewrite drop_nil in Hm. }
  destruct m as [| m].
  { exists 0%nat. by apply universal_newlines_startswith. }
  destruct s as [| c r]; [exists 0%nat; by destruct sub |]. simpl in Hlen.
  cbn [universal_newlines] in Hm. case_bool_decide as Hc.
  - destruct r as [| d r'].
    + exists 1%nat. simpl in *. by rewrite drop_nil in Hm.
    + simpl in Hlen. case_bool_decide; simpl in Hm.
      * destruct (IH r' m ltac:(lia) Hm) as [m' Hm']. by exists (S (S m')).
      * destruct (IH (d :: r') m ltac:(simpl; lia) Hm) as [m' Hm']. by exists (S m').
  - simpl in Hm. destruct (IH r m ltac:(lia) Hm) as [m' Hm']. by exists (S m').
Qed.

Lemma universal_newlines_contains sub s :
  10 ∉ sub → py_contains sub s = false → py_contains sub (universal_newlines s) = false.
Proof.
  intros Hsub Hs. destruct (py_contains sub (universal_newlines s)) eqn:Hu; [| done].
  apply py_contains_inv in Hu as (m & _ & Hm).
  apply universal_newlines_occurs in Hm as [m' Hm']; [| done].
  apply py_contains_occurs in Hm'. congruence.
Qed.

(** X12. Patching server.js a second time changes nothing: the text the
    installer inserts holds the [terminal-init] it tests for, so after a
    patch that added the handlers the step reports them as present, and in
    every other case it leaves the file as it found it and reports the same
    again. *)
Theorem patch_server_js_twice (server_js : option pystr) :
  patch_server_js (patch_server_js server_js).1
  = ((patch_server_js server_js).1,
     match (patch_server_js server_js).2 with
     | HandlersAdded => AlreadyPresent
     | r => r
     end).
Proof.
  destruct server_js as [stored |]; [| done].
  destruct (patch_server_js (Some stored)) as [f1 r1] eqn:Hp. cbn [fst snd].
  unfold patch_server_js in Hp. cbv zeta in Hp.
  set (content := universal_newlines stored) in Hp.
  destruct (py_contains TERMINAL_INIT content) eqn:Hinit; cbn [negb] in Hp.
  { apply pair_equal_spec in Hp as [<- <-]. unfold patch_server_js. cbv zeta.
    fold content. by rewrite Hinit. }
  set (pos := if bool_decide (py_find content START_SERVER = -1) then _ else _) in Hp.
  destruct (bool_decide (pos > 0)) eqn:Hpos; apply pair_equal_spec in Hp as [<- <-];
    unfold patch_server_js; cbv zeta.
  - assert (Hcr : 13 ∉ take (Z.to_nat pos) content ++ terminal_handlers
                       ++ drop (Z.to_nat pos) content).
    { pose proof (universal_newlines_no_CR stored) as Hc. fold content in Hc.
      rewrite <- (take_drop (Z.to_nat pos) content) in Hc.
      apply not_elem_of_app in Hc as [Hc1 Hc2].
      apply not_elem_of_app. split; [done |].
      apply not_elem_of_app. split; [apply handlers_no_CR | done]. }
    rewrite (universal_newlines_id _ Hcr).
    by rewrite (py_contains_middle _ _ _ _ handlers_mention_init).
  - fold content. rewrite Hinit. cbn [negb]. fold pos. by rewrite Hpos.
Qed.

(** X13. When the step adds the handlers, it puts the whole text in
    front of the first occurrence of the marker it chose and keeps around
    it all of the file as it was read, that is with every line end a line
    feed: the marker is [// Start server] when the file has it and
    [server.listen(] otherwise, the part in front of it is not empty, and
    the file had no [terminal-init] in it. A file without carriage return
    is read as it is stored. *)
Theorem patch_inserts_before_first_marker (stored result : pystr) :
  patch_server_js (Some stored) = (Some result, HandlersAdded) →
  ∃ pre post marker,
    universal_newlines stored = pre ++ post
    ∧ result = pre ++ terminal_handlers ++ post
    ∧ pre ≠ []
    ∧ py_startswith post marker = true
    ∧ (∀ m, (m < length pre)%nat →
         py_startswith (drop m (universal_newlines stored)) marker = false)
    ∧ (marker = START_SERVER
       ∨ marker = SERVER_LISTEN
         ∧ py_contains START_SERVER (universal_newlines stored) = false)
    ∧ py_contains TERMINAL_INIT (universal_newlines stored) = false
    ∧ (13 ∉ stored → universal_newlines stored = stored).
Proof.
  unfold patch_server_js. cbv zeta.
  set (content := universal_newlines stored).
  destruct (py_contains TERMINAL_INIT content) eqn:Hinit; cbn [negb]; [done |].
  set (marker := if bool_decide (py_find content START_SERVER = -1)
                 then SERVER_LISTEN else START_SERVER).
  assert (Hpos : (if bool_decide (py_find content START_SERVER = -1)
                  then py_find content SERVER_LISTEN
                  else py_find content START_SERVER) = py_find content marker)
    by (subst marker; by case_bool_decide).
  rewrite Hpos. destruct (bool_decide (py_find content marker > 0)) eqn:Hgt; [| done].
  apply bool_decide_eq_true_1 in Hgt.
  intros Heq. apply pair_equal_spec in Heq as [Heq _].
  apply (inj Some) in Heq as <-.
  destruct (py_find_from_spec content marker 0 _ eq_refl
              ltac:(unfold py_find in Hgt; lia) ltac:(done))
    as (Hlen & Hat & Hbefore).
  fold (py_find content marker) in Hlen, Hat, Hbefore. rewrite Z.sub_0_r in *.
  set (n := Z.to_nat (py_find content marker)) in *.
  exists (take n content), (drop n content), marker.
  rewrite length_take_le by done. split_and!; try done.
  - by rewrite take_drop.
  - intros Hnil. apply (f_equal length) in Hnil. rewrite length_take_le in Hnil by done.
    simpl in Hnil. lia.
  - subst marker. case_bool_decide as Hstart; [right | by left].
    split; [done |]. unfold py_contains. by rewrite bool_decide_eq_true_2.
  - apply universal_newlines_id.
Qed.

Lemma patch_inserts_before_first_marker_witness :
  ∃ pre post marker,
    universal_newlines sample_server_js = pre ++ post
    ∧ (pystr_of_string "const app = express();
" ++ terminal_handlers ++ pystr_of_string "// Start server
server.listen(PORT);
") = pre ++ terminal_handlers ++ post
    ∧ pre ≠ []
    ∧ py_startswith post marker = true
    ∧ (∀ m, (m < length pre)%nat →
         py_startswith (drop m (universal_newlines sample_server_js)) marker = false)
    ∧ (marker = START_SERVER
       ∨ marker = SERVER_LISTEN
         ∧ py_contains START_SERVER (universal_newlines sample_server_js) = false)
    ∧ py_contains TERMINAL_INIT (universal_newlines sample_server_js) = false
    ∧ (13 ∉ sample_server_js → universal_newlines sample_server_js = sample_server_js).
Proof.
  apply (patch_inserts_before_first_marker sample_server_js).
  vm_compute. reflexivity.
Defined.

(** X14. A marker at the very start of server.js does not count: the
    step asks for a position above zero, so a file that begins with
    [// Start server] is left unpatched with the report that no insertion
    point was found, also when [server.listen(] occurs further down. *)
Theorem patch_misses_marker_at_start (rest : pystr) :
  py_contains TERMINAL_INIT (START_SERVER ++ rest) = false →
  patch_server_js (Some (START_SERVER ++ rest))
  = (Some (START_SERVER ++ rest), NoInsertionPoint).
Proof.
  intros Hinit. unfold patch_server_js. cbv zeta.
  assert (Hlf : 10 ∉ TERMINAL_INIT) by (apply (bool_decide_unpack _); vm_compute; exact I).
  assert (Hcr : 13 ∉ START_SERVER) by (apply (bool_decide_unpack _); vm_compute; exact I).
  rewrite (universal_newlines_contains _ _ Hlf Hinit). cbn [negb].
  rewrite (universal_newlines_app _ _ Hcr).
  assert (Hfind : py_find (START_SERVER ++ universal_newlines rest) START_SERVER = 0).
  { generalize (universal_newlines rest). intros r. unfold py_find.
    change (START_SERVER ++ r) with (47 :: (drop 1 START_SERVER ++ r)).
    unfold py_find_from.
    change (47 :: (drop 1 START_SERVER ++ r)) with (START_SERVER ++ r).
    by rewrite py_startswith_app. }
  rewrite Hfind.
  rewrite (bool_decide_eq_false_2 (0 = -1)) by lia.
  by rewrite (bool_decide_eq_false_2 (0 > 0)) by lia.
Qed.

Lemma patch_misses_marker_at_start_witness :
  patch_server_js (Some server_js_marker_first)
  = (Some server_js_marker_first, NoInsertionPoint).
Proof.
  apply (patch_misses_marker_at_start (pystr_of_string "
server.listen(PORT);
")).
  vm_compute. reflexivity.
Defined.

(** ** The bridge in server.js, once more *)

(** X15. The bridge does not guard [terminal-init]: a second one on the
    same socket spawns a second PTY process and moves [ptyProcess] to it.
    The disconnect then kills the second process only; the first is left
    running, no later disconnect reaches it, and its output still goes to
    the socket. *)
Theorem bridge_second_init_orphans_first (env : gmap string string)
    (d1 d2 : NodeBridge.init_data) (s : NodeBridge.socket) :
  let i := length (NodeBridge.spawned s) in
  let s2 := NodeBridge.on_terminal_init env d2 (NodeBridge.on_terminal_init env d1 s) in
  let s3 := NodeBridge.on_disconnect s2 in
  NodeBridge.ptyProcess s2 = Some (S i)
  ∧ NodeBridge.spawned s3 !! i
    = Some (NodeBridge.PtyProcess (NodeBridge.spawn_args env d1) false false)
  ∧ NodeBridge.spawned s3 !! S i
    = Some (NodeBridge.PtyProcess (NodeBridge.spawn_args env d2) false true)
  ∧ NodeBridge.on_disconnect s3 = s3
  ∧ ∀ data, NodeBridge.sent (NodeBridge.on_data i data s3) = NodeBridge.sent s ++ [data].
Proof.
  intros i s2 s3. subst s2 s3. unfold NodeBridge.on_terminal_init, NodeBridge.on_disconnect.
  simpl. rewrite length_app. simpl. replace (length (NodeBridge.spawned s) + 1)%nat with (S i) by lia.
  fold i.
  assert (H1 : ((NodeBridge.spawned s
                 ++ [NodeBridge.PtyProcess (NodeBridge.spawn_args env d1) false false])
                ++ [NodeBridge.PtyProcess (NodeBridge.spawn_args env d2) false false]) !! i
               = Some (NodeBridge.PtyProcess (NodeBridge.spawn_args env d1) false false)).
  { rewrite <- app_assoc. by apply list_lookup_middle. }
  assert (H2 : ((NodeBridge.spawned s
                 ++ [NodeBridge.PtyProcess (NodeBridge.spawn_args env d1) false false])
                ++ [NodeBridge.PtyProcess (NodeBridge.spawn_args env d2) false false]) !! S i
               = Some (NodeBridge.PtyProcess (NodeBridge.spawn_args env d2) false false)).
  { apply list_lookup_middle. rewrite length_app. simpl. lia. }
  split_and!.
  - done.
  - rewrite list_lookup_alter_ne by lia. exact H1.
  - rewrite list_lookup_alter, decide_True by done. by rewrite H2.
  - done.
  - intros data. unfold NodeBridge.on_data. simpl.
    rewrite list_lookup_alter_ne by lia. by rewrite H1.
Qed.
